(** * The API gateway with conversation storage (api-gateway/index.py)

    A shallow embedding of the request handlers of [index.py] over the
    schema of [models.py]: the four tables are lists of rows in
    insertion order, the handlers are terms of a state-and-exception
    monad, and everything the handlers obtain from outside (uuid4, the
    clock, the inference backend, failures of the database engine) is
    read from an environment of oracles, indexed by the number of
    effects performed so far.

    What the embedding takes from the libraries the handlers call:
    - the database engine enforces PRIMARY KEY, UNIQUE and NOT NULL as
      declared in [models.py] (SQLite does; it does not enforce the
      foreign keys, and neither does the model); a commit either writes
      its row or raises and writes nothing;
    - the ORM sends NULL for a column the constructor leaves unset when
      the column has no default, and the default otherwise;
    - pydantic raises AttributeError for an attribute that is no field
      and ValidationError for a missing required field;
    - the backend's JSON body is read at the keys the handler reads
      (choices[0].message.content, usage, model), as a typed record;
    - times are integers (milliseconds), one clock serves
      [datetime.now], [datetime.utcnow] and [time.time]. *)

From Stdlib Require Import ZArith QArith Ascii.
From stdpp Require Import base option list strings gmap sorting pretty.

Local Open Scope Z_scope.

(** ** Python values *)

Definition datetime := Z.

(** [ChatMessage] (pydantic): both fields are required strings. *)
Module ChatMessage.
Record t := mk { role : string; content : string }.
End ChatMessage.

(** The values that occur in the dictionaries the handlers build: the
    backend payload, the detail map of an audit fact and the keyword
    arguments of a response model. [msg.dict()] of a [ChatMessage] is
    kept as the message itself. *)
Inductive PyVal :=
| VNone
| VBool (b : bool)
| VInt (z : Z)
| VFloat (q : Q)
| VStr (s : string)
| VTime (t : datetime)
| VMsgs (l : list ChatMessage.t).

Definition opt_val {A} (f : A → PyVal) (o : option A) : PyVal :=
  match o with Some a => f a | None => VNone end.

(** Python truthiness, as used by [if x:], [x or y] and [not x]. *)
Definition truthy_str (o : option string) : bool :=
  match o with
  | Some s => negb (String.eqb s "")
  | None => false
  end.

Definition truthy_int (o : option Z) : bool :=
  match o with
  | Some z => negb (Z.eqb z 0)
  | None => false
  end.

Definition truthy_list {A} (l : list A) : bool :=
  match l with [] => false | _ :: _ => true end.

(** ** Exceptions *)

Inductive Exc :=
| HTTPException (status_code : Z) (detail : string)
| IntegrityError (msg : string)
| OperationalError (msg : string)
| MultipleResultsFound (msg : string)
| AttributeError (msg : string)
| ValidationError (msg : string)
| IndexError (msg : string)
| RequestError (msg : string)
| JSONDecodeError (msg : string).

(** [str(e)] *)
Definition str (e : Exc) : string :=
  match e with
  | HTTPException _ d => d
  | IntegrityError m | OperationalError m | MultipleResultsFound m
  | AttributeError m | ValidationError m | IndexError m
  | RequestError m | JSONDecodeError m => m
  end.

Definition is_HTTPException (e : Exc) : bool :=
  match e with HTTPException _ _ => true | _ => false end.

(** ** The schema (models.py) *)

Module User.
Record t := mk {
    id : string;
    username : option string;
    email : option string;
    api_key : option string;
    is_active : bool;
    created_at : datetime;
    updated_at : datetime }.
End User.

Module Session.
Record t := mk {
    id : string;
    user_id : string;
    title : option string;
    model_name : option string;
    system_prompt : option string;
    is_active : bool;
    created_at : datetime;
    updated_at : datetime }.

Definition touch (now : datetime) (s : t) : t :=
    mk (id s) (user_id s) (title s) (model_name s) (system_prompt s)
       (is_active s) (created_at s) now.
End Session.

Module Message.
Record t := mk {
    id : string;
    session_id : string;
    role : string;
    content : string;
    token_count : Z;
    created_at : datetime }.
End Message.

Module RequestLog.
  (** [request_data] holds [json.dumps] of the backend payload; the
      model keeps the payload itself. *)
Record t := mk {
    id : string;
    user_id : option string;
    session_id : option string;
    endpoint : string;
    method : string;
    ip_address : option string;
    user_agent : option string;
    request_data : option (gmap string PyVal);
    response_status : option Z;
    response_time_ms : option Z;
    created_at : datetime }.
End RequestLog.

(** ** Request and response models (pydantic) *)

Module ChatRequest.
Record t := mk {
    model : option string;
    messages : list ChatMessage.t;
    session_id : option string;
    user_id : option string;
    temperature : option Q;
    max_tokens : option Z;
    stream : option bool }.
End ChatRequest.

Module SessionCreate.
Record t := mk {
    title : option string;
    model_name : option string;
    system_prompt : option string;
    user_id : option string }.

  (** Attribute access by name: only the declared fields exist. *)
Definition getattr (o : t) (name : string) : option PyVal :=
    if String.eqb name "title" then Some (opt_val VStr (title o))
    else if String.eqb name "model_name" then Some (opt_val VStr (model_name o))
    else if String.eqb name "system_prompt" then Some (opt_val VStr (system_prompt o))
    else if String.eqb name "user_id" then Some (opt_val VStr (user_id o))
    else None.
End SessionCreate.

Module SessionResponse.
Record t := mk {
    id : string;
    title : option string;
    model_name : string;
    system_prompt : option string;
    created_at : datetime;
    updated_at : datetime;
    message_count : Z }.
End SessionResponse.

Module MessageResponse.
Record t := mk {
    id : string;
    role : string;
    content : string;
    token_count : Z;
    created_at : datetime }.
End MessageResponse.

(** ** The backend's reply (OpenAI-style completion body) *)

Module Usage.
Record t := mk { completion_tokens : option Z; total_tokens : option Z }.
End Usage.

Module ResponseData.
  (** [choices] lists [choice['message']['content']] of every choice;
      [None] is a body without the key. [session_id] and [user_id] are
      the two keys the gateway adds before it answers. *)
Record t := mk {
    choices : option (list string);
    usage : option Usage.t;
    model : option string;
    session_id : option string;
    user_id : option string }.

Definition annotate (sid uid : string) (r : t) : t :=
    mk (choices r) (usage r) (model r) (Some sid) (Some uid).
End ResponseData.

Module HttpResponse.
  (** [json] is [None] when the body is not JSON. *)
Record t := mk {
    status_code : Z;
    text : string;
    json : option ResponseData.t }.
End HttpResponse.

(** ** The structured audit fact written to the log sink *)

Module AuditFact.
Record t := mk {
    timestamp : string;
    ip : string;
    endpoint : string;
    status : string;
    details : gmap string PyVal }.
End AuditFact.

(** ** The environment

    Process-wide configuration (read once at import time) and the
    oracles: the [n]-th effect of a run reads its outcome at index [n]. *)

Record Env := mkEnv {
  API_KEY : string;
  (** [SimpleAuth.allowed_ips]: the entries of ALLOWED_IPS, stripped,
      empty ones dropped. *)
  allowed_ips : list string;
  LOG_REQUESTS : bool;
  (** [str(uuid.uuid4())] *)
  uuid_at : nat → string;
  (** [datetime.now()], [datetime.utcnow()] and [time.time()], in
      milliseconds. *)
  clock_at : nat → Z;
  (** [strftime('%Y-%m-%d %H:%M')] and [isoformat()] *)
  strftime : datetime → string;
  isoformat : datetime → string;
  (** [ipaddress.ip_address(ip) in ipaddress.ip_network(net, strict=False)];
      [None] when either argument does not parse (ValueError). *)
  ip_in_network : string → string → option bool;
  (** A commit the database engine refuses for a reason of its own
      (locked file, full disk): the message of the OperationalError. *)
  commit_fault : nat → option string;
  (** [client.post(VLLM_URL/v1/chat/completions, json=payload)]: the
      response, or the exception httpx raises (unreachable, timeout). *)
  vllm_post : nat → gmap string PyVal → Exc + HttpResponse.t }.

(** ** The world: the four tables, the log sink, the payloads sent to
    the backend, and the number of effects so far *)

Record World := mkWorld {
  users : list User.t;
  sessions : list Session.t;
  messages : list Message.t;
  request_logs : list RequestLog.t;
  access_log : list AuditFact.t;
  vllm_calls : list (gmap string PyVal);
  ticks : nat }.

Definition set_users (f : list User.t → list User.t) (w : World) : World :=
  mkWorld (f (users w)) (sessions w) (messages w) (request_logs w)
          (access_log w) (vllm_calls w) (ticks w).
Definition set_sessions (f : list Session.t → list Session.t) (w : World) : World :=
  mkWorld (users w) (f (sessions w)) (messages w) (request_logs w)
          (access_log w) (vllm_calls w) (ticks w).
Definition set_messages (f : list Message.t → list Message.t) (w : World) : World :=
  mkWorld (users w) (sessions w) (f (messages w)) (request_logs w)
          (access_log w) (vllm_calls w) (ticks w).
Definition set_request_logs (f : list RequestLog.t → list RequestLog.t) (w : World) : World :=
  mkWorld (users w) (sessions w) (messages w) (f (request_logs w))
          (access_log w) (vllm_calls w) (ticks w).
Definition set_access_log (f : list AuditFact.t → list AuditFact.t) (w : World) : World :=
  mkWorld (users w) (sessions w) (messages w) (request_logs w)
          (f (access_log w)) (vllm_calls w) (ticks w).
Definition set_vllm_calls (f : list (gmap string PyVal) → list (gmap string PyVal))
    (w : World) : World :=
  mkWorld (users w) (sessions w) (messages w) (request_logs w)
          (access_log w) (f (vllm_calls w)) (ticks w).
Definition set_ticks (f : nat → nat) (w : World) : World :=
  mkWorld (users w) (sessions w) (messages w) (request_logs w)
          (access_log w) (vllm_calls w) (f (ticks w)).

Definition empty_world : World := mkWorld [] [] [] [] [] [] 0.

(** ** The monad of the handlers: state and exceptions *)

Inductive Res (A : Type) :=
| Raise (e : Exc)
| Return (a : A).
Arguments Raise {A} e.
Arguments Return {A} a.

Definition M (A : Type) : Type := World → Res A * World.

Definition ret {A} (a : A) : M A := λ w, (Return a, w).

Definition raise {A} (e : Exc) : M A := λ w, (Raise e, w).

Definition bind {A B} (m : M A) (k : A → M B) : M B :=
  λ w, match m w with
       | (Return a, w') => k a w'
       | (Raise e, w') => (Raise e, w')
       end.

(** [try: m except Exception as e: h e] *)
Definition try_except {A} (m : M A) (h : Exc → M A) : M A :=
  λ w, match m w with
       | (Return a, w') => (Return a, w')
       | (Raise e, w') => h e w'
       end.

Definition gets {A} (f : World → A) : M A := λ w, (Return (f w), w).

Definition modify (f : World → World) : M unit := λ w, (Return tt, f w).

Declare Scope py_scope.
Delimit Scope py_scope with py.
Notation "x <- m ;; k" := (bind m (λ x, k))
  (at level 100, m at next level, right associativity) : py_scope.
Notation "m ;; k" := (bind m (λ _, k))
  (at level 100, right associativity) : py_scope.
Local Open Scope py_scope.

(** [for x in l: ys.append(f x)] *)
Fixpoint for_each {A B} (f : A → M B) (l : list A) : M (list B) :=
  match l with
  | [] => ret []
  | x :: l' => y <- f x ;; ys <- for_each f l' ;; ret (y :: ys)
  end.

(** ** String helpers *)

(** [c in s] for a one-character [c] *)
Fixpoint contains_char (c : Ascii.ascii) (s : string) : bool :=
  match s with
  | EmptyString => false
  | String a s' => if Ascii.eqb a c then true else contains_char c s'
  end.

(** [l[-1]] *)
Definition getitem_last {A} (l : list A) : M A :=
  match last l with
  | Some x => ret x
  | None => raise (IndexError "list index out of range")
  end.

(** [result.scalar_one_or_none()] *)
Definition scalar_one_or_none {A} (rows : list A) : M (option A) :=
  match rows with
  | [] => ret None
  | [x] => ret (Some x)
  | _ :: _ :: _ =>
      raise (MultipleResultsFound "Multiple rows were found when one or none was required")
  end.

(** A UNIQUE column already holds [v]; NULLs never collide. *)
Definition taken {A} (col : A → option string) (rows : list A) (v : option string) : bool :=
  match v with
  | Some s => bool_decide (Some s ∈ col <$> rows)
  | None => false
  end.

(** [{k1: v1, ...}] *)
Definition dict (l : list (string * PyVal)) : gmap string PyVal := list_to_map l.

Definition as_opt_str (v : PyVal) : option string :=
  match v with VStr s => Some s | _ => None end.

(** The two orderings of the listings: sessions by [updated_at]
    descending, messages by [created_at] ascending. *)
Definition updated_desc (a b : Session.t) : Prop :=
  Session.updated_at b ≤ Session.updated_at a.

Definition created_asc (a b : Message.t) : Prop :=
  Message.created_at a ≤ Message.created_at b.

#[global] Instance updated_desc_dec : RelDecision updated_desc :=
  λ a b, Z_le_dec (Session.updated_at b) (Session.updated_at a).

#[global] Instance created_asc_dec : RelDecision created_asc :=
  λ a b, Z_le_dec (Message.created_at a) (Message.created_at b).

Section Gateway.
Context (env : Env).

(** ** Effects *)

Definition tick : M nat := λ w, (Return (ticks w), set_ticks S w).

(** [str(uuid.uuid4())] *)
Definition uuid4 : M string := n <- tick ;; ret (uuid_at env n).

(** [datetime.now()], [datetime.utcnow()] *)
Definition datetime_now : M datetime := n <- tick ;; ret (clock_at env n).

(** [time.time()] *)
Definition time_time : M Z := n <- tick ;; ret (clock_at env n).

(** [await db.commit()] of the pending change [write]: the statement
    is refused when it violates a constraint of the schema, the commit
    when the engine faults; otherwise the change is in the tables. *)
Definition db_commit (violation : World → option string) (write : World → World) : M unit :=
  v <- gets violation ;;
  match v with
  | Some msg => raise (IntegrityError msg)
  | None =>
      n <- tick ;;
      match commit_fault env n with
      | Some msg => raise (OperationalError msg)
      | None => modify write
      end
  end.

(** *** Constraints of models.py *)

(** users: [id] primary key; [username] unique, nullable=False;
    [email], [api_key] unique. *)
Definition users_violation (u : User.t) (w : World) : option string :=
  if negb (bool_decide (is_Some (User.username u)))
  then Some "NOT NULL constraint failed: users.username"
  else if bool_decide (User.id u ∈ User.id <$> users w)
  then Some "UNIQUE constraint failed: users.id"
  else if taken User.username (users w) (User.username u)
  then Some "UNIQUE constraint failed: users.username"
  else if taken User.email (users w) (User.email u)
  then Some "UNIQUE constraint failed: users.email"
  else if taken User.api_key (users w) (User.api_key u)
  then Some "UNIQUE constraint failed: users.api_key"
  else None.

Definition sessions_violation (s : Session.t) (w : World) : option string :=
  if bool_decide (Session.id s ∈ Session.id <$> sessions w)
  then Some "UNIQUE constraint failed: sessions.id"
  else None.

Definition messages_violation (m : Message.t) (w : World) : option string :=
  if bool_decide (Message.id m ∈ Message.id <$> messages w)
  then Some "UNIQUE constraint failed: messages.id"
  else None.

Definition request_logs_violation (l : RequestLog.t) (w : World) : option string :=
  if bool_decide (RequestLog.id l ∈ RequestLog.id <$> request_logs w)
  then Some "UNIQUE constraint failed: request_logs.id"
  else None.

(** *** [db.add(row); await db.commit(); await db.refresh(row)]

    The columns the constructor leaves unset take their Python-side
    default at flush ([id]: uuid4, [is_active]: True, [created_at],
    [updated_at]: utcnow, [model_name]: "qwen2.5-7b", [token_count]: 0);
    a column without default is sent as NULL. *)

Definition db_add_User (id username email api_key : option string) : M User.t :=
  id <- match id with Some i => ret i | None => uuid4 end ;;
  created_at <- datetime_now ;;
  updated_at <- datetime_now ;;
  let row := User.mk id username email api_key true created_at updated_at in
  db_commit (users_violation row) (set_users (λ l, l ++ [row])) ;;
  ret row.

Definition db_add_Session (id user_id : string) (title model_name : option string)
    : M Session.t :=
  created_at <- datetime_now ;;
  updated_at <- datetime_now ;;
  let row := Session.mk id user_id title
               (Some (default "qwen2.5-7b" model_name)) None true
               created_at updated_at in
  db_commit (sessions_violation row) (set_sessions (λ l, l ++ [row])) ;;
  ret row.

Definition db_add_Message (id session_id role content : string) (token_count : option Z)
    : M Message.t :=
  created_at <- datetime_now ;;
  let row := Message.mk id session_id role content (default 0 token_count) created_at in
  db_commit (messages_violation row) (set_messages (λ l, l ++ [row])) ;;
  ret row.

Definition db_add_RequestLog (id : string) (user_id session_id : option string)
    (endpoint method : string) (ip_address user_agent : option string)
    (request_data : option (gmap string PyVal))
    (response_status response_time_ms : option Z) : M unit :=
  created_at <- datetime_now ;;
  let row := RequestLog.mk id user_id session_id endpoint method ip_address
               user_agent request_data response_status response_time_ms created_at in
  db_commit (request_logs_violation row) (set_request_logs (λ l, l ++ [row])).

(** ** database.py *)

Definition create_default_user : M unit :=
  rows <- gets (λ w, filter (λ u, User.username u = Some "default") (users w)) ;;
  existing_user <- scalar_one_or_none rows ;;
  match existing_user with
  | None =>
      db_add_User None (Some "default") (Some "default@example.com")
                  (Some "default-api-key") ;;
      ret tt
  | Some _ => ret tt
  end.

(** ** SimpleAuth *)

Definition verify_api_key (token : string) : bool :=
  String.eqb token (API_KEY env).

Fixpoint ip_matches (ip : string) (l : list string) : bool :=
  match l with
  | [] => false
  | allowed_ip :: l' =>
      if contains_char "/"%char allowed_ip
      then match ip_in_network env ip allowed_ip with
           | Some true => true
           | Some false | None => ip_matches ip l'
           end
      else if String.eqb ip allowed_ip then true
      else ip_matches ip l'
  end.

Definition check_ip_allowed (ip : string) : bool :=
  if negb (truthy_list (allowed_ips env)) then true
  else ip_matches ip (allowed_ips env).

(** [auth.log_request(ip, endpoint, status, details)] *)
Definition log_request (ip endpoint status : string) (details : option (gmap string PyVal))
    : M unit :=
  if LOG_REQUESTS env then
    now <- datetime_now ;;
    modify (set_access_log (λ l,
      l ++ [AuditFact.mk (isoformat env now) ip endpoint status (default ∅ details)]))
  else ret tt.

(** [verify_token]: [client_ip] is [request.client.host], [path] is
    [request.url.path], [credentials] the bearer token. *)
Definition verify_token (client_ip path credentials : string) : M string :=
  if negb (check_ip_allowed client_ip) then
    log_request client_ip path "IP_BLOCKED" None ;;
    raise (HTTPException 403 "IP not allowed")
  else if negb (verify_api_key credentials) then
    log_request client_ip path "AUTH_FAILED"
                (Some (dict [("reason", VStr "Invalid API key")])) ;;
    raise (HTTPException 401 "Invalid API key")
  else ret client_ip.

(** ** Database helpers (index.py, "数据库辅助函数") *)

(** [select(User).where(User.id == user_id)]; a [None] identifier
    compares with IS NULL and selects nothing. *)
Definition get_or_create_user (user_id : option string) : M User.t :=
  rows <- gets (λ w, filter (λ u, Some (User.id u) = user_id) (users w)) ;;
  user <- scalar_one_or_none rows ;;
  match user with
  | Some user => ret user
  | None => db_add_User user_id None None None
  end.

Definition default_title (now : datetime) : string :=
  "对话 " +:+ strftime env now.

Definition create_new_session (user_id : string) (model_name title : option string)
    : M Session.t :=
  id <- uuid4 ;;
  title <- (if truthy_str title then ret title
            else now <- datetime_now ;; ret (Some (default_title now))) ;;
  db_add_Session id user_id title model_name.

Definition get_session_by_id (session_id user_id : string) : M (option Session.t) :=
  rows <- gets (λ w, filter (λ s, Session.id s = session_id ∧ Session.user_id s = user_id)
                            (sessions w)) ;;
  scalar_one_or_none rows.

Definition store_message (session_id role content : string) (token_count : option Z)
    : M Message.t :=
  id <- uuid4 ;;
  db_add_Message id session_id role content token_count.

Definition update_session_timestamp (session_id : string) : M unit :=
  rows <- gets (λ w, filter (λ s, Session.id s = session_id) (sessions w)) ;;
  session <- scalar_one_or_none rows ;;
  match session with
  | Some session =>
      now <- datetime_now ;;
      db_commit (λ _, None)
        (set_sessions (fmap (λ s, if bool_decide (Session.id s = Session.id session)
                                  then Session.touch now s else s)))
  | None => ret tt
  end.

Definition log_request_to_db (user_id session_id endpoint method ip_address : string)
    (user_agent : option string) (request_data : gmap string PyVal)
    (response_status response_time_ms : Z) : M unit :=
  id <- uuid4 ;;
  db_add_RequestLog id (Some user_id) (Some session_id) endpoint method
    (Some ip_address) user_agent (Some request_data)
    (Some response_status) (Some response_time_ms).

(** ** The backend call *)

(** [await client.post(..., json=payload, timeout=120.0)] *)
Definition httpx_post (payload : gmap string PyVal) : M HttpResponse.t :=
  n <- tick ;;
  modify (set_vllm_calls (λ l, l ++ [payload])) ;;
  match vllm_post env n payload with
  | inl e => raise e
  | inr response => ret response
  end.

(** [response.json()] *)
Definition response_json (response : HttpResponse.t) : M ResponseData.t :=
  match HttpResponse.json response with
  | Some data => ret data
  | None => raise (JSONDecodeError "Expecting value")
  end.

(** The dictionary sent to the backend (index.py, lines 243-251). *)
Definition vllm_request_of (chat_request : ChatRequest.t) : gmap string PyVal :=
  let vllm_request :=
    dict [("model", opt_val VStr (ChatRequest.model chat_request));
          ("messages", VMsgs (ChatRequest.messages chat_request));
          ("temperature", opt_val VFloat (ChatRequest.temperature chat_request));
          ("stream", opt_val VBool (ChatRequest.stream chat_request))] in
  if truthy_int (ChatRequest.max_tokens chat_request)
  then <["max_tokens" := opt_val VInt (ChatRequest.max_tokens chat_request)]> vllm_request
  else vllm_request.

(** ** POST /v1/chat/completions

    The handler is embedded block by block, in the order and under the
    comments of the source; [chat_completions] at the end puts the
    blocks together. [user_agent] is [request.headers.get("user-agent")]. *)

Definition completions_path : string := "/v1/chat/completions".

(** Lines 214-225, 获取或创建用户 and 获取或创建会话. *)
Definition chat_resolve (chat_request : ChatRequest.t) : M (User.t * Session.t) :=
  user <- get_or_create_user (ChatRequest.user_id chat_request) ;;
  session <- (if truthy_str (ChatRequest.session_id chat_request)
              then get_session_by_id (default "" (ChatRequest.session_id chat_request))
                                     (User.id user)
              else ret None) ;;
  session <- match session with
             | Some session => ret session
             | None =>
                 now <- datetime_now ;;
                 create_new_session (User.id user) (ChatRequest.model chat_request)
                                    (Some (default_title now))
             end ;;
  ret (user, session).

(** Lines 227-232, 存储用户消息. *)
Definition chat_store_inbound (chat_request : ChatRequest.t) (session : Session.t)
    : M (option Message.t) :=
  if truthy_list (ChatRequest.messages chat_request) then
    last_message <- getitem_last (ChatRequest.messages chat_request) ;;
    if String.eqb (ChatMessage.role last_message) "user" then
      user_message <- store_message (Session.id session) "user"
                                    (ChatMessage.content last_message) None ;;
      ret (Some user_message)
    else ret None
  else ret None.

(** Lines 234-267, 记录请求开始, 准备发送给vLLM的请求 and 转发请求到vLLM. *)
Definition chat_forward (chat_request : ChatRequest.t) (client_ip : string)
    (user : User.t) (session : Session.t) : M ResponseData.t :=
  log_request client_ip completions_path "START"
    (Some (dict [("model", opt_val VStr (ChatRequest.model chat_request));
                 ("session_id", VStr (Session.id session));
                 ("user_id", VStr (User.id user));
                 ("messages_count",
                  VInt (Z.of_nat (length (ChatRequest.messages chat_request))))])) ;;
  response <- httpx_post (vllm_request_of chat_request) ;;
  if negb (Z.eqb (HttpResponse.status_code response) 200) then
    raise (HTTPException (HttpResponse.status_code response)
                         ("vLLM error: " +:+ HttpResponse.text response))
  else response_json response.

(** [response_data.get('usage', {}).get(key, ...)] *)
Definition usage_of (response_data : ResponseData.t) : Usage.t :=
  default (Usage.mk None None) (ResponseData.usage response_data).

(** Lines 269-274, 存储助手回复. *)
Definition chat_store_reply (session : Session.t) (response_data : ResponseData.t)
    : M (option Message.t) :=
  match ResponseData.choices response_data with
  | Some (assistant_content :: _) =>
      assistant_message <-
        store_message (Session.id session) "assistant" assistant_content
                      (Usage.completion_tokens (usage_of response_data)) ;;
      ret (Some assistant_message)
  | Some [] | None => ret None
  end.

(** Lines 214-277: everything up to and including 更新会话时间. *)
Definition chat_exchange (chat_request : ChatRequest.t) (client_ip : string)
    : M (User.t * Session.t * ResponseData.t) :=
  resolved <- chat_resolve chat_request ;;
  let '(user, session) := resolved in
  user_message <- chat_store_inbound chat_request session ;;
  response_data <- chat_forward chat_request client_ip user session ;;
  assistant_message <- chat_store_reply session response_data ;;
  update_session_timestamp (Session.id session) ;;
  ret (user, session, response_data).

(** Lines 279-282, 记录请求日志到数据库. *)
Definition chat_audit (user_agent : option string) (chat_request : ChatRequest.t)
    (client_ip : string) (start_time : Z) (user : User.t) (session : Session.t)
    : M unit :=
  now <- time_time ;;
  log_request_to_db (User.id user) (Session.id session) completions_path "POST"
    client_ip user_agent (vllm_request_of chat_request) 200 (now - start_time).

(** Lines 284-297, 在响应中添加会话信息 and 记录成功响应. *)
Definition chat_respond (client_ip : string) (start_time : Z) (user : User.t)
    (session : Session.t) (response_data : ResponseData.t) : M ResponseData.t :=
  let response_data :=
    ResponseData.annotate (Session.id session) (User.id user) response_data in
  now <- time_time ;;
  log_request client_ip completions_path "SUCCESS"
    (Some (dict [("response_time", VFloat ((now - start_time) # 1000));
                 ("tokens_used",
                  VInt (default 0 (Usage.total_tokens (usage_of response_data))));
                 ("model", opt_val VStr (ResponseData.model response_data));
                 ("session_id", VStr (Session.id session))])) ;;
  ret response_data.

(** The body of the [try]. *)
Definition chat_try (user_agent : option string) (chat_request : ChatRequest.t)
    (client_ip : string) (start_time : Z) : M ResponseData.t :=
  exchanged <- chat_exchange chat_request client_ip ;;
  let '(user, session, response_data) := exchanged in
  chat_audit user_agent chat_request client_ip start_time user session ;;
  chat_respond client_ip start_time user session response_data.

(** Lines 299-307: [except HTTPException: raise], then
    [except Exception as e]. *)
Definition chat_except (client_ip : string) (start_time : Z) (e : Exc)
    : M ResponseData.t :=
  if is_HTTPException e then raise e
  else
    now <- time_time ;;
    log_request client_ip completions_path "ERROR"
      (Some (dict [("error", VStr (str e));
                   ("response_time", VFloat ((now - start_time) # 1000))])) ;;
    raise (HTTPException 500 ("Internal error: " +:+ str e)).

Definition chat_completions (user_agent : option string) (chat_request : ChatRequest.t)
    (client_ip : string) : M ResponseData.t :=
  start_time <- time_time ;;
  try_except (chat_try user_agent chat_request client_ip start_time)
             (chat_except client_ip start_time).

(** ** Response models

    [SessionResponse(...)]: pydantic validates the keyword arguments
    against the declared fields. [id], [model_name], [created_at] and
    [updated_at] are required; [title] and [system_prompt] are Optional;
    [message_count] defaults to 0; a keyword that names no field is
    ignored. *)
Definition SessionResponse_init (kw : gmap string PyVal) : M SessionResponse.t :=
  match kw !! "id", kw !! "model_name", kw !! "created_at", kw !! "updated_at" with
  | Some (VStr id), Some (VStr model_name), Some (VTime created_at), Some (VTime updated_at) =>
      let title := kw !! "title" ≫= as_opt_str in
      let system_prompt := kw !! "system_prompt" ≫= as_opt_str in
      match default (VInt 0) (kw !! "message_count") with
      | VInt message_count =>
          ret (SessionResponse.mk id title model_name system_prompt
                                  created_at updated_at message_count)
      | _ => raise (ValidationError "validation error for SessionResponse")
      end
  | _, _, _, _ => raise (ValidationError "validation error for SessionResponse")
  end.

(** The keyword arguments the three session handlers pass. *)
Definition session_response_kw (session : Session.t) (message_count : Z)
    : gmap string PyVal :=
  dict [("id", VStr (Session.id session));
        ("title", opt_val VStr (Session.title session));
        ("model", opt_val VStr (Session.model_name session));
        ("created_at", VTime (Session.created_at session));
        ("updated_at", VTime (Session.updated_at session));
        ("message_count", VInt message_count)].

Definition message_response (message : Message.t) : MessageResponse.t :=
  MessageResponse.mk (Message.id message) (Message.role message)
    (Message.content message) (Message.token_count message)
    (Message.created_at message).

(** [session_data.<name>] *)
Definition SessionCreate_getattr (session_data : SessionCreate.t) (name : string)
    : M PyVal :=
  match SessionCreate.getattr session_data name with
  | Some v => ret v
  | None => raise (AttributeError
      ("'SessionCreate' object has no attribute '" +:+ name +:+ "'"))
  end.

(** [count(Message.id)] of the messages of a session *)
Definition count_messages (session_id : string) (w : World) : Z :=
  Z.of_nat (length (filter (λ m, Message.session_id m = session_id) (messages w))).

(** ** Session management (index.py, "会话管理API") *)

(** POST /v1/sessions *)
Definition create_session (session_data : SessionCreate.t) (client_ip : string)
    : M SessionResponse.t :=
  try_except
    (user <- get_or_create_user (SessionCreate.user_id session_data) ;;
     model <- SessionCreate_getattr session_data "model" ;;
     session <- create_new_session (User.id user) (as_opt_str model)
                                   (SessionCreate.title session_data) ;;
     SessionResponse_init (session_response_kw session 0))
    (λ e, raise (HTTPException 500 ("Failed to create session: " +:+ str e))).

(** GET /v1/sessions: the sessions of the user with their message
    counts, latest update first. *)
Definition list_sessions (user_id client_ip : string) : M (list SessionResponse.t) :=
  try_except
    (user <- get_or_create_user (Some user_id) ;;
     rows <- gets (λ w,
       (λ s, (s, count_messages (Session.id s) w)) <$>
       merge_sort updated_desc
                  (filter (λ s, Session.user_id s = User.id user) (sessions w))) ;;
     for_each (λ '(session, message_count),
                 SessionResponse_init (session_response_kw session message_count)) rows)
    (λ e, raise (HTTPException 500 ("Failed to list sessions: " +:+ str e))).

(** GET /v1/sessions/{session_id}. Line 461 of the source is indented
    one column deeper than the rest of its block; it is read as the
    first statement of the [try], like its siblings. *)
Definition get_session (session_id user_id client_ip : string) : M SessionResponse.t :=
  try_except
    (user <- get_or_create_user (Some user_id) ;;
     session <- get_session_by_id session_id (User.id user) ;;
     match session with
     | None => raise (HTTPException 404 "Session not found")
     | Some session =>
         message_count <- gets (count_messages (Session.id session)) ;;
         SessionResponse_init (session_response_kw session message_count)
     end)
    (λ e, if is_HTTPException e then raise e
          else raise (HTTPException 500 ("Failed to get session: " +:+ str e))).

(** DELETE /v1/sessions/{session_id}: [db.delete(session)] removes the
    row and, by the cascade of [Session.messages], its messages. The
    [db.rollback()] of the handler discards nothing, a failed commit
    having written nothing. *)
Definition delete_session (session_id user_id client_ip : string) : M string :=
  try_except
    (user <- get_or_create_user (Some user_id) ;;
     session <- get_session_by_id session_id (User.id user) ;;
     match session with
     | None => raise (HTTPException 404 "Session not found")
     | Some session =>
         db_commit (λ _, None)
           (λ w, set_messages
                   (filter (λ m, Message.session_id m ≠ Session.id session))
                   (set_sessions
                      (filter (λ s, Session.id s ≠ Session.id session)) w)) ;;
         ret "Session deleted successfully"
     end)
    (λ e, if is_HTTPException e then raise e
          else raise (HTTPException 500 ("Failed to delete session: " +:+ str e))).

(** GET /v1/sessions/{session_id}/messages *)
Definition get_session_messages (session_id user_id client_ip : string)
    : M (list MessageResponse.t) :=
  try_except
    (user <- get_or_create_user (Some user_id) ;;
     session <- get_session_by_id session_id (User.id user) ;;
     match session with
     | None => raise (HTTPException 404 "Session not found")
     | Some session =>
         rows <- gets (λ w,
           merge_sort created_asc
             (filter (λ m, Message.session_id m = Session.id session) (messages w))) ;;
         ret (message_response <$> rows)
     end)
    (λ e, if is_HTTPException e then raise e
          else raise (HTTPException 500 ("Failed to get messages: " +:+ str e))).

End Gateway.

(** * Vocabulary of the statements *)

(** ** What a run adds to the world *)

(** The rows, audit facts and backend payloads a run appends. *)
Record Delta := mkDelta {
  d_users : list User.t;
  d_sessions : list Session.t;
  d_messages : list Message.t;
  d_request_logs : list RequestLog.t;
  d_access_log : list AuditFact.t;
  d_vllm_calls : list (gmap string PyVal) }.

Definition d_empty : Delta := mkDelta [] [] [] [] [] [].

Definition d_app (a b : Delta) : Delta :=
  mkDelta (d_users a ++ d_users b) (d_sessions a ++ d_sessions b)
          (d_messages a ++ d_messages b) (d_request_logs a ++ d_request_logs b)
          (d_access_log a ++ d_access_log b) (d_vllm_calls a ++ d_vllm_calls b).

Definition d_session (s : Session.t) : Delta := mkDelta [] [s] [] [] [] [].
Definition d_message (m : Message.t) : Delta := mkDelta [] [] [m] [] [] [].
Definition d_request_log (l : RequestLog.t) : Delta := mkDelta [] [] [] [l] [] [].
Definition d_facts (fs : list AuditFact.t) : Delta := mkDelta [] [] [] [] fs [].
Definition d_call (p : gmap string PyVal) : Delta := mkDelta [] [] [] [] [] [p].

(** [w'] is [w] with [d] appended (the effect counter apart). *)
Definition grows (w w' : World) (d : Delta) : Prop :=
  users w' = users w ++ d_users d ∧
  sessions w' = sessions w ++ d_sessions d ∧
  messages w' = messages w ++ d_messages d ∧
  request_logs w' = request_logs w ++ d_request_logs d ∧
  access_log w' = access_log w ++ d_access_log d ∧
  vllm_calls w' = vllm_calls w ++ d_vllm_calls d.

(** [w'] is [w] but for the [updated_at] of some sessions. *)
Definition touched (w w' : World) : Prop :=
  users w' = users w ∧
  Session.id <$> sessions w' = Session.id <$> sessions w ∧
  messages w' = messages w ∧
  request_logs w' = request_logs w ∧
  access_log w' = access_log w ∧
  vllm_calls w' = vllm_calls w.

(** The messages of a session, in insertion order. *)
Definition messages_of (session_id : string) (w : World) : list Message.t :=
  filter (λ m, Message.session_id m = session_id) (messages w).

(** Primary keys are unique. *)
Definition pk_unique (w : World) : Prop :=
  NoDup (User.id <$> users w) ∧ NoDup (Session.id <$> sessions w).

(** Every message belongs to a session of the table. *)
Definition messages_owned (w : World) : Prop :=
  ∀ m, m ∈ messages w → Message.session_id m ∈ Session.id <$> sessions w.

Definition consistent (w : World) : Prop := pk_unique w ∧ messages_owned w.

(** The uuids still to be drawn collide with no row of the store. *)
Definition fresh_supply (env : Env) (w : World) : Prop :=
  ∀ k, (ticks w ≤ k)%nat →
    (uuid_at env k ∉ Session.id <$> sessions w) ∧
    (uuid_at env k ∉ Message.id <$> messages w) ∧
    (uuid_at env k ∉ RequestLog.id <$> request_logs w).

(** A store on which a request of [user] can be served: the user has
    its row, keys are unique, the uuids to come are fresh. *)
Definition ready (env : Env) (user : User.t) (w : World) : Prop :=
  user ∈ users w ∧ pk_unique w ∧ fresh_supply env w.

(** On every ready store [m] returns, a value that satisfies [Q], and
    leaves the store ready. *)
Definition returns {A} (env : Env) (user : User.t) (Q : A → Prop) (m : M A) : Prop :=
  ∀ w, ready env user w → ∃ a w', m w = (Return a, w') ∧ Q a ∧ ready env user w'.

(** [w'] has the users, sessions and messages of [w]. *)
Definition same_tables (w w' : World) : Prop :=
  users w' = users w ∧ sessions w' = sessions w ∧ messages w' = messages w.

(** The fact [log_request] writes in world [w], if logging is on. *)
Definition audit_facts (env : Env) (w : World) (ip endpoint status : string)
    (details : option (gmap string PyVal)) : list AuditFact.t :=
  if LOG_REQUESTS env
  then [AuditFact.mk (isoformat env (clock_at env (ticks w))) ip endpoint status
                     (default ∅ details)]
  else [].

(** The content of the request's last message when its role is
    [user]: what block 3 persists. *)
Definition inbound_content (chat_request : ChatRequest.t) : option string :=
  match last (ChatRequest.messages chat_request) with
  | Some last_message =>
      if String.eqb (ChatMessage.role last_message) "user"
      then Some (ChatMessage.content last_message) else None
  | None => None
  end.

(** The content of the first choice of the backend's body: what
    block 5 persists. *)
Definition reply_content (response_data : ResponseData.t) : option string :=
  match ResponseData.choices response_data with
  | Some (assistant_content :: _) => Some assistant_content
  | Some [] | None => None
  end.

(** What block 4 makes of the backend's answer. *)
Definition forward_result (answer : Exc + HttpResponse.t) : Res ResponseData.t :=
  match answer with
  | inl e => Raise e
  | inr response =>
      if negb (Z.eqb (HttpResponse.status_code response) 200)
      then Raise (HTTPException (HttpResponse.status_code response)
                                ("vLLM error: " +:+ HttpResponse.text response))
      else match HttpResponse.json response with
           | Some data => Return data
           | None => Raise (JSONDecodeError "Expecting value")
           end
  end.

(** [ms] is the one message of [role] and [content] stored for the
    session, or nothing when there is no content to store. *)
Definition turn (role session_id : string) (content : option string)
    (ms : list Message.t) : Prop :=
  match content with
  | Some c => ∃ m, ms = [m] ∧ Message.session_id m = session_id ∧
                   Message.role m = role ∧ Message.content m = c
  | None => ms = []
  end.

(** ** A concrete environment, for worked runs *)

(** One shared secret, no origin list, logging on; the n-th uuid is
    "uuid-n", the clock advances by a second per reading; the backend
    gives [answer] to every request. *)
Definition demo_env (answer : Exc + HttpResponse.t) (fault : nat → option string) : Env :=
  mkEnv "secret" [] true (λ n, "uuid-" +:+ pretty n) (λ n, 1000 * Z.of_nat n)
        pretty pretty (λ _ _, None) fault (λ _ _, answer).

Definition no_fault : nat → option string := λ _, None.

(** The engine refuses the commit at effect 23: in the run below, the
    commit of the RequestLog row. *)
Definition locked_at_audit : nat → option string :=
  λ n, if Nat.eqb n 23 then Some "database is locked" else None.

(** The world after [init_database] on an empty store: the default
    user, under the identifier "uuid-0". *)
Definition startup_world (env : Env) : World := (create_default_user env empty_world).2.

Definition demo_request (messages : list ChatMessage.t) (max_tokens : option Z)
    : ChatRequest.t :=
  ChatRequest.mk (Some "qwen2.5-7b") messages None (Some "uuid-0") (Some (7 # 10)%Q)
                 max_tokens (Some false).

Definition hi : list ChatMessage.t := [ChatMessage.mk "user" "hi"].

Definition hello : HttpResponse.t :=
  HttpResponse.mk 200 ""
    (Some (ResponseData.mk (Some ["hello"]) (Some (Usage.mk (Some 1) (Some 5)))
                           (Some "qwen2.5-7b") None None)).

Definition boom : HttpResponse.t := HttpResponse.mk 500 "boom" None.

(** Two users with a row each, and a session of the first. *)
Definition alice : User.t := User.mk "alice" (Some "alice") None None true 0 0.
Definition bob : User.t := User.mk "bob" (Some "bob") None None true 0 0.
Definition alice_session : Session.t :=
  Session.mk "s-1" "alice" (Some "notes") (Some "qwen2.5-7b") None true 0 0.
Definition two_users_world : World :=
  mkWorld [alice; bob] [alice_session] [] [] [] [] 0.

(** * The endpoints beside the conversation store *)

(** ** What they read from outside *)

(** A parsed JSON body, as [response.json()] returns it. *)
#[warnings="-register-all"] Inductive Json :=
| JNull
| JBool (b : bool)
| JInt (z : Z)
| JFloat (q : Q)
| JStr (s : string)
| JList (l : list Json)
| JDict (l : list (string * Json)).

Module GetResponse.
  (** The answer to a GET; [json] is [None] when the body is not JSON. *)
Record t := mk {
    status_code : Z;
    json : option Json }.
End GetResponse.

(** What [open('/app/logs/access.log')] and the loop over its lines
    come to: the lines, FileNotFoundError, or another exception (with
    its [str]). *)
Inductive FileRead :=
| FileLines (lines : list string)
| FileNotFound
| FileFailure (msg : string).

Record Outside := mkOutside {
  (** [client.get(VLLM_URL + path)]: the response, or the exception
      httpx raises. *)
  vllm_get : nat → string → Exc + GetResponse.t;
  (** [strftime('%Y-%m-%d')] *)
  strftime_day : datetime → string;
  read_access_log : nat → FileRead }.

(** ** String helpers *)

(** [needle in s] *)
Fixpoint str_in (needle s : string) : bool :=
  if String.prefix needle s then true
  else match s with
       | EmptyString => false
       | String _ s' => str_in needle s'
       end.

(** The double quote. *)
Definition dquote : string := String (Ascii.ascii_of_nat 34) EmptyString.

(** The text ["status": "<status>"], as [json.dumps] writes the pair. *)
Definition status_marker (status : string) : string :=
  dquote +:+ "status" +:+ dquote +:+ ": " +:+ dquote +:+ status +:+ dquote.

(** [stats[key] += 1] on a [defaultdict(int)] *)
Definition bump (key : string) (stats : gmap string Z) : gmap string Z :=
  <[key := default 0 (stats !! key) + 1]> stats.

(** [sum(stats.values())] *)
Definition sum_values (stats : gmap string Z) : Z :=
  map_fold (λ _ v acc, v + acc) 0 stats.

(** ** Replies *)

Module Health.
Record t := mk {
    status : string;
    vllm_status : string;
    timestamp : string }.
End Health.

(** The two dictionaries [get_stats] returns. *)
Inductive StatsReply :=
| Stats (date : string) (stats : gmap string Z) (total_requests : Z)
| StatsError (error : string).

Section Service.
Context (env : Env) (out : Outside).

(** [await client.get(VLLM_URL + path, timeout=...)] *)
Definition httpx_get (path : string) : M GetResponse.t :=
  n <- tick ;;
  match vllm_get out n path with
  | inl e => raise e
  | inr response => ret response
  end.

(** [response.json()] *)
Definition get_response_json (response : GetResponse.t) : M Json :=
  match GetResponse.json response with
  | Some body => ret body
  | None => raise (JSONDecodeError "Expecting value")
  end.

(** GET /health *)
Definition health_check : M Health.t :=
  vllm_status <-
    try_except
      (response <- httpx_get "/health" ;;
       ret (if Z.eqb (GetResponse.status_code response) 200
            then "healthy" else "unhealthy"))
      (λ _, ret "unhealthy") ;;
  now <- datetime_now env ;;
  ret (Health.mk "healthy" vllm_status (isoformat env now)).

(** GET /v1/models *)
Definition list_models (client_ip : string) : M Json :=
  log_request env client_ip "/v1/models" "SUCCESS" None ;;
  try_except
    (response <- httpx_get "/v1/models" ;;
     get_response_json response)
    (λ e, log_request env client_ip "/v1/models" "ERROR"
                      (Some (dict [("error", VStr (str e))])) ;;
          raise (HTTPException 500 "Failed to get models")).

(** The body of the loop of [get_stats]. *)
Definition tally_line (today line : string) (stats : gmap string Z) : gmap string Z :=
  if str_in today line && str_in "REQUEST:" line then
    if str_in (status_marker "SUCCESS") line then bump "successful_requests" stats
    else if str_in (status_marker "ERROR") line then bump "failed_requests" stats
    else if str_in (status_marker "AUTH_FAILED") line then bump "auth_failures" stats
    else stats
  else stats.

(** GET /stats *)
Definition get_stats (client_ip : string) : M StatsReply :=
  now <- datetime_now env ;;
  let today := strftime_day out now in
  n <- tick ;;
  match read_access_log out n with
  | FileFailure msg => ret (StatsError msg)
  | FileNotFound => ret (Stats today ∅ (sum_values ∅))
  | FileLines lines =>
      let stats := foldl (λ stats line, tally_line today line stats) ∅ lines in
      ret (Stats today stats (sum_values stats))
  end.

(** ** Routes

    A route declared with [client_ip: str = Depends(verify_token)] runs
    the guard first and the handler on what the guard returns; a guard
    that raises ends the request. [path] is [request.url.path]. *)
Definition guarded {A} (client_ip path credentials : string) (handler : string → M A)
    : M A :=
  client_ip <- verify_token env client_ip path credentials ;;
  handler client_ip.

(** The guarded routes of index.py, each the guard followed by its
    handler. *)
Definition GET_models (client_ip path credentials : string) : M Json :=
  guarded client_ip path credentials list_models.

Definition POST_chat_completions (client_ip path credentials : string)
    (user_agent : option string) (chat_request : ChatRequest.t) : M ResponseData.t :=
  guarded client_ip path credentials (chat_completions env user_agent chat_request).

Definition POST_sessions (client_ip path credentials : string)
    (session_data : SessionCreate.t) : M SessionResponse.t :=
  guarded client_ip path credentials (create_session env session_data).

Definition GET_sessions (client_ip path credentials user_id : string)
    : M (list SessionResponse.t) :=
  guarded client_ip path credentials (list_sessions env user_id).

Definition GET_session (client_ip path credentials session_id user_id : string)
    : M SessionResponse.t :=
  guarded client_ip path credentials (get_session env session_id user_id).

Definition DELETE_session (client_ip path credentials session_id user_id : string)
    : M string :=
  guarded client_ip path credentials (delete_session env session_id user_id).

Definition GET_session_messages (client_ip path credentials session_id user_id : string)
    : M (list MessageResponse.t) :=
  guarded client_ip path credentials (get_session_messages env session_id user_id).

Definition GET_stats (client_ip path credentials : string) : M StatsReply :=
  guarded client_ip path credentials get_stats.

End Service.

(** ** Vocabulary for the statistics *)

(** The lines of [lines] on which [p] holds, counted. *)
Definition count_lines (p : string → bool) (lines : list string) : Z :=
  Z.of_nat (length (filter (λ line, p line = true) lines)).

(** The counter a line goes to, if any. *)
Definition counted_as (today line : string) : option string :=
  if str_in today line && str_in "REQUEST:" line then
    if str_in (status_marker "SUCCESS") line then Some "successful_requests"
    else if str_in (status_marker "ERROR") line then Some "failed_requests"
    else if str_in (status_marker "AUTH_FAILED") line then Some "auth_failures"
    else None
  else None.

(** ** Vocabulary for the audit trail *)

(** [facts] is what one [log_request] of [status] for the chat
    endpoint writes: one fact when logging is on, none when it is
    off. *)
Definition logged (env : Env) (status ip : string) (facts : list AuditFact.t) : Prop :=
  AuditFact.status <$> facts = (if LOG_REQUESTS env then [status] else []) ∧
  ∀ fact, fact ∈ facts →
    AuditFact.ip fact = ip ∧ AuditFact.endpoint fact = completions_path.

(** ** More of the concrete world, for worked runs *)

(** A line of the log file, as the logging format and [json.dumps]
    write it (the other keys of the fact left out). *)
Definition log_line (day status : string) : string :=
  day +:+ " 10:00:00,000 - INFO - REQUEST: {" +:+ status_marker status +:+ "}".

Definition sample_log : list string :=
  [ log_line "2026-11-04" "START"; log_line "2026-11-04" "SUCCESS";
    log_line "2026-11-03" "SUCCESS"; log_line "2026-11-04" "AUTH_FAILED";
    log_line "2026-11-04" "IP_BLOCKED"; log_line "2026-11-04" "ERROR";
    "2026-11-04 10:00:01,000 - INFO - startup complete" ].

(** The backend answers no GET; the day is 2026-11-04; the log file
    holds [sample_log]. *)
Definition demo_outside : Outside :=
  mkOutside (λ _ _, inl (RequestError "connection refused")) (λ _, "2026-11-04")
            (λ _, FileLines sample_log).

(** A request of [user_id] that names [session_id]. *)
Definition named_request (user_id : string) (session_id : option string) : ChatRequest.t :=
  ChatRequest.mk (Some "qwen2.5-7b") hi session_id (Some user_id) (Some (7 # 10)%Q)
                 None (Some false).

(** Two conversations under way, and a request log row of the first. *)
Definition bob_session : Session.t :=
  Session.mk "s-2" "bob" (Some "plans") (Some "qwen2.5-7b") None true 0 0.

Definition talk_world : World :=
  mkWorld [alice; bob] [alice_session; bob_session]
          [Message.mk "m-1" "s-1" "user" "hi" 0 10;
           Message.mk "m-2" "s-2" "user" "good morning" 0 20;
           Message.mk "m-3" "s-1" "assistant" "hello" 1 30]
          [RequestLog.mk "r-1" (Some "alice") (Some "s-1") "/v1/chat/completions" "POST"
                         (Some "10.0.0.7") None None (Some 200) (Some 20) 30]
          [] [] 0.

(** ** Tactics *)

Ltac unfold_run :=
  unfold uuid4, datetime_now, time_time, db_commit, scalar_one_or_none, bind, tick, gets,
    ret, modify, raise; simpl.

Ltac solve_grows :=
  unfold grows; simpl; split_and!; first [reflexivity | by rewrite app_nil_r].

Ltac grows_chain :=
  unfold grows in *; simpl in *; destruct_and?; split_and?;
  repeat match goal with
         | H : ?f ?w1 = ?f ?w0 ++ _ |- _ => rewrite H; clear H
         end;
  rewrite ?app_nil_r, <- ?app_assoc; try done.

(** * Properties *)

Section Properties.
Context (env : Env).

(** ** The monad *)

Lemma bind_inv {A B} (m : M A) (k : A → M B) w r w' :
  bind m k w = (r, w') →
  (∃ a w1, m w = (Return a, w1) ∧ k a w1 = (r, w')) ∨
  (∃ e, m w = (Raise e, w') ∧ r = Raise e).
Proof.
  unfold bind. destruct (m w) as [[e|a] w1]; intros H.
  - right. exists e. by inversion H.
  - left. by exists a, w1.
Qed.

Lemma bind_ret_l {A B} (a : A) (k : A → M B) : bind (ret a) k = k a.
Proof. reflexivity. Qed.

Lemma try_except_inv {A} (m : M A) (h : Exc → M A) w r w' :
  try_except m h w = (r, w') →
  (∃ a, m w = (Return a, w') ∧ r = Return a) ∨
  (∃ e w1, m w = (Raise e, w1) ∧ h e w1 = (r, w')).
Proof.
  unfold try_except. destruct (m w) as [[e|a] w1]; intros H.
  - right. by exists e, w1.
  - left. exists a. by inversion H.
Qed.

Lemma grows_refl w : grows w w d_empty.
Proof. unfold grows; simpl. by rewrite !app_nil_r. Qed.

Lemma grows_ticks w n : grows w (set_ticks (λ _, n) w) d_empty.
Proof. unfold grows; simpl. by rewrite !app_nil_r. Qed.

Lemma grows_trans w w1 w2 d1 d2 :
  grows w w1 d1 → grows w1 w2 d2 → grows w w2 (d_app d1 d2).
Proof.
  unfold grows; simpl. intros (?&?&?&?&?&?) (->&->&->&->&->&->).
  rewrite !app_assoc. by repeat split; f_equal.
Qed.

Lemma d_app_empty_l d : d_app d_empty d = d.
Proof. by destruct d. Qed.

Lemma d_app_empty_r d : d_app d d_empty = d.
Proof. destruct d. unfold d_app; simpl. by rewrite !app_nil_r. Qed.

Lemma touched_refl w : touched w w.
Proof. by repeat split. Qed.

(** ** Effects and database helpers, one by one *)

Lemma log_request_run ip endpoint status details w :
  ∃ w', log_request env ip endpoint status details w = (Return tt, w') ∧
        grows w w' (d_facts (audit_facts env w ip endpoint status details)).
Proof.
  unfold log_request, audit_facts. destruct (LOG_REQUESTS env).
  - eexists. split; [reflexivity|]. solve_grows.
  - exists w. split; [reflexivity|]. solve_grows.
Qed.

Lemma httpx_post_run payload w :
  ∃ w', httpx_post env payload w =
          (match vllm_post env (ticks w) payload with
           | inl e => Raise e
           | inr response => Return response
           end, w') ∧
        grows w w' (d_call payload).
Proof.
  unfold httpx_post. unfold_run.
  destruct (vllm_post env (ticks w) payload); eexists; (split; [reflexivity|solve_grows]).
Qed.

Lemma get_or_create_user_inv user_id w r w' :
  get_or_create_user env user_id w = (r, w') →
  (∃ user, r = Return user ∧ user ∈ users w ∧ Some (User.id user) = user_id ∧ w' = w) ∨
  (∃ e, r = Raise e ∧ is_HTTPException e = false ∧ grows w w' d_empty).
Proof.
  unfold get_or_create_user, db_add_User, users_violation. unfold_run.
  destruct (filter _ (users w)) as [|user [|]] eqn:Hrows.
  - intros H. right.
    destruct user_id; simpl in H; injection H as <- <-;
      (eexists; split_and!; [done..|solve_grows]).
  - intros [= <- <-]. left. exists user.
    assert (user ∈ filter (λ u, Some (User.id u) = user_id) (users w)) as Hin
      by (rewrite Hrows; set_solver).
    apply list_elem_of_filter in Hin as [? ?]. done.
  - intros [= <- <-]. right. eexists. split_and!; [done..|apply grows_refl].
Qed.

Lemma get_session_by_id_inv session_id user_id w r w' :
  get_session_by_id session_id user_id w = (r, w') →
  w' = w ∧
  ((r = Return None ∧
    ∀ s, s ∈ sessions w → ¬ (Session.id s = session_id ∧ Session.user_id s = user_id)) ∨
   (∃ s, r = Return (Some s) ∧ s ∈ sessions w ∧
         Session.id s = session_id ∧ Session.user_id s = user_id) ∨
   (∃ e, r = Raise e ∧ is_HTTPException e = false)).
Proof.
  unfold get_session_by_id. unfold_run.
  destruct (filter _ (sessions w)) as [|s [|]] eqn:Hrows; intros [= <- <-]; split; try done.
  - left. split; [done|]. intros s Hs Hm.
    assert (s ∈ filter (λ s, Session.id s = session_id ∧ Session.user_id s = user_id)
                       (sessions w)) as Hin by (apply list_elem_of_filter; done).
    rewrite Hrows in Hin. set_solver.
  - right; left. exists s.
    assert (s ∈ filter (λ s, Session.id s = session_id ∧ Session.user_id s = user_id)
                       (sessions w)) as Hin by (rewrite Hrows; set_solver).
    apply list_elem_of_filter in Hin as [[? ?] ?]. done.
  - right; right. by eexists.
Qed.

Lemma create_new_session_inv user_id model_name title w r w' :
  create_new_session env user_id model_name title w = (r, w') →
  (∃ s, r = Return s ∧ grows w w' (d_session s) ∧
        (Session.id s ∉ Session.id <$> sessions w) ∧
        Session.user_id s = user_id ∧
        Session.model_name s = Some (default "qwen2.5-7b" model_name) ∧
        match truthy_str title with
        | true => Session.title s = title
        | false => ∃ now, Session.title s = Some (default_title env now)
        end) ∨
  (∃ e, r = Raise e ∧ is_HTTPException e = false ∧ grows w w' d_empty).
Proof.
  unfold create_new_session, db_add_Session, sessions_violation. unfold_run.
  destruct (truthy_str title) eqn:Ht; simpl;
    (case_bool_decide; simpl;
     [ intros [= <- <-]; right; eexists; split_and!; [done..|solve_grows]
     | destruct (commit_fault env _); intros [= <- <-];
       [ right; eexists; split_and!; [done..|solve_grows]
       | left; eexists; split_and!; [done|solve_grows|done..|] ] ]).
  - done.
  - by eexists.
Qed.

Lemma store_message_inv session_id role content token_count w r w' :
  store_message env session_id role content token_count w = (r, w') →
  (∃ m, r = Return m ∧ grows w w' (d_message m) ∧
        (Message.id m ∉ Message.id <$> messages w) ∧
        Message.session_id m = session_id ∧ Message.role m = role ∧
        Message.content m = content ∧
        Message.token_count m = default 0 token_count) ∨
  (∃ e, r = Raise e ∧ is_HTTPException e = false ∧ grows w w' d_empty).
Proof.
  unfold store_message, db_add_Message, messages_violation. unfold_run.
  case_bool_decide; simpl.
  - intros [= <- <-]. right. eexists. split_and!; [done..|solve_grows].
  - destruct (commit_fault env _); intros [= <- <-].
    + right. eexists. split_and!; [done..|solve_grows].
    + left. eexists. split_and!; [done|solve_grows|done..].
Qed.

Lemma update_session_timestamp_inv session_id w r w' :
  update_session_timestamp env session_id w = (r, w') →
  (r = Return tt ∧ touched w w') ∨
  (∃ e, r = Raise e ∧ is_HTTPException e = false ∧ grows w w' d_empty).
Proof.
  unfold update_session_timestamp. unfold_run.
  destruct (filter _ (sessions w)) as [|s [|]] eqn:Hrows.
  - intros [= <- <-]. left. split; [done|apply touched_refl].
  - destruct (commit_fault env _); intros [= <- <-].
    + right. eexists. split_and!; [done..|solve_grows].
    + left. split; [done|]. unfold touched; simpl. split_and!; try done.
      rewrite <- list_fmap_compose. apply list_fmap_ext. intros ? t ?; simpl.
      by case_bool_decide.
  - intros [= <- <-]. right. eexists. split_and!; [done..|apply grows_refl].
Qed.

Lemma log_request_to_db_inv user_id session_id endpoint method ip user_agent
    request_data response_status response_time_ms w r w' :
  log_request_to_db env user_id session_id endpoint method ip user_agent request_data
    response_status response_time_ms w = (r, w') →
  (∃ l, r = Return tt ∧ grows w w' (d_request_log l) ∧
        RequestLog.response_status l = Some response_status ∧
        RequestLog.session_id l = Some session_id ∧
        RequestLog.user_id l = Some user_id) ∨
  (∃ e, r = Raise e ∧ is_HTTPException e = false ∧ grows w w' d_empty).
Proof.
  unfold log_request_to_db, db_add_RequestLog, request_logs_violation. unfold_run.
  case_bool_decide; simpl.
  - intros [= <- <-]. right. eexists. split_and!; [done..|solve_grows].
  - destruct (commit_fault env _); intros [= <- <-].
    + right. eexists. split_and!; [done..|solve_grows].
    + left. eexists. split_and!; [done|solve_grows|done..].
Qed.

(** ** The blocks of the chat handler *)

Lemma chat_resolve_inv chat_request w r w' :
  chat_resolve env chat_request w = (r, w') →
  (∃ user session, r = Return (user, session) ∧
     user ∈ users w ∧ Some (User.id user) = ChatRequest.user_id chat_request ∧
     Session.user_id session = User.id user ∧
     ((grows w w' d_empty ∧ session ∈ sessions w) ∨
      (grows w w' (d_session session) ∧
       Session.id session ∉ (Session.id <$> sessions w)))) ∨
  (∃ e, r = Raise e ∧ is_HTTPException e = false ∧ grows w w' d_empty).
Proof.
  unfold chat_resolve. intros H.
  apply bind_inv in H as [(user & w1 & Hu & H)|(e & Hu & ->)].
  2: { apply get_or_create_user_inv in Hu as [(?&?&_)|(e'&[= <-]&?&?)]; [done|].
       right; eauto. }
  apply get_or_create_user_inv in Hu as [(u'&[= <-]&Hin&Hid&->)|(?&?&_)]; [|done].
  apply bind_inv in H as [(found & w2 & Hs & H)|(e & Hs & ->)].
  2: { destruct (truthy_str _); [|done].
       apply get_session_by_id_inv in Hs as [-> [(?&_)|[(?&?&_)|(?&[= <-]&?)]]]; try done.
       right. eexists. split_and!; [done..|apply grows_refl]. }
  assert (w2 = w ∧ ∀ s, found = Some s → s ∈ sessions w ∧ Session.user_id s = User.id user)
    as [-> Hfound].
  { destruct (truthy_str _).
    - apply get_session_by_id_inv in Hs as [-> [([= ->]&_)|[(s&[= ->]&?&?&?)|(?&?&_)]]]; try done.
      split; [done|]. by intros ? [= <-].
    - by injection Hs as <- <-. }
  apply bind_inv in H as [(session & w3 & Hc & H)|(e & Hc & ->)].
  - injection H as <- <-. left. exists user, session. split_and!; try done.
    + destruct found as [s|].
      * injection Hc as <- <-. by apply Hfound.
      * apply bind_inv in Hc as [(now & w4 & Hn & Hc)|(?&?&_)]; [|done].
        injection Hn as <- <-.
        apply create_new_session_inv in Hc as [(s&[= <-]&?&?&?&_)|(?&?&_)]; done.
    + destruct found as [s|].
      * injection Hc as <- <-. left. split; [apply grows_refl|by apply Hfound].
      * apply bind_inv in Hc as [(now & w4 & Hn & Hc)|(?&?&_)]; [|done].
        injection Hn as <- <-.
        apply create_new_session_inv in Hc as [(s&[= <-]&Hg&?&_)|(?&?&_)]; [|done].
        right. split; [|done].
        eapply grows_trans in Hg; [|apply (grows_ticks w)]. by rewrite d_app_empty_l in Hg.
  - right. destruct found as [s|]; [done|].
    apply bind_inv in Hc as [(now & w4 & Hn & Hc)|(?&?&_)]; [|done].
    injection Hn as <- <-.
    apply create_new_session_inv in Hc as [(s&?&_)|(e'&[= <-]&?&Hg)]; [done|].
    eexists. split_and!; [done..|].
    eapply grows_trans in Hg; [|apply (grows_ticks w)]. by rewrite d_app_empty_l in Hg.
Qed.

Lemma truthy_list_last {A} (l : list A) :
  truthy_list l = true → is_Some (last l).
Proof.
  destruct l as [|x l]; [done|]. intros _.
  destruct (last (x :: l)) eqn:E; [by eexists|].
  by apply last_None in E.
Qed.

Lemma chat_store_inbound_inv chat_request session w r w' :
  chat_store_inbound env chat_request session w = (r, w') →
  match inbound_content chat_request with
  | Some content =>
      (∃ m, r = Return (Some m) ∧ grows w w' (d_message m) ∧
            (Message.id m ∉ Message.id <$> messages w) ∧
            Message.session_id m = Session.id session ∧
            Message.role m = "user" ∧ Message.content m = content) ∨
      (∃ e, r = Raise e ∧ is_HTTPException e = false ∧ grows w w' d_empty)
  | None => r = Return None ∧ w' = w
  end.
Proof.
  unfold chat_store_inbound, inbound_content, getitem_last.
  destruct (truthy_list _) eqn:Hl.
  - apply truthy_list_last in Hl as [c ->]. rewrite bind_ret_l.
    destruct (String.eqb _ _); intros H.
    + apply bind_inv in H as [(m & w1 & Hm & H)|(e & Hm & ->)].
      * unfold ret in H. injection H as <- <-.
        apply store_message_inv in Hm as [(m'&[= <-]&?&?&?&?&?&_)|(?&?&_)]; [|done].
        left. by exists m.
      * apply store_message_inv in Hm as [(?&?&_)|(e'&[= <-]&?&?)]; [done|].
        right. by exists e.
    + by injection H as <- <-.
  - destruct (ChatRequest.messages chat_request); [|done].
    simpl. by intros [= <- <-].
Qed.

Lemma chat_store_reply_inv session response_data w r w' :
  chat_store_reply env session response_data w = (r, w') →
  match reply_content response_data with
  | Some content =>
      (∃ m, r = Return (Some m) ∧ grows w w' (d_message m) ∧
            (Message.id m ∉ Message.id <$> messages w) ∧
            Message.session_id m = Session.id session ∧
            Message.role m = "assistant" ∧ Message.content m = content ∧
            Message.token_count m =
              default 0 (Usage.completion_tokens (usage_of response_data))) ∨
      (∃ e, r = Raise e ∧ is_HTTPException e = false ∧ grows w w' d_empty)
  | None => r = Return None ∧ w' = w
  end.
Proof.
  unfold chat_store_reply, reply_content.
  destruct (ResponseData.choices response_data) as [[|c ?]|];
    [by intros [= <- <-]| |by intros [= <- <-]].
  intros H. apply bind_inv in H as [(m & w1 & Hm & H)|(e & Hm & ->)].
  - unfold ret in H. injection H as <- <-.
    apply store_message_inv in Hm as [(m'&[= <-]&?&?&?&?&?&?)|(?&?&_)]; [|done].
    left. by exists m.
  - apply store_message_inv in Hm as [(?&?&_)|(e'&[= <-]&?&?)]; [done|].
    right. by exists e.
Qed.

Lemma chat_forward_run chat_request client_ip user session w :
  ∃ n facts w',
    chat_forward env chat_request client_ip user session w =
      (forward_result (vllm_post env n (vllm_request_of chat_request)), w') ∧
    grows w w' (d_app (d_facts facts) (d_call (vllm_request_of chat_request))).
Proof.
  unfold chat_forward.
  match goal with |- context [log_request env ?a ?b ?c ?d] =>
    destruct (log_request_run a b c d w) as (w1 & Hl & Hg1) end.
  destruct (httpx_post_run (vllm_request_of chat_request) w1) as (w2 & Hp & Hg2).
  exists (ticks w1), (audit_facts env w client_ip completions_path "START"
    (Some (dict [("model", opt_val VStr (ChatRequest.model chat_request));
                 ("session_id", VStr (Session.id session));
                 ("user_id", VStr (User.id user));
                 ("messages_count",
                  VInt (Z.of_nat (length (ChatRequest.messages chat_request))))]))), w2.
  split; [|by eapply grows_trans].
  unfold bind at 1. rewrite Hl. unfold bind. rewrite Hp.
  unfold forward_result, response_json, raise, ret.
  destruct (vllm_post env _ _) as [e|response]; [done|].
  destruct (negb _); [done|]. by destruct (HttpResponse.json response).
Qed.

(** Blocks 1 to 6 in one statement: where the run stopped, what it
    returned or raised, and what it left in the world. *)
Lemma chat_exchange_inv chat_request client_ip w r w' :
  let payload := vllm_request_of chat_request in
  chat_exchange env chat_request client_ip w = (r, w') →
  ∃ created inbound,
    (created = [] ∨
     ∃ session, created = [session] ∧ Session.id session ∉ Session.id <$> sessions w) ∧
    (∀ m, m ∈ inbound →
          Message.role m = "user" ∧
          Message.session_id m ∈ Session.id <$> (sessions w ++ created)) ∧
    ((* stopped in blocks 1-3 *)
     (∃ e, r = Raise e ∧ is_HTTPException e = false ∧
           grows w w' (mkDelta [] created inbound [] [] []) ∧
           (chat_resolve env chat_request w = (Raise e, w') ∨
            is_Some (inbound_content chat_request))) ∨
     (* the backend was called *)
     (∃ n facts user session,
        user ∈ users w ∧
        Some (User.id user) = ChatRequest.user_id chat_request ∧
        Session.user_id session = User.id user ∧
        ((created = [] ∧ session ∈ sessions w) ∨
         (created = [session] ∧ Session.id session ∉ Session.id <$> sessions w)) ∧
        turn "user" (Session.id session) (inbound_content chat_request) inbound ∧
        match forward_result (vllm_post env n payload) with
        | Raise e =>
            r = Raise e ∧ grows w w' (mkDelta [] created inbound [] facts [payload])
        | Return response_data =>
            ∃ reply,
              (∀ m, m ∈ reply →
                    Message.role m = "assistant" ∧
                    Message.session_id m ∈ Session.id <$> (sessions w ++ created)) ∧
              ((* stopped in blocks 5-6 *)
               (∃ e, r = Raise e ∧ is_HTTPException e = false ∧
                     grows w w' (mkDelta [] created (inbound ++ reply) [] facts [payload])) ∨
               (* returned *)
               (∃ w1,
                  r = Return (user, session, response_data) ∧
                  grows w w1 (mkDelta [] created (inbound ++ reply) [] facts [payload]) ∧
                  touched w1 w' ∧
                  turn "assistant" (Session.id session) (reply_content response_data) reply))
        end)).
Proof.
  intros payload. unfold chat_exchange. intros H.
  (* blocks 1-2 *)
  apply bind_inv in H as [([user session] & w1 & Hres & H)|(e & Hres & ->)].
  2: { pose proof Hres as Hres'.
       apply chat_resolve_inv in Hres as [(?&?&?&_)|(e'&[= <-]&?&?)]; [done|].
       exists [], []. split_and!; [by left|set_solver|]. left. exists e.
       split_and!; [done..|by left]. }
  apply chat_resolve_inv in Hres as [(?&?&[= <- <-]&Huser&Huid&Hown&Hses)|(?&?&_)]; [|done].
  assert (∃ created,
            grows w w1 (mkDelta [] created [] [] [] []) ∧
            ((created = [] ∧ session ∈ sessions w) ∨
             (created = [session] ∧ Session.id session ∉ Session.id <$> sessions w)))
    as (created & Hg1 & Hcreated).
  { destruct Hses as [[? ?]|[? ?]].
    - exists []. split; [done|by left].
    - exists [session]. split; [done|by right]. }
  clear Hses. exists created.
  assert (created = [] ∨
          ∃ session, created = [session] ∧ Session.id session ∉ Session.id <$> sessions w)
    as Hlen.
  { destruct Hcreated as [[-> _]|[-> ?]]; [by left|right; by exists session]. }
  assert (Session.id session ∈ Session.id <$> (sessions w ++ created)) as Hsid.
  { rewrite fmap_app. apply elem_of_app.
    destruct Hcreated as [[_ ?]|[-> _]].
    - left. by apply list_elem_of_fmap_2.
    - right. simpl. apply elem_of_cons. by left. }
  (* block 3 *)
  apply bind_inv in H as [(user_message & w2 & Hin & H)|(e & Hin & ->)];
    apply chat_store_inbound_inv in Hin.
  2: { exists []. split_and!; [done|set_solver|]. left. exists e.
       destruct (inbound_content chat_request); [|by destruct Hin].
       destruct Hin as [(?&?&_)|(e'&[= <-]&?&Hg2)]; [done|].
       split_and!; [done..| |by right]. grows_chain. }
  assert (∃ inbound, grows w1 w2 (mkDelta [] [] inbound [] [] []) ∧
            turn "user" (Session.id session) (inbound_content chat_request) inbound)
    as (inbound & Hg2 & Hturn).
  { destruct (inbound_content chat_request) as [c|].
    - destruct Hin as [(m&_&?&?&?&?&?)|(?&?&_)]; [|done].
      exists [m]. split; [done|]. by exists m.
    - destruct Hin as [_ ->]. exists []. split; [apply grows_refl|done]. }
  clear Hin. exists inbound. split; [done|]. split.
  { intros m Hm. unfold turn in Hturn. destruct (inbound_content _).
    - destruct Hturn as (m'&->&Hs&?&?). apply list_elem_of_singleton in Hm as ->.
      by rewrite Hs.
    - subst. set_solver. }
  (* block 4 *)
  right.
  destruct (chat_forward_run chat_request client_ip user session w2)
    as (n & facts & w3 & Hf & Hg3).
  exists n, facts, user, session. unfold bind at 1 in H. rewrite Hf in H.
  fold payload in H, Hg3. split_and!; [done..|].
  destruct (forward_result _) as [e|response_data].
  { injection H as <- <-. split; [done|]. grows_chain. }
  (* block 5 *)
  apply bind_inv in H as [(assistant_message & w4 & Hrep & H)|(e & Hrep & ->)];
    apply chat_store_reply_inv in Hrep.
  2: { exists []. split; [set_solver|]. left. exists e.
       destruct (reply_content response_data); [|by destruct Hrep].
       destruct Hrep as [(?&?&_)|(e'&[= <-]&?&Hg4)]; [done|].
       split_and!; [done..|]. grows_chain. }
  assert (∃ reply, grows w3 w4 (mkDelta [] [] reply [] [] []) ∧
            turn "assistant" (Session.id session) (reply_content response_data) reply)
    as (reply & Hg4 & Hreply).
  { destruct (reply_content response_data) as [c|].
    - destruct Hrep as [(m&_&?&?&?&?&?&?)|(?&?&_)]; [|done].
      exists [m]. split; [done|]. by exists m.
    - destruct Hrep as [_ ->]. exists []. split; [apply grows_refl|done]. }
  clear Hrep. exists reply. split.
  { intros m Hm. unfold turn in Hreply. destruct (reply_content _).
    - destruct Hreply as (m'&->&Hs&?&?). apply list_elem_of_singleton in Hm as ->.
      by rewrite Hs.
    - subst. set_solver. }
  (* block 6 *)
  apply bind_inv in H as [([] & w5 & Htouch & H)|(e & Htouch & ->)];
    apply update_session_timestamp_inv in Htouch.
  - injection H as <- <-. right. exists w4.
    destruct Htouch as [[_ Htouched]|(?&?&_)]; [|done].
    split_and!; try done. grows_chain.
  - left. exists e. destruct Htouch as [[? _]|(e'&[= <-]&?&Hg5)]; [done|].
    split_and!; [done..|]. grows_chain.
Qed.

(** Blocks 7, 8 and the handlers of the [except] clauses. *)
Lemma chat_audit_inv user_agent chat_request client_ip start_time user session w r w' :
  chat_audit env user_agent chat_request client_ip start_time user session w = (r, w') →
  (∃ l, r = Return tt ∧ grows w w' (d_request_log l) ∧
        RequestLog.response_status l = Some 200 ∧
        RequestLog.session_id l = Some (Session.id session) ∧
        RequestLog.user_id l = Some (User.id user)) ∨
  (∃ e, r = Raise e ∧ is_HTTPException e = false ∧ grows w w' d_empty).
Proof.
  unfold chat_audit. intros H.
  apply bind_inv in H as [(now & w1 & Hn & H)|(?&?&_)]; [|done].
  injection Hn as <- <-.
  apply log_request_to_db_inv in H as [(l&?&Hg&?&?&?)|(e&?&?&Hg)].
  - left. exists l. split_and!; first [done|grows_chain].
  - right. exists e. split_and!; first [done|grows_chain].
Qed.

Lemma chat_respond_run client_ip start_time user session response_data w :
  ∃ facts w',
    chat_respond env client_ip start_time user session response_data w =
      (Return (ResponseData.annotate (Session.id session) (User.id user) response_data),
       w') ∧
    grows w w' (d_facts facts).
Proof.
  unfold chat_respond, log_request. unfold_run.
  destruct (LOG_REQUESTS env); eexists _, _; (split; [reflexivity|solve_grows]).
Qed.

Lemma chat_except_run client_ip start_time e w :
  ∃ facts w',
    chat_except env client_ip start_time e w =
      (Raise (if is_HTTPException e then e
              else HTTPException 500 ("Internal error: " +:+ str e)), w') ∧
    grows w w' (d_facts facts).
Proof.
  unfold chat_except. destruct (is_HTTPException e).
  - exists [], w. split; [done|apply grows_refl].
  - unfold log_request. unfold_run.
    destruct (LOG_REQUESTS env); eexists _, _; (split; [reflexivity|solve_grows]).
Qed.

(** The whole handler: the exchange runs after the reading of the
    clock; its outcome decides the rest. *)
Lemma chat_completions_inv user_agent chat_request client_ip w r w' :
  chat_completions env user_agent chat_request client_ip w = (r, w') →
  ∃ r0 w1,
    chat_exchange env chat_request client_ip (set_ticks S w) = (r0, w1) ∧
    match r0 with
    | Raise e =>
        r = Raise (if is_HTTPException e then e
                   else HTTPException 500 ("Internal error: " +:+ str e)) ∧
        ∃ facts, grows w1 w' (d_facts facts)
    | Return (user, session, response_data) =>
        ∃ facts,
          ((∃ l w2, chat_audit env user_agent chat_request client_ip
                                 (clock_at env (ticks w)) user session w1 = (Return tt, w2) ∧
                 r = Return (ResponseData.annotate (Session.id session) (User.id user)
                                                   response_data) ∧
                 RequestLog.response_status l = Some 200 ∧
                 grows w1 w' (mkDelta [] [] [] [l] facts [])) ∨
           (∃ e w2, chat_audit env user_agent chat_request client_ip
                               (clock_at env (ticks w)) user session w1 = (Raise e, w2) ∧
                    r = Raise (HTTPException 500 ("Internal error: " +:+ str e)) ∧
                    grows w1 w' (d_facts facts)))
    end.
Proof.
  intros H. change (try_except
    (chat_try env user_agent chat_request client_ip (clock_at env (ticks w)))
    (chat_except env client_ip (clock_at env (ticks w))) (set_ticks S w) = (r, w')) in H.
  set (start_time := clock_at env (ticks w)) in *.
  destruct (chat_exchange env chat_request client_ip (set_ticks S w))
    as [[e|[[user session] response_data]] w1] eqn:Hex;
    [exists (Raise e), w1|exists (Return (user, session, response_data)), w1];
    (split; [done|]).
  - unfold try_except, chat_try, bind in H. rewrite Hex in H.
    destruct (chat_except_run client_ip start_time e w1) as (facts & w2 & Hh & Hg).
    rewrite Hh in H. injection H as <- <-. split; [done|]. by exists facts.
  - unfold try_except, chat_try in H. unfold bind at 1 in H. rewrite Hex in H.
    destruct (chat_audit env user_agent chat_request client_ip start_time user session w1)
      as [ra w2] eqn:Ha.
    unfold bind in H. rewrite Ha in H. pose proof Ha as Ha'.
    apply chat_audit_inv in Ha as [(l&->&Hg&Hst&_)|(e&->&Hne&Hg)].
    + destruct (chat_respond_run client_ip start_time user session response_data w2)
        as (facts & w3 & Hr & Hg3).
      rewrite Hr in H. injection H as <- <-. exists facts.
      left. exists l, w2. split_and!; [done..|]. grows_chain.
    + destruct (chat_except_run client_ip start_time e w2) as (facts & w3 & Hh & Hg3).
      rewrite Hh, Hne in H. injection H as <- <-. exists facts.
      right. exists e, w2. split_and!; [done..|]. grows_chain.
Qed.

(** ** Messages of a session *)

Lemma messages_of_fresh sid w :
  messages_owned w → sid ∉ Session.id <$> sessions w → messages_of sid w = [].
Proof.
  intros Hown Hfresh. unfold messages_of.
  destruct (filter _ (messages w)) as [|m l] eqn:E; [done|].
  assert (m ∈ filter (λ m, Message.session_id m = sid) (messages w)) as Hin
    by (rewrite E; set_solver).
  apply list_elem_of_filter in Hin as [<- Hm]. by apply Hown in Hm.
Qed.

Lemma turn_said role sid content ms :
  turn role sid content ms →
  filter (λ m, Message.session_id m = sid) ms = ms ∧
  (λ m, (Message.role m, Message.content m)) <$> ms =
    match content with Some c => [(role, c)] | None => [] end.
Proof.
  unfold turn. destruct content as [c|].
  - intros (m & -> & Hs & Hr & Hc). split.
    + rewrite filter_cons_True; done.
    + simpl. by rewrite Hr, Hc.
  - by intros ->.
Qed.

Lemma inbound_content_user chat_request last_message :
  last (ChatRequest.messages chat_request) = Some last_message →
  ChatMessage.role last_message = "user" →
  inbound_content chat_request = Some (ChatMessage.content last_message).
Proof. unfold inbound_content. by intros -> ->. Qed.

Lemma inbound_content_other chat_request :
  (∀ last_message, last (ChatRequest.messages chat_request) = Some last_message →
                   ChatMessage.role last_message ≠ "user") →
  inbound_content chat_request = None.
Proof.
  unfold inbound_content. intros H.
  destruct (last _) as [c|]; [|done].
  destruct (String.eqb_spec (ChatMessage.role c) "user") as [Heq|]; [|done].
  by destruct (H c eq_refl).
Qed.

(** A run of the handler that returns: the exchange returned, the
    audit row was written, and the world is the old one plus the
    session (if created), the two turns and the row, some sessions
    touched. *)
Lemma chat_completions_returns user_agent chat_request client_ip w response_data w' :
  chat_completions env user_agent chat_request client_ip w = (Return response_data, w') →
  ∃ user session backend_data created inbound reply l,
    response_data =
      ResponseData.annotate (Session.id session) (User.id user) backend_data ∧
    user ∈ users w ∧
    Some (User.id user) = ChatRequest.user_id chat_request ∧
    Session.user_id session = User.id user ∧
    ((created = [] ∧ session ∈ sessions w) ∨
     (created = [session] ∧ Session.id session ∉ Session.id <$> sessions w)) ∧
    turn "user" (Session.id session) (inbound_content chat_request) inbound ∧
    turn "assistant" (Session.id session) (reply_content backend_data) reply ∧
    RequestLog.response_status l = Some 200 ∧
    users w' = users w ∧
    Session.id <$> sessions w' = Session.id <$> (sessions w ++ created) ∧
    messages w' = messages w ++ inbound ++ reply ∧
    request_logs w' = request_logs w ++ [l] ∧
    vllm_calls w' = vllm_calls w ++ [vllm_request_of chat_request].
Proof.
  intros H. apply chat_completions_inv in H as (r0 & w1 & Hex & H).
  destruct r0 as [e|[[user session] backend_data]]; [by destruct H|].
  destruct H as (facts & [(l & ? & _ & [= ->] & Hl & Hg)|(?&?&?&?&_)]); [|done].
  apply chat_exchange_inv in Hex
    as (created & inbound & _ & _ & [(?&?&_)|(n & facts' & u & s & Hu & Huid & Hown &
          Hcreated & Hin & Hex)]); [done|].
  destruct (forward_result _) as [?|data]; [by destruct Hex|].
  destruct Hex as (reply & _ & [(?&?&_)|(w0 & [= <- <- <-] & Hg0 & Htouched & Hrep)]);
    [done|].
  exists user, session, backend_data, created, inbound, reply, l.
  unfold touched, grows in *; simpl in *; destruct_and?. split_and!; try done.
  all: rewrite ?app_nil_r in *; congruence.
Qed.

(** C3: after a call that returns, on a session created by the call,
    the messages of the session are the caller's last message (role
    user) followed by the first choice of the backend (role assistant)
    when the last message has role user and the backend gave a choice;
    when the last message does not have role user, or the list is
    empty, they are the reply alone, if there is one. (A body without
    a choice leaves the user message alone.) *)
Theorem chat_completions_records_the_turn
    user_agent chat_request client_ip w response_data w' session_id :
  chat_completions env user_agent chat_request client_ip w = (Return response_data, w') →
  ResponseData.session_id response_data = Some session_id →
  session_id ∉ Session.id <$> sessions w →
  messages_owned w →
  let said := λ m, (Message.role m, Message.content m) in
  (∀ last_message reply rest,
     last (ChatRequest.messages chat_request) = Some last_message →
     ChatMessage.role last_message = "user" →
     ResponseData.choices response_data = Some (reply :: rest) →
     said <$> messages_of session_id w' =
       [("user", ChatMessage.content last_message); ("assistant", reply)]) ∧
  ((∀ last_message,
      last (ChatRequest.messages chat_request) = Some last_message →
      ChatMessage.role last_message ≠ "user") →
   said <$> messages_of session_id w' =
     match ResponseData.choices response_data with
     | Some (reply :: _) => [("assistant", reply)]
     | Some [] | None => []
     end) ∧
  (∀ last_message,
     last (ChatRequest.messages chat_request) = Some last_message →
     ChatMessage.role last_message = "user" →
     reply_content response_data = None →
     said <$> messages_of session_id w' = [("user", ChatMessage.content last_message)]).
Proof.
  intros H Hsid Hfresh Howned said.
  apply chat_completions_returns in H
    as (user & session & data & created & inbound & reply & l & -> & _ & _ & _ & _ &
        Hin & Hrep & _ & _ & _ & Hmsgs & _).
  injection Hsid as <-.
  assert (said <$> messages_of (Session.id session) w' =
            (said <$> inbound) ++ (said <$> reply)) as ->.
  { unfold messages_of. rewrite Hmsgs, !filter_app.
    fold (messages_of (Session.id session) w).
    rewrite (messages_of_fresh _ _ Howned Hfresh).
    apply turn_said in Hin as [-> _]. apply turn_said in Hrep as [-> _].
    simpl. by rewrite fmap_app. }
  unfold said. apply turn_said in Hin as [_ ->]. apply turn_said in Hrep as [_ ->].
  split_and!.
  - intros last_message r rest Hlast Hrole Hchoice.
    rewrite (inbound_content_user _ _ Hlast Hrole).
    simpl in Hchoice. unfold reply_content. by rewrite Hchoice.
  - intros Hother. rewrite (inbound_content_other _ Hother).
    simpl. unfold reply_content. by destruct (ResponseData.choices data) as [[|]|].
  - intros last_message Hlast Hrole Hnone.
    rewrite (inbound_content_user _ _ Hlast Hrole).
    unfold reply_content in *. simpl in Hnone. by rewrite Hnone.
Qed.

(** ** Failures *)

Lemma app_singleton_neq {A} (l : list A) (x : A) : l ≠ l ++ [x].
Proof.
  intros H. apply (f_equal length) in H. rewrite length_app in H. simpl in H. lia.
Qed.

(** C1, as the code has it: when the backend answers the forwarded
    request with a status other than 200 (so with any non-2xx status),
    the caller gets an HTTPException with the backend's status and
    "vLLM error: " followed by the backend's body; no RequestLog row is
    written, no session is touched, no assistant message is stored, and
    the user message of block 3 stays. *)
Theorem chat_backend_failure_surfaces
    user_agent chat_request client_ip response w r w' :
  (∀ n, vllm_post env n (vllm_request_of chat_request) = inr response) →
  HttpResponse.status_code response ≠ 200 →
  chat_completions env user_agent chat_request client_ip w = (r, w') →
  vllm_calls w' = vllm_calls w ++ [vllm_request_of chat_request] →
  r = Raise (HTTPException (HttpResponse.status_code response)
                           ("vLLM error: " +:+ HttpResponse.text response)) ∧
  request_logs w' = request_logs w ∧
  ∃ session created inbound,
    sessions w' = sessions w ++ created ∧
    messages w' = messages w ++ inbound ∧
    turn "user" (Session.id session) (inbound_content chat_request) inbound.
Proof.
  intros Hanswer Hstatus H Hcalled.
  apply chat_completions_inv in H as (r0 & w1 & Hex & H).
  apply chat_exchange_inv in Hex
    as (created & inbound & _ & _ & [(e & -> & _ & Hg & _)|(n & facts & user & session & _ & _ &
          _ & _ & Hin & Hex)]).
  - destruct H as (_ & facts & Hg').
    exfalso. apply (app_singleton_neq (vllm_calls w) (vllm_request_of chat_request)).
    rewrite <- Hcalled. unfold grows in *; simpl in *; destruct_and?.
    rewrite ?app_nil_r in *. congruence.
  - rewrite Hanswer in Hex. unfold forward_result in Hex.
    apply Z.eqb_neq in Hstatus. rewrite Hstatus in Hex. simpl in Hex.
    destruct Hex as [-> Hg]. destruct H as (-> & facts' & Hg'). simpl.
    split; [done|]. unfold grows in *; simpl in *; destruct_and?.
    rewrite ?app_nil_r in *. split; [congruence|].
    exists session, created, inbound. split_and!; [congruence..|done].
Qed.

(** C2, as the code has it: when the exchange with the backend has
    succeeded and the insert of the RequestLog row then fails, the
    failure is not swallowed: the caller gets HTTPException 500 with
    "Internal error: " and the text of the failure, instead of the
    completion. What the exchange stored stays; no row is written. *)
Theorem chat_audit_failure_surfaces
    user_agent chat_request client_ip w user session response_data w1 e w2 :
  chat_exchange env chat_request client_ip (set_ticks S w) =
    (Return (user, session, response_data), w1) →
  chat_audit env user_agent chat_request client_ip (clock_at env (ticks w))
             user session w1 = (Raise e, w2) →
  ∃ w', chat_completions env user_agent chat_request client_ip w =
          (Raise (HTTPException 500 ("Internal error: " +:+ str e)), w') ∧
        users w' = users w1 ∧ sessions w' = sessions w1 ∧
        messages w' = messages w1 ∧ request_logs w' = request_logs w.
Proof.
  intros Hex Haudit.
  destruct (chat_completions env user_agent chat_request client_ip w) as [r w'] eqn:H.
  exists w'. apply chat_completions_inv in H as (r0 & w1' & Hex' & H).
  rewrite Hex in Hex'. injection Hex' as <- <-.
  destruct H as (facts & [(l & w2' & Ha & _)|(e' & w2' & Ha & -> & Hg)]);
    rewrite Haudit in Ha; [done|]. injection Ha as <- <-.
  split; [done|].
  apply chat_exchange_inv in Hex
    as (created & inbound & _ & _ & [(?&?&_)|(n & facts' & u & s & _ & _ & _ & _ & _ & Hex)]);
    [done|].
  destruct (forward_result _) as [?|data]; [by destruct Hex|].
  destruct Hex as (reply & _ & [(?&?&_)|(w0 & _ & Hg0 & Htouched & _)]); [done|].
  unfold touched, grows in *; simpl in *; destruct_and?.
  rewrite ?app_nil_r in *. split_and!; congruence.
Qed.

(** ** The payload sent to the backend *)

Lemma vllm_request_of_max_tokens chat_request :
  vllm_request_of chat_request !! "max_tokens" =
    match ChatRequest.max_tokens chat_request with
    | Some n => if Z.eqb n 0 then None else Some (VInt n)
    | None => None
    end.
Proof.
  unfold vllm_request_of, truthy_int.
  destruct (ChatRequest.max_tokens chat_request) as [n|]; [|done].
  destruct (Z.eqb n 0); simpl; [done|]. by rewrite lookup_insert_eq.
Qed.

Lemma vllm_request_of_messages chat_request :
  vllm_request_of chat_request !! "messages" =
    Some (VMsgs (ChatRequest.messages chat_request)).
Proof.
  unfold vllm_request_of. destruct (truthy_int _); [|done].
  by rewrite lookup_insert_ne.
Qed.

(** A run sends the backend nothing, or the payload of the request. *)
Lemma chat_completions_calls user_agent chat_request client_ip w r w' :
  chat_completions env user_agent chat_request client_ip w = (r, w') →
  ∃ sent, vllm_calls w' = vllm_calls w ++ sent ∧
          (sent = [] ∨ sent = [vllm_request_of chat_request]).
Proof.
  intros H. apply chat_completions_inv in H as (r0 & w1 & Hex & H).
  assert (∃ d, grows w1 w' d ∧ d_vllm_calls d = []) as (d & Hg' & Hd).
  { destruct r0 as [e|[[user session] data]].
    - destruct H as (_ & facts & ?). by exists (d_facts facts).
    - destruct H as (facts & [(l & ? & _ & _ & _ & ?)|(? & ? & _ & _ & ?)]);
        by eexists. }
  apply chat_exchange_inv in Hex
    as (created & inbound & _ & _ & [(e & _ & _ & Hg & _)|(n & facts & user & session & _ & _ &
          _ & _ & _ & Hex)]).
  - exists []. split; [|by left].
    unfold grows in *; simpl in *; destruct_and?. rewrite ?Hd, ?app_nil_r in *. congruence.
  - exists [vllm_request_of chat_request]. split; [|by right].
    destruct (forward_result _) as [?|?].
    + destruct Hex as [_ Hg]. unfold grows in *; simpl in *; destruct_and?.
      rewrite ?Hd, ?app_nil_r in *. congruence.
    + destruct Hex as (reply & _ & [(? & _ & _ & Hg)|(w0 & _ & Hg & Ht & _)]);
        unfold touched, grows in *; simpl in *; destruct_and?;
        rewrite ?Hd, ?app_nil_r in *; congruence.
Qed.

(** C7, as the code has it: the payload a request sends to the backend
    has the key max_tokens exactly when the request's max_tokens is set
    and is not 0, and then with the request's value; an unset or zero
    max_tokens sends no such key. *)
Theorem chat_payload_max_tokens user_agent chat_request client_ip w :
  ∃ sent,
    vllm_calls (chat_completions env user_agent chat_request client_ip w).2 =
      vllm_calls w ++ sent ∧
    ∀ payload, payload ∈ sent →
      payload !! "max_tokens" =
        match ChatRequest.max_tokens chat_request with
        | Some n => if Z.eqb n 0 then None else Some (VInt n)
        | None => None
        end.
Proof.
  destruct (chat_completions env user_agent chat_request client_ip w) as [r w'] eqn:H.
  apply chat_completions_calls in H as (sent & Hsent & Hcases).
  exists sent. split; [done|]. intros payload Hin.
  destruct Hcases as [->| ->]; [set_solver|].
  apply list_elem_of_singleton in Hin as ->. apply vllm_request_of_max_tokens.
Qed.

(** C10: with an empty list of messages, block 3 returns without
    touching the list or the store, and a request whose user and
    session resolve goes on to the backend with the empty list; the
    only message the run can store is the reply. *)
Theorem chat_empty_messages user_agent chat_request client_ip w :
  ChatRequest.messages chat_request = [] →
  (∀ session w0,
     chat_store_inbound env chat_request session w0 = (Return None, w0)) ∧
  (∀ user session w1,
     chat_resolve env chat_request (set_ticks S w) = (Return (user, session), w1) →
     let w' := (chat_completions env user_agent chat_request client_ip w).2 in
     vllm_calls w' = vllm_calls w ++ [vllm_request_of chat_request] ∧
     vllm_request_of chat_request !! "messages" = Some (VMsgs []) ∧
     ∃ reply, messages w' = messages w ++ reply ∧
              ∀ m, m ∈ reply → Message.role m = "assistant").
Proof.
  intros Hempty. split.
  { intros session w0. unfold chat_store_inbound. by rewrite Hempty. }
  intros user session w1 Hres w'. subst w'.
  destruct (chat_completions env user_agent chat_request client_ip w) as [r w'] eqn:H.
  simpl. rewrite vllm_request_of_messages, Hempty.
  assert (inbound_content chat_request = None) as Hnone
    by (unfold inbound_content; by rewrite Hempty).
  apply chat_completions_inv in H as (r0 & w2 & Hex & H).
  assert (∃ d, grows w2 w' d ∧ d_vllm_calls d = [] ∧ d_messages d = [])
    as (d & Hg' & Hd & Hd').
  { destruct r0 as [e|[[u s] data]].
    - destruct H as (_ & facts & ?). by exists (d_facts facts).
    - destruct H as (facts & [(l & ? & _ & _ & _ & ?)|(? & ? & _ & _ & ?)]);
        by eexists. }
  apply chat_exchange_inv in Hex
    as (created & inbound & _ & _ & [(e & _ & _ & _ & [Hraise|Hsome])|(n & facts & u & s & _ &
          _ & _ & _ & Hin & Hex)]).
  - rewrite Hres in Hraise. done.
  - rewrite Hnone in Hsome. by destruct Hsome.
  - rewrite Hnone in Hin. simpl in Hin. subst inbound.
    destruct (forward_result _) as [?|data].
    + destruct Hex as [_ Hg]. split_and!; [|done|exists []; split; [|set_solver]];
        unfold grows in *; simpl in *; destruct_and?;
        rewrite ?Hd, ?Hd', ?app_nil_r in *; congruence.
    + destruct Hex as (reply & Hrole & [(? & _ & _ & Hg)|(w0 & _ & Hg & Ht & _)]);
        (split_and!; [|done|exists reply; split; [|intros m Hm; by apply Hrole]]);
        unfold touched, grows in *; simpl in *; destruct_and?;
        rewrite ?Hd, ?Hd', ?app_nil_r in *; congruence.
Qed.

(** ** Resolve-or-create *)

Lemma filter_nil_not {A} (P : A → Prop) `{∀ x, Decision (P x)} (l : list A) :
  (∀ x, x ∈ l → ¬ P x) → filter P l = [].
Proof.
  induction l as [|a l IH]; [done|]. intros Hn.
  rewrite filter_cons_False by (apply Hn; set_solver). apply IH. set_solver.
Qed.

Lemma filter_unique {A} (P : A → Prop) `{∀ x, Decision (P x)} (l : list A) x :
  x ∈ l → P x → (∀ y, y ∈ l → P y → y = x) → NoDup l → filter P l = [x].
Proof.
  induction l as [|a l IH]; [set_solver|].
  intros Hin HP Huniq Hnd. apply NoDup_cons in Hnd as [Ha Hnd].
  destruct (decide (P a)) as [Hpa|Hpa].
  - rewrite filter_cons_True by done.
    assert (a = x) as -> by (apply Huniq; [apply elem_of_cons; by left|done]).
    f_equal. apply filter_nil_not. intros y Hy HPy.
    assert (y = x) as -> by (apply Huniq; [apply elem_of_cons; by right|done]). done.
  - rewrite filter_cons_False by done. apply IH; [|done| |done].
    + apply elem_of_cons in Hin as [->|]; done.
    + intros y Hy. apply Huniq. apply elem_of_cons; by right.
Qed.

Lemma NoDup_fmap_eq {A B} (f : A → B) (l : list A) x y :
  NoDup (f <$> l) → x ∈ l → y ∈ l → f x = f y → x = y.
Proof.
  induction l as [|a l IH]; [set_solver|].
  rewrite fmap_cons, NoDup_cons. intros [Ha Hnd] Hx Hy Heq.
  apply elem_of_cons in Hx as [->|Hx]; apply elem_of_cons in Hy as [->|Hy]; try done.
  - destruct Ha. rewrite Heq. by apply list_elem_of_fmap_2.
  - destruct Ha. rewrite <- Heq. by apply list_elem_of_fmap_2.
  - by apply IH.
Qed.

(** An identifier without a row: the insert is refused, username
    being NOT NULL and [User(id=user_id)] giving none. *)
Lemma get_or_create_user_unseen user_id w :
  (∀ u, u ∈ users w → User.id u ≠ user_id) →
  ∃ w', get_or_create_user env (Some user_id) w =
          (Raise (IntegrityError "NOT NULL constraint failed: users.username"), w') ∧
        grows w w' d_empty.
Proof.
  intros Hunseen. unfold get_or_create_user, db_add_User, users_violation. unfold_run.
  rewrite filter_nil_not by (intros u Hu [= Heq]; by apply (Hunseen u)).
  simpl. eexists. split; [reflexivity|solve_grows].
Qed.

(** An identifier with a row: the row is returned, the world is as it
    was. *)
Lemma get_or_create_user_seen user w :
  NoDup (User.id <$> users w) → user ∈ users w →
  get_or_create_user env (Some (User.id user)) w = (Return user, w).
Proof.
  intros Hnd Hin. unfold get_or_create_user. unfold_run.
  rewrite (filter_unique _ _ user); try done.
  - intros y Hy [= Heq]. by eapply NoDup_fmap_eq.
  - by eapply NoDup_fmap_1.
Qed.

(** C4, at an identifier that has no row yet: the first call raises,
    the second raises again, and no row is inserted; nothing is
    returned, so no row is returned twice. *)
Theorem get_or_create_user_unseen_raises_twice :
  ∃ w1 w2,
    get_or_create_user env (Some "u1") empty_world =
      (Raise (IntegrityError "NOT NULL constraint failed: users.username"), w1) ∧
    get_or_create_user env (Some "u1") w1 =
      (Raise (IntegrityError "NOT NULL constraint failed: users.username"), w2) ∧
    users w2 = [].
Proof.
  destruct (get_or_create_user_unseen "u1" empty_world) as (w1 & H1 & Hg1);
    [set_solver|].
  assert (users w1 = []) as Hu1 by (by destruct Hg1 as [-> _]).
  destruct (get_or_create_user_unseen "u1" w1) as (w2 & H2 & Hg2);
    [rewrite Hu1; set_solver|].
  exists w1, w2. split_and!; [done..|].
  destruct Hg2 as [-> _]. by rewrite Hu1.
Qed.

(** ** The access guard *)

(** C6, as the code has it: a check that is refused (origin or
    credential) writes one audit fact, with the caller's address, the
    endpoint and the outcome, when request logging is on, and none
    when it is off; a check that passes writes none. *)
Theorem verify_token_audit client_ip path credentials w :
  ∃ facts,
    access_log (verify_token env client_ip path credentials w).2 = access_log w ++ facts ∧
    match (verify_token env client_ip path credentials w).1 with
    | Return ip => ip = client_ip ∧ facts = []
    | Raise e =>
        if LOG_REQUESTS env
        then ∃ fact, facts = [fact] ∧
               AuditFact.ip fact = client_ip ∧ AuditFact.endpoint fact = path ∧
               ((e = HTTPException 403 "IP not allowed" ∧
                 AuditFact.status fact = "IP_BLOCKED") ∨
                (e = HTTPException 401 "Invalid API key" ∧
                 AuditFact.status fact = "AUTH_FAILED"))
        else facts = []
    end.
Proof.
  unfold verify_token, log_request. unfold_run.
  destruct (check_ip_allowed env client_ip); simpl.
  - destruct (verify_api_key env credentials); simpl.
    + exists []. by rewrite app_nil_r.
    + destruct (LOG_REQUESTS env); simpl.
      * eexists. split; [reflexivity|]. eexists. split_and!; [done..|by right].
      * exists []. by rewrite app_nil_r.
  - destruct (LOG_REQUESTS env); simpl.
    + eexists. split; [reflexivity|]. eexists. split_and!; [done..|by left].
    + exists []. by rewrite app_nil_r.
Qed.

(** ** Session management *)

(** The store operation behind session creation: with a fresh uuid
    and no fault of the engine, the row is inserted for the user, with
    the model name given (or the default of the column) and the title
    given (or, absent or empty, the label made from the clock), and
    returned. *)
Lemma create_new_session_creates user_id model_name title w :
  uuid_at env (ticks w) ∉ Session.id <$> sessions w →
  (∀ n, commit_fault env n = None) →
  ∃ s w',
    create_new_session env user_id model_name title w = (Return s, w') ∧
    grows w w' (d_session s) ∧
    Session.user_id s = user_id ∧
    Session.model_name s = Some (default "qwen2.5-7b" model_name) ∧
    Session.title s =
      (if truthy_str title then title
       else Some (default_title env (clock_at env (S (ticks w))))).
Proof.
  intros Hfresh Hfault.
  unfold create_new_session, db_add_Session, sessions_violation. unfold_run.
  destruct (truthy_str title); simpl;
    rewrite bool_decide_eq_false_2 by done; simpl; rewrite Hfault;
    eexists _, _; (split; [reflexivity|]; split; [solve_grows|by split_and!]).
Qed.

(** C8, at the endpoint: POST /v1/sessions reads [session_data.model],
    an attribute SessionCreate does not have (its field is model_name);
    whatever the request, the call ends in HTTPException 500 and no
    session is inserted. *)
Theorem create_session_never_creates session_data client_ip w :
  ∃ detail,
    (create_session env session_data client_ip w).1 =
      Raise (HTTPException 500 ("Failed to create session: " +:+ detail)) ∧
    sessions (create_session env session_data client_ip w).2 = sessions w.
Proof.
  unfold create_session, try_except, bind, SessionCreate_getattr. simpl.
  destruct (get_or_create_user env (SessionCreate.user_id session_data) w)
    as [[e|user] w1] eqn:Hu; simpl.
  - exists (str e). split; [done|].
    apply get_or_create_user_inv in Hu as [(?&?&_)|(?&_&_&Hg)]; [done|].
    destruct Hg as (_ & -> & _). by rewrite app_nil_r.
  - exists "'SessionCreate' object has no attribute 'model'". split; [done|].
    by apply get_or_create_user_inv in Hu as [(?&_&_&_&->)|(?&?&_)].
Qed.

(** C9, at an identifier that has no row yet: every session endpoint
    calls resolve-or-create first, the insert is refused (username is
    NOT NULL), and the endpoint answers HTTPException 500 with the
    users table as it was; no User row appears. *)
Theorem session_endpoints_unseen_user session_data session_id user_id client_ip w :
  (∀ u, u ∈ users w → User.id u ≠ user_id) →
  SessionCreate.user_id session_data = Some user_id →
  let refused := "NOT NULL constraint failed: users.username" in
  (∃ w', create_session env session_data client_ip w =
           (Raise (HTTPException 500 ("Failed to create session: " +:+ refused)), w') ∧
         users w' = users w) ∧
  (∃ w', list_sessions env user_id client_ip w =
           (Raise (HTTPException 500 ("Failed to list sessions: " +:+ refused)), w') ∧
         users w' = users w) ∧
  (∃ w', get_session env session_id user_id client_ip w =
           (Raise (HTTPException 500 ("Failed to get session: " +:+ refused)), w') ∧
         users w' = users w) ∧
  (∃ w', delete_session env session_id user_id client_ip w =
           (Raise (HTTPException 500 ("Failed to delete session: " +:+ refused)), w') ∧
         users w' = users w) ∧
  (∃ w', get_session_messages env session_id user_id client_ip w =
           (Raise (HTTPException 500 ("Failed to get messages: " +:+ refused)), w') ∧
         users w' = users w).
Proof.
  intros Hunseen Hid refused.
  destruct (get_or_create_user_unseen user_id w Hunseen) as (w1 & Hu & Hg).
  assert (users w1 = users w) as Husers
    by (destruct Hg as (-> & _); by rewrite app_nil_r).
  unfold create_session, list_sessions, get_session, delete_session,
    get_session_messages, try_except.
  rewrite Hid. unfold bind. rewrite Hu. simpl.
  split_and!; by exists w1.
Qed.

Lemma get_session_by_id_other s user_id w :
  NoDup (Session.id <$> sessions w) → s ∈ sessions w → Session.user_id s ≠ user_id →
  get_session_by_id (Session.id s) user_id w = (Return None, w).
Proof.
  intros Hnd Hin Hother. unfold get_session_by_id. unfold_run.
  rewrite filter_nil_not; [done|].
  intros y Hy [Hid Hu]. apply Hother.
  by rewrite <- (NoDup_fmap_eq Session.id _ y s Hnd Hy Hin Hid).
Qed.

(** C5: a session of the table, looked up for another user than its
    owner, is not found; and when that other user has a row, the three
    endpoints that take a session identifier answer 404 "Session not
    found" and leave the world as it was. *)
Theorem session_lookup_scoped_to_owner s user client_ip w :
  pk_unique w →
  s ∈ sessions w →
  user ∈ users w →
  Session.user_id s ≠ User.id user →
  let not_found {A} : Res A * World :=
    (Raise (HTTPException 404 "Session not found"), w) in
  get_session_by_id (Session.id s) (User.id user) w = (Return None, w) ∧
  get_session env (Session.id s) (User.id user) client_ip w = not_found ∧
  delete_session env (Session.id s) (User.id user) client_ip w = not_found ∧
  get_session_messages env (Session.id s) (User.id user) client_ip w = not_found.
Proof.
  intros [Hnu Hns] Hs Hu Hother not_found.
  pose proof (get_session_by_id_other s (User.id user) w Hns Hs Hother) as Hlookup.
  pose proof (get_or_create_user_seen user w Hnu Hu) as Huser.
  split; [done|].
  unfold get_session, delete_session, get_session_messages, try_except, not_found, bind.
  rewrite Huser. cbv beta iota. by rewrite Hlookup.
Qed.

(** ** The store stays consistent *)

Lemma consistent_empty : consistent empty_world.
Proof.
  split; [split; simpl; constructor|]. intros m Hm. simpl in Hm. set_solver.
Qed.

Lemma consistent_extend w w' created new_messages :
  consistent w →
  users w' = users w →
  Session.id <$> sessions w' = Session.id <$> (sessions w ++ created) →
  (created = [] ∨
   ∃ session, created = [session] ∧ Session.id session ∉ Session.id <$> sessions w) →
  messages w' = messages w ++ new_messages →
  (∀ m, m ∈ new_messages →
        Message.session_id m ∈ Session.id <$> (sessions w ++ created)) →
  consistent w'.
Proof.
  intros [[Hnu Hns] Hown] Hu Hs Hcreated Hm Hnew. split; [split|].
  - by rewrite Hu.
  - rewrite Hs, fmap_app. destruct Hcreated as [->|(s & -> & Hfresh)]; simpl.
    + by rewrite app_nil_r.
    + apply NoDup_app. split_and!; [done| |apply NoDup_singleton].
      intros x Hx Hx'. apply list_elem_of_singleton in Hx' as ->. done.
  - intros m. rewrite Hm, Hs. intros [Hin|Hin]%elem_of_app.
    + rewrite fmap_app. apply elem_of_app. left. by apply Hown.
    + by apply Hnew.
Qed.

(** Whatever its outcome, a run of the chat handler leaves the users
    as they were, adds at most one session, under a fresh identifier,
    and adds only messages of sessions of the table. *)
Lemma chat_completions_effect user_agent chat_request client_ip w r w' :
  chat_completions env user_agent chat_request client_ip w = (r, w') →
  ∃ created new_messages,
    users w' = users w ∧
    Session.id <$> sessions w' = Session.id <$> (sessions w ++ created) ∧
    (created = [] ∨
     ∃ session, created = [session] ∧ Session.id session ∉ Session.id <$> sessions w) ∧
    messages w' = messages w ++ new_messages ∧
    (∀ m, m ∈ new_messages →
          Message.session_id m ∈ Session.id <$> (sessions w ++ created)).
Proof.
  intros H. apply chat_completions_inv in H as (r0 & w1 & Hex & H).
  assert (∃ d, grows w1 w' d ∧ d_users d = [] ∧ d_sessions d = [] ∧ d_messages d = [])
    as (d & Hg' & Hd1 & Hd2 & Hd3).
  { destruct r0 as [e|[[u s] data]].
    - destruct H as (_ & facts & ?). by exists (d_facts facts).
    - destruct H as (facts & [(l & ? & _ & _ & _ & ?)|(? & ? & _ & _ & ?)]);
        by eexists. }
  clear H. apply chat_exchange_inv in Hex
    as (created & inbound & Hcreated & Hin & [(e & _ & _ & Hg & _)|(n & facts & u & s & _ & _ &
          _ & _ & _ & Hex)]); simpl in Hcreated, Hin.
  - exists created, inbound. unfold grows in *; simpl in *; destruct_and?.
    rewrite ?Hd1, ?Hd2, ?Hd3, ?app_nil_r in *.
    split_and!; [congruence..|done|congruence|]. intros m Hm. by apply Hin.
  - destruct (forward_result _) as [?|data].
    + destruct Hex as [_ Hg]. exists created, inbound.
      unfold grows in *; simpl in *; destruct_and?.
      rewrite ?Hd1, ?Hd2, ?Hd3, ?app_nil_r in *.
      split_and!; [congruence..|done|congruence|]. intros m Hm. by apply Hin.
    + destruct Hex as (reply & Hrep & [(? & _ & _ & Hg)|(w0 & _ & Hg & Ht & _)]);
        exists created, (inbound ++ reply);
        unfold touched, grows in *; simpl in *; destruct_and?;
        rewrite ?Hd1, ?Hd2, ?Hd3, ?app_nil_r in *;
        (split_and!; [congruence..|done|congruence|]);
        intros m [Hm|Hm]%elem_of_app; first [by apply Hin|by apply Hrep].
Qed.

Lemma chat_completions_consistent user_agent chat_request client_ip w :
  consistent w →
  consistent (chat_completions env user_agent chat_request client_ip w).2.
Proof.
  intros Hc.
  destruct (chat_completions env user_agent chat_request client_ip w) as [r w'] eqn:H.
  apply chat_completions_effect in H as (created & new & ? & ? & ? & ? & ?).
  by eapply consistent_extend.
Qed.

Lemma NoDup_fmap_filter {A B} (f : A → B) (P : A → Prop) `{∀ x, Decision (P x)}
    (l : list A) :
  NoDup (f <$> l) → NoDup (f <$> filter P l).
Proof.
  induction l as [|a l IH]; [done|].
  rewrite fmap_cons, NoDup_cons. intros [Ha Hnd].
  destruct (decide (P a)).
  - rewrite filter_cons_True by done. rewrite fmap_cons, NoDup_cons.
    split; [|by apply IH].
    intros (y & Hy & Hin)%list_elem_of_fmap. apply list_elem_of_filter in Hin as [_ Hin].
    apply Ha. rewrite Hy. by apply list_elem_of_fmap_2.
  - rewrite filter_cons_False by done. by apply IH.
Qed.

(** Deleting a session, with its messages, keeps the store
    consistent as well. *)
Lemma delete_session_consistent session_id user_id client_ip w :
  consistent w →
  consistent (delete_session env session_id user_id client_ip w).2.
Proof.
  intros [[Hnu Hns] Hown].
  unfold delete_session, try_except. unfold bind at 1.
  destruct (get_or_create_user env (Some user_id) w) as [ru w1] eqn:Hu.
  apply get_or_create_user_inv in Hu as [(user&->&_&_&->)|(e&->&->&Hg)].
  2: { simpl. destruct Hg as (Hu' & Hs' & Hm' & _). simpl in *.
       rewrite app_nil_r in *.
       split; [split|]; unfold messages_owned; by rewrite ?Hu', ?Hs', ?Hm'. }
  unfold bind at 1.
  destruct (get_session_by_id session_id (User.id user) w) as [rs w2] eqn:Hs.
  apply get_session_by_id_inv in Hs as [-> [[-> _]|[(s & -> & _)|(e & -> & ->)]]];
    [done| |done].
  unfold db_commit. unfold_run.
  destruct (commit_fault env (ticks w)); simpl; [done|].
  split; [split|]; simpl.
  - done.
  - by apply NoDup_fmap_filter.
  - intros m [Hne Hm]%list_elem_of_filter.
    apply Hown in Hm. apply list_elem_of_fmap in Hm as (s' & Hid & Hs').
    apply list_elem_of_fmap. exists s'. split; [done|].
    apply list_elem_of_filter. split; [congruence|done].
Qed.

(** X1: For any identifier other than the owner's, with a row or without,
    the three endpoints raise and leave users, sessions and messages
    as they were: the session is neither shown nor deleted. *)
Lemma session_endpoints_refuse_other_user s user_id client_ip w :
  NoDup (Session.id <$> sessions w) →
  s ∈ sessions w →
  Session.user_id s ≠ user_id →
  (∃ e w', get_session env (Session.id s) user_id client_ip w = (Raise e, w') ∧
           same_tables w w') ∧
  (∃ e w', delete_session env (Session.id s) user_id client_ip w = (Raise e, w') ∧
           same_tables w w') ∧
  (∃ e w', get_session_messages env (Session.id s) user_id client_ip w = (Raise e, w') ∧
           same_tables w w').
Proof.
  intros Hns Hs Hother.
  pose proof (get_session_by_id_other s user_id w Hns Hs Hother) as Hlookup.
  unfold get_session, delete_session, get_session_messages, try_except, bind.
  destruct (get_or_create_user env (Some user_id) w) as [ru w1] eqn:Hu.
  apply get_or_create_user_inv in Hu as [(user&->&_&[= Hid]&->)|(e&->&->&Hg)].
  - rewrite Hid, Hlookup. simpl. split_and!; by eexists _, w.
  - simpl. assert (same_tables w w1) as Hsame.
    { destruct Hg as (Hu' & Hs' & Hm' & _). simpl in *. rewrite app_nil_r in *.
      by split. }
    split_and!; by eexists _, w1.
Qed.

(** The endpoints that read. [SessionResponse(...)] is given [model]
    where the model declares [model_name]: it never validates. *)
Lemma SessionResponse_init_refuses session message_count w :
  SessionResponse_init (session_response_kw session message_count) w =
    (Raise (ValidationError "validation error for SessionResponse"), w).
Proof. reflexivity. Qed.

Lemma for_each_quiet {A B} (f : A → M B) (l : list A) w :
  (∀ x w0, (f x w0).2 = w0) → (for_each f l w).2 = w.
Proof.
  intros Hf. revert w. induction l as [|x l IH]; intros w; [done|].
  simpl. unfold bind. specialize (Hf x w).
  destruct (f x w) as [[e|y] w1]; simpl in Hf; subst w1; [done|].
  specialize (IH w). by destruct (for_each f l w) as [[e|ys] w2].
Qed.

Lemma session_reads_keep_store session_data session_id user_id client_ip w :
  same_tables w (create_session env session_data client_ip w).2 ∧
  same_tables w (list_sessions env user_id client_ip w).2 ∧
  same_tables w (get_session env session_id user_id client_ip w).2 ∧
  same_tables w (get_session_messages env session_id user_id client_ip w).2.
Proof.
  assert (∀ uid, ∃ ru w1, get_or_create_user env uid w = (ru, w1) ∧
            same_tables w w1 ∧ ∀ user, ru = Return user → w1 = w) as Huser.
  { intros uid. destruct (get_or_create_user env uid w) as [ru w1] eqn:Hu.
    exists ru, w1. split; [done|].
    apply get_or_create_user_inv in Hu as [(user&->&_&_&->)|(e&->&_&Hg)].
    - by split.
    - destruct Hg as (Hu' & Hs' & Hm' & _). simpl in *. rewrite app_nil_r in *.
      by split. }
  unfold create_session, list_sessions, get_session, get_session_messages, try_except.
  split_and!.
  - destruct (Huser (SessionCreate.user_id session_data)) as (ru & w1 & Hu & ? & _).
    unfold bind. rewrite Hu. by destruct ru.
  - destruct (Huser (Some user_id)) as (ru & w1 & Hu & ? & Hret).
    unfold bind at 1. rewrite Hu. destruct ru as [e|user]; [by destruct (is_HTTPException e)|].
    rewrite (Hret user eq_refl). unfold bind at 1, gets.
    match goal with |- context [for_each ?f ?l w] =>
      pose proof (for_each_quiet f l w) as Hq;
      destruct (for_each f l w) as [[e|rs] w2] end;
      simpl in *; rewrite Hq; try done; by intros [s n] w0.
  - destruct (Huser (Some user_id)) as (ru & w1 & Hu & ? & Hret).
    unfold bind at 1. rewrite Hu. destruct ru as [e|user]; [by destruct (is_HTTPException e)|].
    rewrite (Hret user eq_refl). unfold bind at 1.
    destruct (get_session_by_id session_id (User.id user) w) as [rs w2] eqn:Hs.
    apply get_session_by_id_inv in Hs as [-> [[-> _]|[(s & -> & _)|(e & -> & ->)]]]; done.
  - destruct (Huser (Some user_id)) as (ru & w1 & Hu & ? & Hret).
    unfold bind at 1. rewrite Hu. destruct ru as [e|user]; [by destruct (is_HTTPException e)|].
    rewrite (Hret user eq_refl). unfold bind at 1.
    destruct (get_session_by_id session_id (User.id user) w) as [rs w2] eqn:Hs.
    apply get_session_by_id_inv in Hs as [-> [[-> _]|[(s & -> & _)|(e & -> & ->)]]]; done.
Qed.

(** The default user of the startup is inserted under a fresh
    identifier, or not at all. *)
Lemma create_default_user_consistent w :
  consistent w → consistent (create_default_user env w).2.
Proof.
  intros [[Hnu Hns] Hown].
  unfold create_default_user, db_add_User, users_violation. unfold_run.
  destruct (filter _ (users w)) as [|u [|]]; simpl; try done.
  case_bool_decide as Hid; simpl; [done|].
  repeat (case_bool_decide; simpl; [done|]).
  match goal with
  | |- context [commit_fault env ?n] => destruct (commit_fault env n)
  end; simpl; [done|].
  split; [split|]; simpl; try done.
  rewrite fmap_app. apply NoDup_app. split_and!; [done| |apply NoDup_singleton].
  intros x Hx Hx'. apply list_elem_of_singleton in Hx' as ->. done.
Qed.

End Properties.

(** ** When the call returns

    With uuids that never repeat, an engine that never faults and a
    backend that answers 200 with a JSON body, the chat handler returns
    for every user that has a row. *)

Section Success.
Context (env : Env) (user : User.t).
Hypothesis uuid_inj : ∀ i j, uuid_at env i = uuid_at env j → i = j.
Hypothesis never_faults : ∀ n, commit_fault env n = None.

Lemma returns_ret {A} (Q : A → Prop) (a : A) : Q a → returns env user Q (ret a).
Proof. intros Ha w Hw. by exists a, w. Qed.

Lemma returns_bind {A B} (Q : A → Prop) (R : B → Prop) (m : M A) (k : A → M B) :
  returns env user Q m → (∀ a, Q a → returns env user R (k a)) →
  returns env user R (bind m k).
Proof.
  intros Hm Hk w Hw. destruct (Hm w Hw) as (a & w1 & Hrun & Ha & Hw1).
  destruct (Hk a Ha w1 Hw1) as (b & w2 & Hrun' & Hb & Hw2).
  exists b, w2. split; [|done]. unfold bind. by rewrite Hrun.
Qed.

Lemma returns_try_except {A} (Q : A → Prop) (m : M A) (h : Exc → M A) :
  returns env user Q m → returns env user Q (try_except m h).
Proof.
  intros Hm w Hw. destruct (Hm w Hw) as (a & w1 & Hrun & Ha & Hw1).
  exists a, w1. split; [|done]. unfold try_except. by rewrite Hrun.
Qed.

Lemma returns_any {A} (Q : A → Prop) (m : M A) :
  returns env user Q m → returns env user (λ _, True) m.
Proof.
  intros Hm w Hw. destruct (Hm w Hw) as (a & w1 & Hrun & _ & Hw1). by exists a, w1.
Qed.

Lemma ready_later w n :
  ready env user w → (ticks w ≤ n)%nat → ready env user (set_ticks (λ _, n) w).
Proof.
  intros (Hu & Hpk & Hfresh) Hn. split_and!; [done..|].
  intros k Hk. apply Hfresh. simpl in Hk. lia.
Qed.

Lemma returns_tick : returns env user (λ _, True) tick.
Proof.
  intros w Hw. exists (ticks w), (set_ticks S w). split_and!; [done..|].
  destruct w. apply (ready_later _ (S _) Hw). simpl. lia.
Qed.

Lemma returns_clock (read : M Z) :
  read = datetime_now env ∨ read = time_time env → returns env user (λ _, True) read.
Proof.
  intros [-> | ->];
    (eapply returns_bind; [apply returns_tick|intros; by apply returns_ret]).
Qed.

Lemma returns_log_request ip endpoint status details :
  returns env user (λ _, True) (log_request env ip endpoint status details).
Proof.
  unfold log_request. destruct (LOG_REQUESTS env); [|by apply returns_ret].
  intros w (Hu & Hpk & Hfresh). eexists tt, _. split; [reflexivity|].
  split; [done|]. split; [done|]. split; [done|].
  unfold fresh_supply. intros k Hk. apply Hfresh. simpl in Hk. lia.
Qed.

Lemma returns_get_or_create_user :
  returns env user (λ u, u = user) (get_or_create_user env (Some (User.id user))).
Proof.
  intros w Hw. exists user, w. split_and!; [|done..].
  destruct Hw as (Hu & [Hnu _] & _). by apply get_or_create_user_seen.
Qed.

Lemma filter_at_most_one {A B} (f : A → B) (P : A → Prop) `{∀ x, Decision (P x)}
    (l : list A) b :
  NoDup (f <$> l) → (∀ x, P x → f x = b) → filter P l = [] ∨ ∃ x, filter P l = [x].
Proof.
  intros Hnd HP. destruct (filter P l) as [|x [|y l']] eqn:E; [by left|right; by exists x|].
  exfalso.
  assert (NoDup (f <$> filter P l)) as Hnd' by by apply NoDup_fmap_filter.
  assert (P x ∧ P y) as [Hx Hy].
  { split; eapply (list_elem_of_filter P l); rewrite E.
    - apply elem_of_cons. by left.
    - apply elem_of_cons. right. apply elem_of_cons. by left. }
  rewrite E in Hnd'. simpl in Hnd'. apply NoDup_cons in Hnd' as [Hnotin _].
  apply Hnotin. rewrite (HP x Hx), <- (HP y Hy). apply elem_of_cons. by left.
Qed.

Lemma returns_get_session_by_id session_id user_id :
  returns env user (λ _, True) (get_session_by_id session_id user_id).
Proof.
  intros w Hw. unfold get_session_by_id. unfold_run.
  pose proof Hw as (Hu & [Hnu Hns] & Hfresh).
  destruct (filter_at_most_one Session.id
              (λ s, Session.id s = session_id ∧ Session.user_id s = user_id)
              (sessions w) session_id Hns) as [->|[s ->]]; [by intros ? [? _]|..];
    eexists _, w; by split.
Qed.

Lemma returns_create_new_session user_id model_name title :
  returns env user (λ _, True) (create_new_session env user_id model_name title).
Proof.
  intros w (Hu & [Hnu Hns] & Hfresh).
  unfold create_new_session, db_add_Session, sessions_violation. unfold_run.
  destruct (Hfresh (ticks w)) as (Hs & _); [lia|].
  destruct (truthy_str title); simpl;
    rewrite bool_decide_eq_false_2 by done; simpl; rewrite never_faults;
    eexists _, _; (split; [reflexivity|]); (split; [done|]);
    (split; [done|]); (split; [split; [done|]|]); simpl.
  1,3: rewrite fmap_app; apply NoDup_app; split_and!;
       [done| |apply NoDup_singleton];
       intros x Hx Hx'; apply list_elem_of_singleton in Hx' as ->; done.
  all: unfold fresh_supply; intros k Hk; simpl in Hk;
       destruct (Hfresh k) as (? & ? & ?); [lia|];
       split_and!; [|done..]; simpl; rewrite fmap_app; simpl;
       intros [?|Heq%list_elem_of_singleton]%elem_of_app; [done|];
       apply uuid_inj in Heq; lia.
Qed.

Lemma returns_store_message session_id role content token_count :
  returns env user (λ _, True) (store_message env session_id role content token_count).
Proof.
  intros w (Hu & [Hnu Hns] & Hfresh).
  unfold store_message, db_add_Message, messages_violation. unfold_run.
  destruct (Hfresh (ticks w)) as (_ & Hm & _); [lia|].
  rewrite bool_decide_eq_false_2 by done; simpl; rewrite never_faults.
  eexists _, _. split; [reflexivity|]. split; [done|]. split; [done|]. split; [done|].
  unfold fresh_supply; intros k Hk; simpl in Hk.
  destruct (Hfresh k) as (? & ? & ?); [lia|].
  split_and!; [done| |done]. simpl; rewrite fmap_app; simpl.
  intros [?|Heq%list_elem_of_singleton]%elem_of_app; [done|].
  apply uuid_inj in Heq; lia.
Qed.

Lemma returns_log_request_to_db user_id session_id endpoint method ip user_agent
    request_data response_status response_time_ms :
  returns env user (λ _, True)
    (log_request_to_db env user_id session_id endpoint method ip user_agent
       request_data response_status response_time_ms).
Proof.
  intros w (Hu & [Hnu Hns] & Hfresh).
  unfold log_request_to_db, db_add_RequestLog, request_logs_violation. unfold_run.
  destruct (Hfresh (ticks w)) as (_ & _ & Hl); [lia|].
  rewrite bool_decide_eq_false_2 by done; simpl; rewrite never_faults.
  eexists _, _. split; [reflexivity|]. split; [done|]. split; [done|]. split; [done|].
  unfold fresh_supply; intros k Hk; simpl in Hk.
  destruct (Hfresh k) as (? & ? & ?); [lia|].
  split_and!; [done..|]. simpl; rewrite fmap_app; simpl.
  intros [?|Heq%list_elem_of_singleton]%elem_of_app; [done|].
  apply uuid_inj in Heq; lia.
Qed.

Lemma returns_update_session_timestamp session_id :
  returns env user (λ _, True) (update_session_timestamp env session_id).
Proof.
  intros w Hw. pose proof Hw as (Hu & [Hnu Hns] & Hfresh).
  unfold update_session_timestamp. unfold_run.
  assert (∀ now target, Session.id <$>
            ((λ s, if bool_decide (Session.id s = target) then Session.touch now s else s)
               <$> sessions w) = Session.id <$> sessions w) as Hids.
  { intros now target. rewrite <- list_fmap_compose. apply list_fmap_ext.
    intros ? t ?; simpl. by case_bool_decide. }
  destruct (filter_at_most_one Session.id (λ s, Session.id s = session_id)
              (sessions w) session_id Hns) as [->|[s ->]]; [done|..].
  - by exists tt, w.
  - rewrite never_faults. eexists tt, _. split; [reflexivity|].
    split; [done|]. split; [done|]. split; [split; simpl; [done|by rewrite Hids]|].
    unfold fresh_supply; intros k Hk; simpl in Hk.
    destruct (Hfresh k) as (? & ? & ?); [lia|].
    simpl. rewrite Hids. by split_and!.
Qed.

Section Backend.
Context (chat_request : ChatRequest.t) (response : HttpResponse.t)
        (response_data : ResponseData.t).
Hypothesis answers : ∀ n, vllm_post env n (vllm_request_of chat_request) = inr response.
Hypothesis status_200 : HttpResponse.status_code response = 200.
Hypothesis json_body : HttpResponse.json response = Some response_data.
Hypothesis asks_as_user : ChatRequest.user_id chat_request = Some (User.id user).

Lemma returns_chat_resolve :
  returns env user (λ resolved, resolved.1 = user) (chat_resolve env chat_request).
Proof.
  unfold chat_resolve. rewrite asks_as_user.
  eapply returns_bind; [apply returns_get_or_create_user|]. intros u ->.
  eapply (returns_bind (λ _, True)).
  { destruct (truthy_str _); [apply returns_get_session_by_id|by apply returns_ret]. }
  intros found _. eapply (returns_bind (λ _, True)); [|intros; by apply returns_ret].
  destruct found; [by apply returns_ret|].
  eapply returns_bind; [apply returns_clock; by left|].
  intros. apply returns_create_new_session.
Qed.

Lemma returns_chat_store_inbound session :
  returns env user (λ _, True) (chat_store_inbound env chat_request session).
Proof.
  unfold chat_store_inbound.
  destruct (truthy_list _) eqn:Hl; [|by apply returns_ret].
  unfold getitem_last. apply truthy_list_last in Hl as [c ->].
  rewrite bind_ret_l. destruct (String.eqb _ _); [|by apply returns_ret].
  eapply returns_bind; [apply returns_store_message|intros; by apply returns_ret].
Qed.

Lemma returns_chat_forward client_ip u session :
  returns env user (λ data, data = response_data)
          (chat_forward env chat_request client_ip u session).
Proof.
  unfold chat_forward. eapply returns_bind; [apply returns_log_request|]. intros _ _.
  eapply (returns_bind (λ r, r = response)).
  - intros w (Hu & Hpk & Hfresh). unfold httpx_post. unfold_run. rewrite answers.
    eexists _, _. split; [reflexivity|]. split; [done|].
    split; [done|]. split; [done|].
    unfold fresh_supply. intros k Hk. apply Hfresh. simpl in Hk. lia.
  - intros r ->. rewrite status_200. simpl. unfold response_json. rewrite json_body.
    by apply returns_ret.
Qed.

Lemma returns_chat_store_reply session data :
  returns env user (λ _, True) (chat_store_reply env session data).
Proof.
  unfold chat_store_reply.
  destruct (ResponseData.choices data) as [[|]|]; try by apply returns_ret.
  eapply returns_bind; [apply returns_store_message|intros; by apply returns_ret].
Qed.

Lemma returns_chat_exchange client_ip :
  returns env user (λ exchanged, exchanged.1.1 = user ∧ exchanged.2 = response_data)
          (chat_exchange env chat_request client_ip).
Proof.
  unfold chat_exchange.
  eapply returns_bind; [apply returns_chat_resolve|]. intros [u session] Hu.
  simpl in Hu. subst u.
  eapply returns_bind; [apply returns_chat_store_inbound|]. intros _ _.
  eapply returns_bind; [apply returns_chat_forward|]. intros data ->.
  eapply returns_bind; [apply returns_chat_store_reply|]. intros _ _.
  eapply returns_bind; [apply returns_update_session_timestamp|]. intros _ _.
  by apply returns_ret.
Qed.

(** Under these conditions the handler returns the backend's body
    with the two identifiers added. *)
Theorem chat_completions_returns_when_ready user_agent client_ip w :
  ready env user w →
  ∃ session w',
    chat_completions env user_agent chat_request client_ip w =
      (Return (ResponseData.annotate (Session.id session) (User.id user) response_data),
       w').
Proof.
  intros Hw.
  assert (returns env user
            (λ data, ∃ session,
               data = ResponseData.annotate (Session.id session) (User.id user)
                                            response_data)
            (chat_completions env user_agent chat_request client_ip)) as Hreturns.
  { unfold chat_completions.
    eapply returns_bind; [apply returns_clock; by right|]. intros start_time _.
    apply returns_try_except. unfold chat_try.
    eapply returns_bind; [apply returns_chat_exchange|].
    intros [[u session] data] [Hu Hd]. simpl in Hu, Hd. subst u data.
    eapply returns_bind.
    { unfold chat_audit. eapply returns_bind; [apply returns_clock; by right|].
      intros. apply returns_log_request_to_db. }
    intros _ _. unfold chat_respond.
    eapply returns_bind; [apply returns_clock; by right|]. intros now _.
    eapply returns_bind; [apply returns_log_request|]. intros _ _.
    apply returns_ret. by exists session. }
  destruct (Hreturns w Hw) as (data & w' & Hrun & [session ->] & _).
  by exists session, w'.
Qed.
End Backend.
End Success.

(** * The access guard and the routes *)

Section Guard.
Context (env : Env).

Lemma ip_matches_iff ip l :
  ip_matches env ip l = true ↔
  ∃ allowed_ip, allowed_ip ∈ l ∧
    if contains_char "/" allowed_ip
    then ip_in_network env ip allowed_ip = Some true
    else ip = allowed_ip.
Proof.
  induction l as [|a l IH]; simpl.
  - split; [done|]. intros (x & Hx & _). by apply elem_of_nil in Hx.
  - destruct (contains_char "/" a) eqn:Hslash.
    + destruct (ip_in_network env ip a) as [[|]|] eqn:Hnet.
      * split; [intros _|done]. exists a. rewrite Hslash. split; [apply elem_of_cons; by left|done].
      * rewrite IH. split; intros (x & Hx & Hm).
        -- exists x. split; [apply elem_of_cons; by right|done].
        -- apply elem_of_cons in Hx as [->|Hx]; [|by exists x].
           rewrite Hslash, Hnet in Hm. done.
      * rewrite IH. split; intros (x & Hx & Hm).
        -- exists x. split; [apply elem_of_cons; by right|done].
        -- apply elem_of_cons in Hx as [->|Hx]; [|by exists x].
           rewrite Hslash, Hnet in Hm. done.
    + destruct (String.eqb_spec ip a) as [->|Hne].
      * split; [intros _|done]. exists a. rewrite Hslash. split; [apply elem_of_cons; by left|done].
      * rewrite IH. split; intros (x & Hx & Hm).
        -- exists x. split; [apply elem_of_cons; by right|done].
        -- apply elem_of_cons in Hx as [->|Hx]; [|by exists x].
           rewrite Hslash in Hm. done.
Qed.

(** X2: An address passes the origin check exactly when no origin is
    configured, or some configured entry matches it: a CIDR entry (one
    with a slash) when both parse and the network contains the address,
    any other entry when it equals the address. An entry that does not
    parse matches nothing and stops nothing. *)
Theorem check_ip_allowed_iff ip :
  check_ip_allowed env ip = true ↔
  allowed_ips env = [] ∨
  ∃ allowed_ip, allowed_ip ∈ allowed_ips env ∧
    if contains_char "/" allowed_ip
    then ip_in_network env ip allowed_ip = Some true
    else ip = allowed_ip.
Proof.
  unfold check_ip_allowed. destruct (allowed_ips env) as [|a l] eqn:Hl; simpl.
  - split; [by left|done].
  - change (ip_matches env ip (a :: l) = true ↔
            a :: l = [] ∨ ∃ allowed_ip, allowed_ip ∈ a :: l ∧
              if contains_char "/" allowed_ip
              then ip_in_network env ip allowed_ip = Some true
              else ip = allowed_ip).
    rewrite ip_matches_iff. split; [by right|]. by intros [?|?].
Qed.

(** X3: The guard returns, and then the caller's address, exactly when the
    origin passes and the bearer token is the configured key. The
    origin is checked first: a refused origin gets 403 whatever the
    token. The guard writes to none of the tables and calls no
    backend. *)
Theorem verify_token_decides client_ip path credentials w :
  let run := verify_token env client_ip path credentials w in
  (run.1 = Return client_ip ↔
   check_ip_allowed env client_ip = true ∧ credentials = API_KEY env) ∧
  (check_ip_allowed env client_ip = false →
   run.1 = Raise (HTTPException 403 "IP not allowed")) ∧
  (check_ip_allowed env client_ip = true → credentials ≠ API_KEY env →
   run.1 = Raise (HTTPException 401 "Invalid API key")) ∧
  same_tables w run.2 ∧ request_logs run.2 = request_logs w ∧
  vllm_calls run.2 = vllm_calls w.
Proof.
  unfold verify_token, verify_api_key, log_request. unfold_run.
  destruct (check_ip_allowed env client_ip); simpl.
  - destruct (String.eqb_spec credentials (API_KEY env)) as [->|Hne]; simpl.
    + by split_and!.
    + destruct (LOG_REQUESTS env); simpl; (split_and!; try done);
        split; try done; by intros [_ ?].
  - destruct (LOG_REQUESTS env); simpl; (split_and!; try done);
      split; try done; by intros [? _].
Qed.

(** X4: A guarded route runs its handler exactly on the requests the guard
    admits, and then on the world as the request found it. A request
    the guard refuses ends with 403 (origin) or 401 (key): the handler
    does not run, the tables and the backend are not touched, and at
    most one audit fact is written. *)
Theorem guarded_route_gate {A} client_ip path credentials (handler : string → M A) w :
  if check_ip_allowed env client_ip && verify_api_key env credentials
  then guarded env client_ip path credentials handler w = handler client_ip w
  else ∃ facts w',
         guarded env client_ip path credentials handler w =
           (Raise (if check_ip_allowed env client_ip
                   then HTTPException 401 "Invalid API key"
                   else HTTPException 403 "IP not allowed"), w') ∧
         grows w w' (d_facts facts) ∧ (length facts ≤ 1)%nat.
Proof.
  unfold guarded, verify_token, log_request. unfold_run.
  destruct (check_ip_allowed env client_ip); simpl.
  - destruct (verify_api_key env credentials); simpl; [done|].
    destruct (LOG_REQUESTS env); simpl.
    + eexists [_], _. split; [done|]. split; [solve_grows|done].
    + exists [], w. split; [done|]. split; [solve_grows|simpl; lia].
  - destruct (LOG_REQUESTS env); simpl.
    + eexists [_], _. split; [done|]. split; [solve_grows|done].
    + exists [], w. split; [done|]. split; [solve_grows|simpl; lia].
Qed.

End Guard.

(** * Health, models, statistics *)

Section Service_properties.
Context (env : Env) (out : Outside).

(** X5: The health endpoint always answers: the gateway reports itself
    healthy whatever the backend does, and the backend healthy exactly
    when its /health answered with status 200; a backend that cannot be
    reached, or answers another status, is reported unhealthy. Nothing
    is written. *)
Theorem health_check_always_answers w :
  ∃ health w',
    health_check env out w = (Return health, w') ∧
    Health.status health = "healthy" ∧
    Health.vllm_status health =
      match vllm_get out (ticks w) "/health" with
      | inr response =>
          if Z.eqb (GetResponse.status_code response) 200 then "healthy" else "unhealthy"
      | inl _ => "unhealthy"
      end ∧
    grows w w' d_empty.
Proof.
  unfold health_check, httpx_get, try_except. unfold_run.
  destruct (vllm_get out (ticks w) "/health") as [e|response]; simpl;
    eexists _, _; (split_and!; [reflexivity|done|done|solve_grows]).
Qed.

(** X6: The models endpoint hands on the JSON body of the backend's answer
    whatever its status, and answers 500 "Failed to get models" when
    the backend cannot be reached or its body is not JSON. The audit
    fact SUCCESS is written before the backend is asked, so a failed
    call leaves SUCCESS followed by ERROR. The tables are not
    touched. *)
Theorem list_models_hands_on_body client_ip w :
  let asked := if LOG_REQUESTS env then S (ticks w) else ticks w in
  let body := match vllm_get out asked "/v1/models" with
              | inr response => GetResponse.json response
              | inl _ => None
              end in
  ∃ facts w',
    list_models env out client_ip w =
      (match body with
       | Some body => Return body
       | None => Raise (HTTPException 500 "Failed to get models")
       end, w') ∧
    grows w w' (d_facts facts) ∧
    AuditFact.status <$> facts =
      (if LOG_REQUESTS env
       then match body with Some _ => ["SUCCESS"] | None => ["SUCCESS"; "ERROR"] end
       else []).
Proof.
  unfold list_models, httpx_get, get_response_json, try_except, log_request. unfold_run.
  assert (∀ (l : list AuditFact.t) a b, (l ++ [a]) ++ [b] = l ++ [a; b]) as Hassoc
    by (intros; by rewrite <- app_assoc).
  destruct (LOG_REQUESTS env); simpl.
  - destruct (vllm_get out (S (ticks w)) "/v1/models") as [e|response]; simpl.
    + eexists [_; _], _. split; [reflexivity|].
      split; [unfold grows; simpl; rewrite Hassoc, !app_nil_r; by split_and!|done].
    + destruct (GetResponse.json response); simpl.
      * eexists [_], _. split; [reflexivity|]. split; [solve_grows|done].
      * eexists [_; _], _. split; [reflexivity|].
        split; [unfold grows; simpl; rewrite Hassoc, !app_nil_r; by split_and!|done].
  - destruct (vllm_get out (ticks w) "/v1/models") as [e|response]; simpl.
    + eexists [], _. split; [reflexivity|]. split; [solve_grows|done].
    + destruct (GetResponse.json response); simpl;
        eexists [], _; (split; [reflexivity|]; split; [solve_grows|done]).
Qed.

End Service_properties.

(** * Statistics *)

Section Stats.
Context (env : Env) (out : Outside).

Lemma sum_values_empty : sum_values ∅ = 0.
Proof. unfold sum_values. by rewrite map_fold_empty. Qed.

Lemma sum_values_bump key stats : sum_values (bump key stats) = sum_values stats + 1.
Proof.
  unfold sum_values, bump. destruct (stats !! key) as [x|] eqn:Hk; simpl.
  - rewrite <- insert_delete_eq.
    rewrite map_fold_insert_L; [|intros; lia|by rewrite lookup_delete_eq].
    rewrite (map_fold_delete_L _ _ key x stats); [lia|intros; lia|done].
  - rewrite map_fold_insert_L; [lia|intros; lia|done].
Qed.

Lemma tally_line_counted today line stats :
  tally_line today line stats =
    match counted_as today line with
    | Some key => bump key stats
    | None => stats
    end.
Proof.
  unfold tally_line, counted_as.
  by repeat match goal with |- context [if ?b then _ else _] => destruct b end.
Qed.

Lemma count_lines_cons p line lines :
  count_lines p (line :: lines) = (if p line then 1 else 0) + count_lines p lines.
Proof.
  unfold count_lines. destruct (p line) eqn:Hp.
  - rewrite filter_cons_True by done. simpl length. lia.
  - rewrite filter_cons_False by (by rewrite Hp). lia.
Qed.

Lemma count_lines_nonneg p lines : 0 ≤ count_lines p lines.
Proof. unfold count_lines. lia. Qed.

(** The loop, from any dictionary: every counter grows by the number
    of lines that go to it, the sum by the number of lines counted, and
    a key is there at the end when it was at the start or a line went
    to it. *)
Lemma tally_lines today lines acc :
  let stats := foldl (λ stats line, tally_line today line stats) acc lines in
  (∀ key, default 0 (stats !! key) =
            default 0 (acc !! key) +
            count_lines (λ line, bool_decide (counted_as today line = Some key)) lines) ∧
  (∀ key, is_Some (stats !! key) ↔
            is_Some (acc !! key) ∨
            0 < count_lines (λ line, bool_decide (counted_as today line = Some key)) lines) ∧
  sum_values stats =
    sum_values acc +
    count_lines (λ line, bool_decide (is_Some (counted_as today line))) lines.
Proof.
  revert acc. induction lines as [|line lines IH]; intros acc; simpl.
  { unfold count_lines; simpl. split_and!; intros; try lia.
    split; [by left|]. intros [?|?]; [done|lia]. }
  destruct (IH (tally_line today line acc)) as (Hval & Hkey & Hsum).
  rewrite tally_line_counted in Hval, Hkey, Hsum. rewrite tally_line_counted.
  split_and!.
  - intros key. rewrite Hval, count_lines_cons.
    destruct (counted_as today line) as [k|] eqn:Hc.
    + unfold bump. destruct (decide (k = key)) as [->|Hne].
      * rewrite lookup_insert_eq, bool_decide_eq_true_2 by done. simpl. lia.
      * rewrite lookup_insert_ne, bool_decide_eq_false_2 by congruence. lia.
    + rewrite bool_decide_eq_false_2 by done. lia.
  - intros key. rewrite Hkey, count_lines_cons.
    pose proof (count_lines_nonneg
      (λ line, bool_decide (counted_as today line = Some key)) lines) as Hnn.
    destruct (counted_as today line) as [k|] eqn:Hc.
    + unfold bump. destruct (decide (k = key)) as [->|Hne].
      * rewrite lookup_insert_eq, bool_decide_eq_true_2 by done.
        split; [intros _; right; lia|intros _; left; by eexists].
      * rewrite lookup_insert_ne, bool_decide_eq_false_2 by congruence.
        split; (intros [?|?]; [by left|right; lia]).
    + rewrite bool_decide_eq_false_2 by done.
      split; (intros [?|?]; [by left|right; lia]).
  - rewrite Hsum, count_lines_cons.
    destruct (counted_as today line) as [k|] eqn:Hc.
    + rewrite sum_values_bump, bool_decide_eq_true_2 by (by eexists). lia.
    + rewrite bool_decide_eq_false_2 by (by intros [? ?]). lia.
Qed.

Lemma count_lines_ext p q lines :
  (∀ line, p line = q line) → count_lines p lines = count_lines q lines.
Proof.
  intros Hpq. induction lines as [|line lines IH]; [done|].
  by rewrite !count_lines_cons, IH, Hpq.
Qed.

(** X7: The statistics endpoint over the lines of the log file. A line
    counts when it contains today's date and the text REQUEST: and one
    of the three status pairs; it counts once, as successful if it has
    the SUCCESS pair, else as failed if it has the ERROR pair, else as
    an authentication failure. The total is the number of lines
    counted, so the sum of the three counters; lines of other days and
    lines with other statuses (START, IP_BLOCKED) are not counted. A
    counter that counted nothing has no key. A missing file gives the
    empty statistics with total 0, any other failure the error
    dictionary. *)
Theorem get_stats_counts client_ip w :
  let today := strftime_day out (clock_at env (ticks w)) in
  let dated line := str_in today line && str_in "REQUEST:" line in
  let has status line := str_in (status_marker status) line in
  let reply := (get_stats env out client_ip w).1 in
  match read_access_log out (S (ticks w)) with
  | FileLines lines =>
      let successful := count_lines (λ line, dated line && has "SUCCESS" line) lines in
      let failed :=
        count_lines (λ line, dated line && negb (has "SUCCESS" line) && has "ERROR" line)
                    lines in
      let refused :=
        count_lines (λ line, dated line && negb (has "SUCCESS" line) &&
                             negb (has "ERROR" line) && has "AUTH_FAILED" line) lines in
      ∃ stats,
        reply = Return (Stats today stats (successful + failed + refused)) ∧
        default 0 (stats !! "successful_requests") = successful ∧
        default 0 (stats !! "failed_requests") = failed ∧
        default 0 (stats !! "auth_failures") = refused ∧
        (∀ key, is_Some (stats !! key) →
                0 < default 0 (stats !! key) ∧
                key ∈ ["successful_requests"; "failed_requests"; "auth_failures"]) ∧
        successful + failed + refused =
          count_lines (λ line, dated line &&
                         (has "SUCCESS" line || has "ERROR" line || has "AUTH_FAILED" line))
                      lines
  | FileNotFound => reply = Return (Stats today ∅ 0)
  | FileFailure msg => reply = Return (StatsError msg)
  end.
Proof.
  intros today dated has reply. subst reply. unfold get_stats. unfold_run.
  fold today. destruct (read_access_log out (S (ticks w))) as [lines| |msg].
  2: by rewrite sum_values_empty.
  2: done.
  set (successful := count_lines (λ line, dated line && has "SUCCESS" line) lines).
  set (failed :=
         count_lines (λ line, dated line && negb (has "SUCCESS" line) && has "ERROR" line)
                     lines).
  set (refused :=
         count_lines (λ line, dated line && negb (has "SUCCESS" line) &&
                              negb (has "ERROR" line) && has "AUTH_FAILED" line) lines).
  destruct (tally_lines today lines ∅) as (Hval & Hkey & Hsum).
  set (stats := foldl (λ stats line, tally_line today line stats) ∅ lines) in *.
  assert (∀ key p, (∀ line, bool_decide (counted_as today line = Some key) = p line) →
            default 0 (stats !! key) = count_lines p lines) as Hcount.
  { intros key p Hp. rewrite Hval, lookup_empty. simpl. by apply count_lines_ext. }
  assert (default 0 (stats !! "successful_requests") = successful) as Hs.
  { apply Hcount. intros line. unfold counted_as, dated, has.
    destruct (_ && _); [|done]. by repeat destruct (str_in (status_marker _) line). }
  assert (default 0 (stats !! "failed_requests") = failed) as Hf.
  { apply Hcount. intros line. unfold counted_as, dated, has.
    destruct (_ && _); [|done]. by repeat destruct (str_in (status_marker _) line). }
  assert (default 0 (stats !! "auth_failures") = refused) as Hr.
  { apply Hcount. intros line. unfold counted_as, dated, has.
    destruct (_ && _); [|done]. by repeat destruct (str_in (status_marker _) line). }
  assert (∀ key, is_Some (stats !! key) →
            0 < default 0 (stats !! key) ∧
            key ∈ ["successful_requests"; "failed_requests"; "auth_failures"]) as Hkeys.
  { intros key Hsome. apply Hkey in Hsome as [Hsome|Hpos].
    { rewrite lookup_empty in Hsome. by destruct Hsome. }
    split; [rewrite Hval, lookup_empty; simpl; lia|].
    unfold count_lines in Hpos.
    destruct (filter _ lines) as [|line ?] eqn:E; [simpl in Hpos; lia|].
    assert (line ∈ filter
              (λ line, bool_decide (counted_as today line = Some key) = true) lines) as Hin
      by (rewrite E; apply elem_of_cons; by left).
    apply list_elem_of_filter in Hin as [Hc%bool_decide_eq_true _].
    unfold counted_as in Hc.
    repeat match type of Hc with
           | (if ?b then _ else _) = _ => destruct b
           end; simplify_eq; rewrite !elem_of_cons; by eauto. }
  assert (sum_values stats =
            count_lines (λ line, dated line &&
                           (has "SUCCESS" line || has "ERROR" line || has "AUTH_FAILED" line))
                        lines) as Htotal.
  { rewrite Hsum, sum_values_empty. simpl. apply count_lines_ext. intros line.
    unfold counted_as, dated, has. destruct (_ && _); [|done].
    by repeat destruct (str_in (status_marker _) line). }
  assert (successful + failed + refused = sum_values stats) as Hadd.
  { rewrite Htotal. subst successful failed refused. clear.
    induction lines as [|line lines IH]; [done|].
    rewrite !count_lines_cons, <- IH.
    destruct (dated line), (has "SUCCESS" line), (has "ERROR" line),
      (has "AUTH_FAILED" line); simpl; lia. }
  exists stats. rewrite <- Hadd at 1. split_and!; try done. by rewrite Hadd.
Qed.

End Stats.

(** * Startup *)

Section Startup.
Context (env : Env).

(** X8: The creation of the default user, which the startup runs, is
    idempotent: once it has returned, the table holds exactly one user
    named default, and running it again returns and changes nothing. *)
Theorem create_default_user_idempotent w w1 :
  create_default_user env w = (Return tt, w1) →
  (∃ default_user,
     filter (λ u, User.username u = Some "default") (users w1) = [default_user]) ∧
  create_default_user env w1 = (Return tt, w1).
Proof.
  unfold create_default_user, db_add_User, users_violation. unfold_run.
  destruct (filter _ (users w)) as [|u [|]] eqn:Hrows; simpl.
  - repeat (case_bool_decide; simpl; [done|]).
    destruct (commit_fault env _); simpl; [done|].
    intros [= <-]. simpl. rewrite filter_app, Hrows. simpl.
    rewrite filter_cons_True by done. simpl. split; [by eexists|done].
  - intros [= <-]. rewrite Hrows. split; [by eexists|done].
  - done.
Qed.

(** X9: On a store where nobody is named default, where nobody holds the
    default e-mail address or API key, and where the identifier drawn
    is new, a run whose commit the engine accepts inserts the default
    user, active, with these three values, and nothing else. *)
Theorem create_default_user_inserts w :
  (∀ u, u ∈ users w →
        User.username u ≠ Some "default" ∧
        User.email u ≠ Some "default@example.com" ∧
        User.api_key u ≠ Some "default-api-key" ∧
        User.id u ≠ uuid_at env (ticks w)) →
  commit_fault env (ticks w + 3) = None →
  ∃ default_user w',
    create_default_user env w = (Return tt, w') ∧
    grows w w' (mkDelta [default_user] [] [] [] [] []) ∧
    User.id default_user = uuid_at env (ticks w) ∧
    User.username default_user = Some "default" ∧
    User.email default_user = Some "default@example.com" ∧
    User.api_key default_user = Some "default-api-key" ∧
    User.is_active default_user = true.
Proof.
  intros Hfree Hcommit.
  unfold create_default_user, db_add_User, users_violation, taken. unfold_run.
  rewrite filter_nil_not by (intros u Hu; by apply Hfree in Hu as (? & _)).
  simpl.
  rewrite bool_decide_eq_false_2; simpl.
  2: { intros (u & Hid & Hu)%list_elem_of_fmap. apply Hfree in Hu as (_ & _ & _ & ?).
       congruence. }
  rewrite bool_decide_eq_false_2; simpl.
  2: { intros (u & Hid & Hu)%list_elem_of_fmap. apply Hfree in Hu as (? & _). congruence. }
  rewrite bool_decide_eq_false_2; simpl.
  2: { intros (u & Hid & Hu)%list_elem_of_fmap. apply Hfree in Hu as (_ & ? & _).
       congruence. }
  rewrite bool_decide_eq_false_2; simpl.
  2: { intros (u & Hid & Hu)%list_elem_of_fmap. apply Hfree in Hu as (_ & _ & ? & _).
       congruence. }
  replace (S (S (S (ticks w)))) with (ticks w + 3)%nat by lia. rewrite Hcommit.
  eexists _, _. split; [reflexivity|]. split; [solve_grows|done].
Qed.

End Startup.

(** * The conversation store, operation by operation *)

Section Store.
Context (env : Env).

(** X10: Resolve-or-create never creates: a user it returns had its row
    already, the row of the identifier asked for, and the world is as
    it was; asked again, it returns the same row. When it raises, the
    tables are as they were too. *)
Theorem get_or_create_user_never_creates user_id w :
  let run := get_or_create_user env user_id w in
  users run.2 = users w ∧ sessions run.2 = sessions w ∧ messages run.2 = messages w ∧
  ∀ user, run.1 = Return user →
    run.2 = w ∧ user ∈ users w ∧ Some (User.id user) = user_id ∧
    get_or_create_user env user_id run.2 = (Return user, w).
Proof.
  intros run. subst run.
  destruct (get_or_create_user env user_id w) as [r w'] eqn:Hrun. simpl.
  pose proof Hrun as Hrun'.
  apply get_or_create_user_inv in Hrun as [(u & -> & Hin & Hid & ->)|(e & -> & _ & Hg)].
  - split_and!; try done. by intros user [= <-].
  - destruct Hg as (Hu & Hs & Hm & _). simpl in *. rewrite app_nil_r in *.
    by split_and!.
Qed.

Lemma get_session_by_id_own s w :
  NoDup (Session.id <$> sessions w) → s ∈ sessions w →
  get_session_by_id (Session.id s) (Session.user_id s) w = (Return (Some s), w).
Proof.
  intros Hnd Hin. unfold get_session_by_id. unfold_run.
  rewrite (filter_unique _ _ s); try done.
  - intros y Hy [Hid _]. by eapply NoDup_fmap_eq.
  - by eapply NoDup_fmap_1.
Qed.

Lemma get_session_by_id_unknown session_id user_id w :
  session_id ∉ Session.id <$> sessions w →
  get_session_by_id session_id user_id w = (Return None, w).
Proof.
  intros Hnew. unfold get_session_by_id. unfold_run.
  rewrite filter_nil_not; [done|].
  intros s Hs [Hid _]. apply Hnew. rewrite <- Hid. by apply list_elem_of_fmap_2.
Qed.

(** X11: Insert, then look up: a session that [create_new_session] returns
    is found under its identifier by the user it was created for, and
    by nobody else. *)
Theorem create_new_session_then_lookup user_id model_name title w s w' :
  NoDup (Session.id <$> sessions w) →
  create_new_session env user_id model_name title w = (Return s, w') →
  get_session_by_id (Session.id s) user_id w' = (Return (Some s), w') ∧
  ∀ other, other ≠ user_id →
    get_session_by_id (Session.id s) other w' = (Return None, w').
Proof.
  intros Hnd Hrun.
  apply create_new_session_inv in Hrun
    as [(s' & [= <-] & Hg & Hfresh & Hown & _)|(? & ? & _)]; [|done].
  assert (sessions w' = sessions w ++ [s]) as Hs by (by destruct Hg as (_ & ? & _)).
  assert (NoDup (Session.id <$> sessions w')) as Hnd'.
  { rewrite Hs, fmap_app. apply NoDup_app. split_and!; [done| |apply NoDup_singleton].
    intros x Hx Hx'%list_elem_of_singleton. by subst. }
  assert (s ∈ sessions w') as Hin by (rewrite Hs; apply elem_of_app; right; by left).
  split.
  - rewrite <- Hown. by apply get_session_by_id_own.
  - intros other Hother. apply get_session_by_id_other; [done..|congruence].
Qed.

(** X12: Deleting a session, as its owner. When the engine accepts the
    commit the session is gone and so are its messages; every other
    session stays, and the messages of every other session stay as
    they were; users and request log rows stay, so the rows that
    recorded requests on the session outlive it. When the engine
    refuses the commit the caller gets 500 and nothing is deleted. *)
Theorem delete_session_removes s user client_ip w :
  pk_unique w → user ∈ users w → s ∈ sessions w →
  Session.user_id s = User.id user →
  let run := delete_session env (Session.id s) (User.id user) client_ip w in
  users run.2 = users w ∧ request_logs run.2 = request_logs w ∧
  match commit_fault env (ticks w) with
  | None =>
      run.1 = Return "Session deleted successfully" ∧
      (Session.id s ∉ Session.id <$> sessions run.2) ∧
      messages_of (Session.id s) run.2 = [] ∧
      (∀ x, x ∈ sessions run.2 ↔ x ∈ sessions w ∧ x ≠ s) ∧
      ∀ session_id, session_id ≠ Session.id s →
        messages_of session_id run.2 = messages_of session_id w
  | Some msg =>
      run.1 = Raise (HTTPException 500 ("Failed to delete session: " +:+ msg)) ∧
      sessions run.2 = sessions w ∧ messages run.2 = messages w
  end.
Proof.
  intros [Hnu Hns] Hu Hs Hown run. subst run.
  unfold delete_session, try_except, bind.
  rewrite (get_or_create_user_seen env user w Hnu Hu).
  rewrite <- Hown, (get_session_by_id_own s w Hns Hs).
  unfold db_commit. unfold_run.
  destruct (commit_fault env (ticks w)) as [msg|]; simpl; [done|].
  split; [done|]. split; [done|]. split; [done|]. split_and!.
  - intros (x & Hid & Hx)%list_elem_of_fmap.
    apply list_elem_of_filter in Hx as [Hne _]. done.
  - unfold messages_of; simpl. apply filter_nil_not.
    intros m Hm%list_elem_of_filter. by destruct Hm.
  - intros x. rewrite list_elem_of_filter. split.
    + intros [Hne Hx]. split; [done|congruence].
    + intros [Hx Hne]. split; [|done]. intros Hid. apply Hne. by eapply NoDup_fmap_eq.
  - intros session_id Hne. unfold messages_of; simpl.
    rewrite list_filter_filter. apply list_filter_iff. intros m. split; [by intros [? _]|].
    intros Hm. split; [done|congruence].
Qed.

(** X13: Delete is not repeatable: once the owner has deleted a session,
    deleting it again, or asking for it or for its messages, answers
    404 "Session not found". *)
Theorem delete_session_then_not_found s user client_ip w :
  pk_unique w → user ∈ users w → s ∈ sessions w →
  Session.user_id s = User.id user →
  commit_fault env (ticks w) = None →
  let w' := (delete_session env (Session.id s) (User.id user) client_ip w).2 in
  let not_found {A} : Res A * World :=
    (Raise (HTTPException 404 "Session not found"), w') in
  delete_session env (Session.id s) (User.id user) client_ip w' = not_found ∧
  get_session env (Session.id s) (User.id user) client_ip w' = not_found ∧
  get_session_messages env (Session.id s) (User.id user) client_ip w' = not_found.
Proof.
  intros [Hnu Hns] Hu Hs Hown Hcommit w' not_found.
  assert (users w' = users w ∧ (Session.id s ∉ Session.id <$> sessions w')) as [Husers Hgone].
  { subst w'. unfold delete_session, try_except, bind.
    rewrite (get_or_create_user_seen env user w Hnu Hu).
    rewrite <- Hown, (get_session_by_id_own s w Hns Hs).
    unfold db_commit. unfold_run. rewrite Hcommit. simpl. split; [done|].
    intros (x & Hid & Hx)%list_elem_of_fmap.
    apply list_elem_of_filter in Hx as [Hne _]. done. }
  assert (get_or_create_user env (Some (User.id user)) w' = (Return user, w')) as Huser
    by (apply get_or_create_user_seen; by rewrite Husers).
  pose proof (get_session_by_id_unknown (Session.id s) (User.id user) w' Hgone) as Hlookup.
  unfold delete_session, get_session, get_session_messages, try_except, not_found, bind.
  rewrite Huser. cbv beta iota. by rewrite Hlookup.
Qed.

End Store.

(** * The listings *)

Section Listings.
Context (env : Env).

#[local] Instance created_asc_total : Total created_asc.
Proof. intros a b. unfold created_asc. lia. Qed.

#[local] Instance created_asc_trans : Transitive created_asc.
Proof. intros a b c. unfold created_asc. lia. Qed.

Lemma Sorted_weaken {A} (R1 R2 : relation A) (l : list A) :
  (∀ x y, R1 x y → R2 x y) → Sorted R1 l → Sorted R2 l.
Proof.
  intros HR Hs. induction Hs as [|x l Hs IH Hhd]; constructor; [done|].
  destruct Hhd; constructor; auto.
Qed.

Lemma strictly_sorted_inj {A} (f : A → Z) (l : list A) x y :
  Sorted (λ a b, f a < f b) l → x ∈ l → y ∈ l → f x = f y → x = y.
Proof.
  intros Hsorted%Sorted_StronglySorted; [|intros a b c; lia].
  induction Hsorted as [|a l Hl IH Ha]; [by intros ?%elem_of_nil|].
  rewrite Forall_forall in Ha.
  intros [->|Hx]%elem_of_cons [->|Hy]%elem_of_cons Heq; try done.
  - apply Ha in Hy. lia.
  - apply Ha in Hx. lia.
  - by apply IH.
Qed.

Lemma get_session_messages_run s user client_ip w :
  pk_unique w → user ∈ users w → s ∈ sessions w →
  Session.user_id s = User.id user →
  ∃ listed,
    get_session_messages env (Session.id s) (User.id user) client_ip w =
      (Return listed, w) ∧
    listed ≡ₚ message_response <$> messages_of (Session.id s) w ∧
    Sorted (λ a b, MessageResponse.created_at a ≤ MessageResponse.created_at b) listed ∧
    (Sorted (λ a b, Message.created_at a < Message.created_at b)
            (messages_of (Session.id s) w) →
     listed = message_response <$> messages_of (Session.id s) w).
Proof.
  intros [Hnu Hns] Hu Hs Hown.
  unfold get_session_messages, try_except, bind.
  rewrite (get_or_create_user_seen env user w Hnu Hu).
  rewrite <- Hown, (get_session_by_id_own s w Hns Hs).
  unfold gets, ret. fold (messages_of (Session.id s) w).
  eexists. split; [reflexivity|]. split_and!.
  - by rewrite merge_sort_Permutation.
  - apply (Sorted_fmap _ created_asc); [done|]. apply Sorted_merge_sort, _.
  - intros Hstrict. f_equal.
    apply (Sorted_unique_strong created_asc).
    + intros x y Hx Hy Hxy Hyx. rewrite merge_sort_Permutation in Hx.
      apply (strictly_sorted_inj Message.created_at _ x y Hstrict Hx Hy).
      unfold created_asc in *. lia.
    + apply Sorted_merge_sort, _.
    + eapply Sorted_weaken; [|exact Hstrict]. intros a b. unfold created_asc. simpl. lia.
    + apply merge_sort_Permutation.
Qed.

(** X14: The messages of a session, asked for by its owner: the call
    returns, changes nothing, and lists exactly the messages of the
    session, each once, by creation time, earliest first. When the
    creation times of the messages increase strictly in insertion
    order, the listing is in insertion order. *)
Theorem get_session_messages_lists s user client_ip w :
  pk_unique w → user ∈ users w → s ∈ sessions w →
  Session.user_id s = User.id user →
  ∃ listed,
    get_session_messages env (Session.id s) (User.id user) client_ip w =
      (Return listed, w) ∧
    listed ≡ₚ message_response <$> messages_of (Session.id s) w ∧
    Sorted (λ a b, MessageResponse.created_at a ≤ MessageResponse.created_at b) listed ∧
    (Sorted (λ a b, Message.created_at a < Message.created_at b)
            (messages_of (Session.id s) w) →
     listed = message_response <$> messages_of (Session.id s) w).
Proof. apply get_session_messages_run. Qed.

(** X15: GET /v1/sessions/{id} never returns a session. The response model
    is built with the keyword [model], which it does not declare, and
    without its required [model_name]: a session that is found ends in
    500, one that is not in 404. Nothing is written. *)
Theorem get_session_never_returns session_id user_id client_ip w :
  ∃ e w',
    get_session env session_id user_id client_ip w = (Raise e, w') ∧
    same_tables w w' ∧
    (e = HTTPException 404 "Session not found" ∨
     ∃ detail, e = HTTPException 500 ("Failed to get session: " +:+ detail)).
Proof.
  unfold get_session, try_except. unfold bind at 1.
  destruct (get_or_create_user env (Some user_id) w) as [ru w1] eqn:Hu.
  apply get_or_create_user_inv in Hu as [(user & -> & _ & _ & ->)|(e & -> & -> & Hg)].
  - unfold bind at 1.
    destruct (get_session_by_id session_id (User.id user) w) as [rs w2] eqn:Hs.
    apply get_session_by_id_inv in Hs as [-> [[-> _]|[(s & -> & _)|(e & -> & ->)]]].
    + eexists _, w. split; [reflexivity|]. split; [done|by left].
    + eexists _, w. split; [reflexivity|]. split; [done|]. right. by eexists.
    + eexists _, w. split; [reflexivity|]. split; [done|]. right. by eexists.
  - eexists _, w1. split; [reflexivity|]. split; [|right; by eexists].
    destruct Hg as (Hu' & Hs' & Hm' & _). simpl in *. rewrite app_nil_r in *. by split.
Qed.

(** X16: The owner of a session cannot read it back: asked for by its
    owner, a session of the table ends in 500, not in the session. *)
Theorem get_session_of_owner_fails s user client_ip w :
  pk_unique w → user ∈ users w → s ∈ sessions w →
  Session.user_id s = User.id user →
  ∃ detail,
    get_session env (Session.id s) (User.id user) client_ip w =
      (Raise (HTTPException 500 ("Failed to get session: " +:+ detail)), w).
Proof.
  intros [Hnu Hns] Hu Hs Hown.
  unfold get_session, try_except, bind.
  rewrite (get_or_create_user_seen env user w Hnu Hu).
  rewrite <- Hown, (get_session_by_id_own s w Hns Hs).
  by eexists.
Qed.

(** X17: GET /v1/sessions returns the empty list for a user without
    sessions and fails with 500 as soon as the user has one: no session
    is ever listed. Nothing is written. *)
Theorem list_sessions_lists_nothing user client_ip w :
  NoDup (User.id <$> users w) → user ∈ users w →
  ∃ r,
    list_sessions env (User.id user) client_ip w = (r, w) ∧
    match filter (λ s, Session.user_id s = User.id user) (sessions w) with
    | [] => r = Return []
    | _ :: _ =>
        ∃ detail, r = Raise (HTTPException 500 ("Failed to list sessions: " +:+ detail))
    end.
Proof.
  intros Hnu Hu.
  unfold list_sessions, try_except, bind.
  rewrite (get_or_create_user_seen env user w Hnu Hu).
  unfold gets.
  destruct (filter _ (sessions w)) as [|s l] eqn:Hrows.
  - eexists. split; reflexivity.
  - destruct (merge_sort updated_desc (s :: l)) as [|x xs] eqn:Hsorted.
    + pose proof (merge_sort_Permutation updated_desc (s :: l)) as Hp.
      rewrite Hsorted in Hp. by apply Permutation_nil_cons in Hp.
    + eexists. split; [reflexivity|]. by eexists.
Qed.

End Listings.

(** * The chat handler, further *)

Section Chat.
Context (env : Env).

(** ** Stamps *)

Lemma store_message_stamp session_id role content token_count w m w' :
  store_message env session_id role content token_count w = (Return m, w') →
  Message.created_at m = clock_at env (S (ticks w)) ∧ (ticks w < ticks w')%nat.
Proof.
  unfold store_message, db_add_Message, messages_violation. unfold_run.
  case_bool_decide; simpl; [done|].
  destruct (commit_fault env _); intros [= <- <-]. simpl. split; [done|lia].
Qed.

Lemma chat_store_inbound_stamp chat_request session w stored w' :
  chat_store_inbound env chat_request session w = (Return stored, w') →
  match stored with
  | Some m => Message.created_at m = clock_at env (S (ticks w)) ∧ (ticks w < ticks w')%nat
  | None => w' = w
  end.
Proof.
  unfold chat_store_inbound, getitem_last.
  destruct (truthy_list _) eqn:Hl; [|by intros [= <- <-]].
  apply truthy_list_last in Hl as [c ->]. rewrite bind_ret_l.
  destruct (String.eqb _ _); [|by intros [= <- <-]].
  intros H. apply bind_inv in H as [(m & w1 & Hm & H)|(e & _ & ?)]; [|done].
  unfold ret in H. injection H as <- <-. by apply store_message_stamp in Hm.
Qed.

Lemma chat_store_reply_stamp session response_data w stored w' :
  chat_store_reply env session response_data w = (Return stored, w') →
  match stored with
  | Some m => Message.created_at m = clock_at env (S (ticks w)) ∧ (ticks w < ticks w')%nat
  | None => w' = w
  end.
Proof.
  unfold chat_store_reply.
  destruct (ResponseData.choices response_data) as [[|c ?]|];
    [by intros [= <- <-]| |by intros [= <- <-]].
  intros H. apply bind_inv in H as [(m & w1 & Hm & H)|(e & _ & ?)]; [|done].
  unfold ret in H. injection H as <- <-. by apply store_message_stamp in Hm.
Qed.

Lemma chat_forward_ticks chat_request client_ip user session w r w' :
  chat_forward env chat_request client_ip user session w = (r, w') →
  (ticks w ≤ ticks w')%nat.
Proof.
  unfold chat_forward, log_request, httpx_post, response_json. unfold_run.
  destruct (LOG_REQUESTS env); simpl;
    (destruct (vllm_post env _ _) as [e|response]; simpl;
     [|destruct (negb _); [|destruct (HttpResponse.json response)]]);
    intros [= <- <-]; simpl; lia.
Qed.

(** ** The touch *)

Lemma update_session_timestamp_rows session_id w r w' :
  update_session_timestamp env session_id w = (r, w') →
  (∀ x, x ∈ sessions w → Session.id x ≠ session_id → x ∈ sessions w') ∧
  (∀ x, x ∈ sessions w → x ∈ sessions w' ∨ ∃ now, Session.touch now x ∈ sessions w').
Proof.
  unfold update_session_timestamp. unfold_run.
  destruct (filter _ (sessions w)) as [|s [|]] eqn:Hrows.
  - intros [= <- <-]. split; [done|]. intros x Hx. by left.
  - assert (Session.id s = session_id) as Hid.
    { assert (s ∈ filter (λ s, Session.id s = session_id) (sessions w)) as Hin
        by (rewrite Hrows; apply elem_of_cons; by left).
      by apply list_elem_of_filter in Hin as [? _]. }
    destruct (commit_fault env _); intros [= <- <-]; simpl.
    + split; [done|]. intros x Hx. by left.
    + split.
      * intros x Hx Hne. apply list_elem_of_fmap. exists x. split; [|done].
        rewrite bool_decide_eq_false_2; [done|congruence].
      * intros x Hx.
        apply (list_elem_of_fmap_2
                 (λ s0, if bool_decide (Session.id s0 = Session.id s)
                        then Session.touch (clock_at env (ticks w)) s0 else s0)) in Hx.
        case_bool_decide; [right; by eexists|by left].
  - intros [= <- <-]. split; [done|]. intros x Hx. by left.
Qed.

Lemma update_session_timestamp_touches session_id w w' x :
  update_session_timestamp env session_id w = (Return tt, w') →
  x ∈ sessions w → Session.id x = session_id →
  Session.touch (clock_at env (ticks w)) x ∈ sessions w'.
Proof.
  unfold update_session_timestamp. unfold_run. intros H Hx Hid.
  assert (x ∈ filter (λ s, Session.id s = session_id) (sessions w)) as Hin
    by (by apply list_elem_of_filter).
  destruct (filter _ (sessions w)) as [|s [|]] eqn:Hrows; [by apply elem_of_nil in Hin| |done].
  assert (Session.id s = session_id) as Hid'.
  { assert (s ∈ filter (λ s, Session.id s = session_id) (sessions w)) as Hs
      by (rewrite Hrows; apply elem_of_cons; by left).
    by apply list_elem_of_filter in Hs as [? _]. }
  destruct (commit_fault env _); [done|]. injection H as <-. simpl.
  apply list_elem_of_fmap. exists x. split; [|done].
  rewrite bool_decide_eq_true_2; [done|congruence].
Qed.

(** ** What an exchange writes

    Either the user or the session did not resolve, and nothing was
    written; or they resolved, and then every message the run added
    belongs to the session resolved, the other sessions are as they
    were, the session resolved is still there under its owner, and the
    messages added are stamped in the order they were added. *)
Lemma chat_exchange_writes chat_request client_ip w r w' :
  chat_exchange env chat_request client_ip w = (r, w') →
  (∃ e w1, chat_resolve env chat_request w = (Raise e, w1) ∧ r = Raise e ∧
           sessions w' = sessions w ∧ messages w' = messages w) ∨
  (∃ user session w1 new,
     chat_resolve env chat_request w = (Return (user, session), w1) ∧
     messages w' = messages w ++ new ∧
     (∀ m, m ∈ new → Message.session_id m = Session.id session) ∧
     (∀ x, x ∈ sessions w1 → Session.id x ≠ Session.id session → x ∈ sessions w') ∧
     (∀ x, x ∈ sessions w1 →
           x ∈ sessions w' ∨ ∃ now, Session.touch now x ∈ sessions w') ∧
     ((∀ i j, (i < j)%nat → clock_at env i < clock_at env j) →
      Sorted (λ a b, Message.created_at a < Message.created_at b) new) ∧
     (∀ u s data, r = Return (u, s, data) → u = user ∧ s = session) ∧
     (length new ≤ 2)%nat ∧
     (∀ result, r = Return result → ∃ now, Session.touch now session ∈ sessions w')).
Proof.
  intros H. unfold chat_exchange in H.
  destruct (chat_resolve env chat_request w) as [[e|[user session]] w1] eqn:Hres.
  { left. unfold bind in H. rewrite Hres in H. injection H as <- <-.
    exists e, w1. split; [done|]. split; [done|].
    apply chat_resolve_inv in Hres as [(?&?&?&_)|(e'&_&_&Hg)]; [done|].
    destruct Hg as (_ & Hs & Hm & _). simpl in *. rewrite app_nil_r in *. done. }
  right. unfold bind at 1 in H. rewrite Hres in H. cbv beta iota in H.
  assert (messages w1 = messages w ∧ session ∈ sessions w1) as [Hm1 Hin1].
  { apply chat_resolve_inv in Hres
      as [(?&?&[= <- <-]&_&_&_&[[Hg Hold]|[Hg _]])|(?&?&_)]; [..|done];
      destruct Hg as (_ & Hs & Hm & _); simpl in Hm, Hs; rewrite app_nil_r in Hm.
    - rewrite app_nil_r in Hs. by rewrite Hs.
    - split; [done|]. rewrite Hs. apply elem_of_app. right. apply elem_of_cons. by left. }
  exists user, session, w1.
  assert (∀ w2 new,
            messages w2 = messages w1 ++ new → sessions w2 = sessions w1 →
            (∀ m, m ∈ new → Message.session_id m = Session.id session) →
            (length new ≤ 1)%nat →
            ∃ new,
              messages w2 = messages w ++ new ∧
              (∀ m, m ∈ new → Message.session_id m = Session.id session) ∧
              (∀ x, x ∈ sessions w1 → Session.id x ≠ Session.id session → x ∈ sessions w2) ∧
              (∀ x, x ∈ sessions w1 →
                    x ∈ sessions w2 ∨ ∃ now, Session.touch now x ∈ sessions w2) ∧
              ((∀ i j, (i < j)%nat → clock_at env i < clock_at env j) →
               Sorted (λ a b, Message.created_at a < Message.created_at b) new) ∧
              (length new ≤ 2)%nat) as Hstop.
  { intros w2 new Hm Hs Hsid Hlen. exists new. rewrite Hm, Hm1, Hs.
    split_and!; [done..| | |lia].
    - intros x Hx. by left.
    - intros _. destruct new as [|m [|]]; [constructor|repeat constructor|simpl in Hlen; lia]. }
  (* block 3 *)
  destruct (chat_store_inbound env chat_request session w1) as [[e|stored] w2] eqn:Hin.
  { unfold bind at 1 in H. rewrite Hin in H. injection H as <- <-.
    apply chat_store_inbound_inv in Hin.
    destruct (inbound_content chat_request); [|by destruct Hin].
    destruct Hin as [(?&?&_)|(e'&_&_&Hg)]; [done|].
    destruct Hg as (_ & Hs & Hm & _). simpl in *. rewrite app_nil_r in Hs.
    destruct (Hstop w2 [] Hm Hs) as (new & ?); [by intros ? ?%elem_of_nil|simpl; lia|].
    exists new. destruct_and!. split_and!; done. }
  unfold bind at 1 in H. rewrite Hin in H.
  pose proof (chat_store_inbound_stamp _ _ _ _ _ Hin) as Hstamp2.
  assert (∃ inbound, messages w2 = messages w1 ++ inbound ∧ sessions w2 = sessions w1 ∧
            (∀ m, m ∈ inbound → Message.session_id m = Session.id session) ∧
            inbound = match stored with Some m => [m] | None => [] end)
    as (inbound & Hm2 & Hs2 & Hsid2 & Hinbound).
  { apply chat_store_inbound_inv in Hin.
    destruct (inbound_content chat_request).
    - destruct Hin as [(m&[= ->]&Hg&_&Hsid&_)|(?&?&_)]; [|done].
      exists [m]. destruct Hg as (_ & Hs & Hm & _). simpl in *. rewrite app_nil_r in Hs.
      split_and!; [done..| |done]. by intros ? ->%list_elem_of_singleton.
    - destruct Hin as [[= ->] ->]. exists []. rewrite app_nil_r.
      split_and!; [done..| |done]. by intros ? ?%elem_of_nil. }
  (* block 4 *)
  destruct (chat_forward env chat_request client_ip user session w2) as [rf w3] eqn:Hf.
  unfold bind at 1 in H. rewrite Hf in H.
  pose proof (chat_forward_ticks _ _ _ _ _ _ _ Hf) as Hticks3.
  assert (messages w3 = messages w2 ∧ sessions w3 = sessions w2) as [Hm3 Hs3].
  { destruct (chat_forward_run env chat_request client_ip user session w2)
      as (n & facts & w3' & Hf' & Hg).
    rewrite Hf in Hf'. injection Hf' as _ <-.
    destruct Hg as (_ & Hs & Hm & _). simpl in *. by rewrite app_nil_r in *. }
  assert (length inbound ≤ 1)%nat as Hlen2 by (subst inbound; destruct stored; simpl; lia).
  destruct rf as [e|response_data].
  { injection H as <- <-.
    destruct (Hstop w3 inbound) as (new & ?); [congruence..|done|done|].
    exists new. destruct_and!. split_and!; done. }
  (* block 5 *)
  destruct (chat_store_reply env session response_data w3) as [[e|stored'] w4] eqn:Hrep.
  { unfold bind at 1 in H. rewrite Hrep in H. injection H as <- <-.
    apply chat_store_reply_inv in Hrep.
    destruct (reply_content response_data); [|by destruct Hrep].
    destruct Hrep as [(?&?&_)|(e'&_&_&Hg)]; [done|].
    destruct Hg as (_ & Hs & Hm & _). simpl in *. rewrite app_nil_r in Hs, Hm.
    destruct (Hstop w4 inbound) as (new & ?); [congruence..|done|done|].
    exists new. destruct_and!. split_and!; done. }
  unfold bind at 1 in H. rewrite Hrep in H.
  pose proof (chat_store_reply_stamp _ _ _ _ _ Hrep) as Hstamp4.
  assert (∃ reply, messages w4 = messages w3 ++ reply ∧ sessions w4 = sessions w3 ∧
            (∀ m, m ∈ reply → Message.session_id m = Session.id session) ∧
            reply = match stored' with Some m => [m] | None => [] end)
    as (reply & Hm4 & Hs4 & Hsid4 & Hreply).
  { apply chat_store_reply_inv in Hrep.
    destruct (reply_content response_data).
    - destruct Hrep as [(m&[= ->]&Hg&_&Hsid&_)|(?&?&_)]; [|done].
      exists [m]. destruct Hg as (_ & Hs & Hm & _). simpl in *. rewrite app_nil_r in Hs.
      split_and!; [done..| |done]. by intros ? ->%list_elem_of_singleton.
    - destruct Hrep as [[= ->] ->]. exists []. rewrite app_nil_r.
      split_and!; [done..| |done]. by intros ? ?%elem_of_nil. }
  (* block 6 *)
  destruct (update_session_timestamp env (Session.id session) w4) as [rt w5] eqn:Ht.
  pose proof (update_session_timestamp_rows _ _ _ _ Ht) as [Hkeep Hrows].
  assert (messages w5 = messages w4) as Hm5.
  { apply update_session_timestamp_inv in Ht as [[_ Ht]|(?&_&_&Hg)].
    - by destruct Ht as (_ & _ & ? & _).
    - destruct Hg as (_ & _ & Hm & _). simpl in Hm. by rewrite app_nil_r in Hm. }
  assert (w' = w5 ∧ (∀ u s data, r = Return (u, s, data) → u = user ∧ s = session) ∧
          (∀ result, r = Return result → rt = Return tt)) as (Hw' & Hresult & Hrt).
  { unfold bind in H. rewrite Ht in H. destruct rt as [e|[]]; injection H as <- <-.
    - by split_and!.
    - split_and!; [done| |done]. by intros u s data [= -> -> _]. }
  rewrite Hw'. exists (inbound ++ reply). split_and!.
  - done.
  - rewrite Hm5, Hm4, Hm3, Hm2, Hm1. by rewrite app_assoc.
  - intros m [Hm|Hm]%elem_of_app; [by apply Hsid2|by apply Hsid4].
  - intros x Hx Hne. apply Hkeep; [|done]. by rewrite Hs4, Hs3, Hs2.
  - intros x Hx. apply Hrows. by rewrite Hs4, Hs3, Hs2.
  - intros Hclock. subst inbound reply.
    destruct stored as [mu|], stored' as [ma|]; simpl; repeat constructor.
    destruct Hstamp2 as [-> ?], Hstamp4 as [-> ?]. apply Hclock. lia.
  - done.
  - subst inbound reply. rewrite length_app. destruct stored, stored'; simpl; lia.
  - intros result Hr. rewrite (Hrt _ Hr) in Ht. exists (clock_at env (ticks w4)).
    eapply update_session_timestamp_touches; [exact Ht| |done]. by rewrite Hs4, Hs3, Hs2.
Qed.

End Chat.

(** * The chat handler and its caller *)

Section Chat_requests.
Context (env : Env).

Lemma get_or_create_user_no_row user_id w :
  (∀ u, u ∈ users w → Some (User.id u) ≠ user_id) →
  ∃ w', get_or_create_user env user_id w =
          (Raise (IntegrityError "NOT NULL constraint failed: users.username"), w') ∧
        grows w w' d_empty.
Proof.
  intros Hunseen. unfold get_or_create_user, db_add_User, users_violation. unfold_run.
  rewrite filter_nil_not by done.
  destruct user_id; simpl; (eexists; split; [reflexivity|solve_grows]).
Qed.

(** What the handler leaves of what its exchange left: the tables and
    the payloads sent are those of the exchange; a response is the
    body the exchange returned, with the two identifiers added. *)
Lemma chat_completions_after_exchange user_agent chat_request client_ip w r w' :
  chat_completions env user_agent chat_request client_ip w = (r, w') →
  ∃ r0 w1,
    chat_exchange env chat_request client_ip (set_ticks S w) = (r0, w1) ∧
    users w' = users w1 ∧ sessions w' = sessions w1 ∧ messages w' = messages w1 ∧
    vllm_calls w' = vllm_calls w1 ∧
    (∀ e, r0 = Raise e →
          r = Raise (if is_HTTPException e then e
                     else HTTPException 500 ("Internal error: " +:+ str e)) ∧
          request_logs w' = request_logs w1) ∧
    (∀ response_data, r = Return response_data →
       ∃ user session data,
         r0 = Return (user, session, data) ∧
         response_data = ResponseData.annotate (Session.id session) (User.id user) data).
Proof.
  intros H. apply chat_completions_inv in H as (r0 & w1 & Hex & H).
  exists r0, w1. split; [done|].
  destruct r0 as [e|[[user session] data]].
  - destruct H as (-> & facts & Hg). destruct Hg as (Hu & Hs & Hm & Hl & _ & Hc).
    simpl in *. rewrite app_nil_r in *. split_and!; try done. by intros ? [= <-].
  - destruct H as (facts & [(l & w2 & _ & -> & _ & Hg)|(e & w2 & _ & -> & Hg)]);
      destruct Hg as (Hu & Hs & Hm & _ & _ & Hc); simpl in *; rewrite app_nil_r in *;
      split_and!; try done.
    intros ? [= <-]. by exists user, session, data.
Qed.

(** X18: A request in the name of a user that has no row is refused before
    anything happens: the caller gets 500 (the insert of the missing
    user is refused, its username being NOT NULL), nothing is sent to
    the backend, and no session, message or request log row is
    written. *)
Theorem chat_unseen_user_refused user_agent chat_request client_ip w :
  (∀ u, u ∈ users w → Some (User.id u) ≠ ChatRequest.user_id chat_request) →
  ∃ detail w',
    chat_completions env user_agent chat_request client_ip w =
      (Raise (HTTPException 500 ("Internal error: " +:+ detail)), w') ∧
    same_tables w w' ∧ request_logs w' = request_logs w ∧ vllm_calls w' = vllm_calls w.
Proof.
  intros Hunseen.
  destruct (chat_completions env user_agent chat_request client_ip w) as [r w'] eqn:H.
  exists "NOT NULL constraint failed: users.username", w'.
  apply chat_completions_after_exchange in H
    as (r0 & w1 & Hex & Hu & Hs & Hm & Hc & Hraise & _).
  destruct (get_or_create_user_no_row (ChatRequest.user_id chat_request) (set_ticks S w))
    as (w0 & Hgu & Hg); [done|].
  unfold chat_exchange, chat_resolve, bind in Hex. rewrite Hgu in Hex.
  injection Hex as <- <-.
  destruct (Hraise _ eq_refl) as [-> Hl].
  destruct Hg as (Hu0 & Hs0 & Hm0 & Hl0 & _ & Hc0). simpl in *. rewrite app_nil_r in *.
  split; [done|]. split; [|split]; [by split_and!; congruence|congruence..].
Qed.

(** X19: Whatever session identifier a request names, and whatever comes
    of the request, a session of another user is left as it was and
    gets no message. *)
Theorem chat_leaves_foreign_session_alone user_agent chat_request client_ip s w :
  NoDup (Session.id <$> sessions w) →
  s ∈ sessions w →
  Some (Session.user_id s) ≠ ChatRequest.user_id chat_request →
  let w' := (chat_completions env user_agent chat_request client_ip w).2 in
  s ∈ sessions w' ∧
  messages_of (Session.id s) w' = messages_of (Session.id s) w.
Proof.
  intros Hnd Hs Hother w'. subst w'.
  destruct (chat_completions env user_agent chat_request client_ip w) as [r w'] eqn:H.
  simpl. apply chat_completions_after_exchange in H
    as (r0 & w1 & Hex & _ & Hs' & Hm' & _).
  unfold messages_of. rewrite Hs', Hm'.
  apply chat_exchange_writes in Hex
    as [(e & w0 & _ & _ & -> & ->)|(user & session & w0 & new & Hres & -> & Hsid & Hkeep &
          _ & _ & _ & _ & _)]; [done|].
  apply chat_resolve_inv in Hres
    as [(u' & s' & [= <- <-] & _ & Huid & Hown & Hcase)|(?&?&_)]; [|done].
  simpl in Hcase.
  assert (Session.id s ≠ Session.id session ∧ s ∈ sessions w0) as [Hne Hin].
  { destruct Hcase as [[Hg Hold]|[Hg Hfresh]];
      destruct Hg as (_ & Hsw & _); simpl in Hsw.
    - rewrite app_nil_r in Hsw. split; [|by rewrite Hsw].
      intros Hid. apply Hother.
      rewrite (NoDup_fmap_eq Session.id _ s session Hnd Hs Hold Hid). congruence.
    - split; [|rewrite Hsw; apply elem_of_app; by left].
      intros Hid. apply Hfresh. rewrite <- Hid. by apply list_elem_of_fmap_2. }
  split; [by apply Hkeep|].
  rewrite filter_app. rewrite (filter_nil_not _ new); [by rewrite app_nil_r|].
  intros m Hm Hid. apply Hsid in Hm. congruence.
Qed.

(** ** Which session a request talks to *)

Lemma chat_resolve_named chat_request user s w :
  pk_unique w → user ∈ users w → s ∈ sessions w →
  Session.user_id s = User.id user →
  ChatRequest.user_id chat_request = Some (User.id user) →
  ChatRequest.session_id chat_request = Some (Session.id s) →
  Session.id s ≠ "" →
  chat_resolve env chat_request w = (Return (user, s), w).
Proof.
  intros [Hnu Hns] Hu Hs Hown Huid Hsid Hne.
  unfold chat_resolve, bind. rewrite Huid, Hsid.
  rewrite (get_or_create_user_seen env user w Hnu Hu). simpl.
  destruct (String.eqb_spec (Session.id s) "") as [|_]; [done|]. simpl.
  by rewrite <- Hown, (get_session_by_id_own s w Hns Hs).
Qed.

Lemma reply_content_annotate sid uid data :
  reply_content (ResponseData.annotate sid uid data) = reply_content data.
Proof. done. Qed.

(** X20: A request that names a session of its user continues that
    session: the response carries the identifier named, no session is
    created, the row of the session is the old one with a new
    [updated_at], and what the run stores is appended to the messages
    of that session, the caller's last message (if its role is user)
    before the reply (if the backend gave a choice). *)
Theorem chat_continues_named_session
    user_agent chat_request client_ip user s w response_data w' :
  pk_unique w → user ∈ users w → s ∈ sessions w →
  Session.user_id s = User.id user →
  ChatRequest.user_id chat_request = Some (User.id user) →
  ChatRequest.session_id chat_request = Some (Session.id s) →
  Session.id s ≠ "" →
  chat_completions env user_agent chat_request client_ip w = (Return response_data, w') →
  ResponseData.session_id response_data = Some (Session.id s) ∧
  Session.id <$> sessions w' = Session.id <$> sessions w ∧
  (∃ now, Session.touch now s ∈ sessions w') ∧
  ∃ inbound reply,
    messages_of (Session.id s) w' = messages_of (Session.id s) w ++ inbound ++ reply ∧
    turn "user" (Session.id s) (inbound_content chat_request) inbound ∧
    turn "assistant" (Session.id s) (reply_content response_data) reply.
Proof.
  intros Hpk Hu Hs Hown Huid Hsid Hne H.
  pose proof H as H'.
  apply chat_completions_after_exchange in H'
    as (r0 & w1 & Hex & _ & Hs1 & _ & _ & _ & Hret).
  destruct (Hret _ eq_refl) as (u & ses & data & -> & Hrd).
  apply chat_exchange_writes in Hex
    as [(?&?&_&?&_)|(user' & session' & w0 & new & Hres & _ & _ & _ & _ & _ & Hsame & _ &
          Htouch)]; [done|].
  destruct (Hsame u ses data eq_refl) as [-> ->].
  rewrite (chat_resolve_named chat_request user s (set_ticks S w)) in Hres by done.
  injection Hres as <- <- _.
  assert (ResponseData.session_id response_data = Some (Session.id s)) as Hsession
    by (by rewrite Hrd).
  split; [done|].
  assert (∃ now, Session.touch now s ∈ sessions w') as Htouched
    by (rewrite Hs1; by eapply Htouch).
  apply chat_completions_returns in H
    as (user2 & session2 & data2 & created & inbound & reply & l & Hrd2 & _ & _ & _ &
        Hcreated & Hin & Hrep & _ & _ & Hids & Hmsgs & _).
  assert (Session.id session2 = Session.id s) as Hid2.
  { rewrite Hrd2 in Hsession. simpl in Hsession. by injection Hsession. }
  rewrite Hid2 in *.
  assert (created = []) as ->.
  { destruct Hcreated as [[-> _]|[_ Hfresh]]; [done|].
    destruct Hfresh. by apply list_elem_of_fmap_2. }
  rewrite app_nil_r in Hids. split; [done|]. split; [done|].
  exists inbound, reply. rewrite Hrd2, reply_content_annotate. split_and!; [|done..].
  unfold messages_of. rewrite Hmsgs, !filter_app.
  apply turn_said in Hin as [-> _]. by apply turn_said in Hrep as [-> _].
Qed.

Lemma chat_resolve_creates chat_request w user session w1 :
  (∀ x, x ∈ sessions w →
        Some (Session.id x) = ChatRequest.session_id chat_request →
        Session.id x ≠ "" →
        Some (Session.user_id x) ≠ ChatRequest.user_id chat_request) →
  chat_resolve env chat_request w = (Return (user, session), w1) →
  grows w w1 (d_session session) ∧
  (Session.id session ∉ Session.id <$> sessions w) ∧
  Some (Session.user_id session) = ChatRequest.user_id chat_request ∧
  Session.model_name session =
    Some (default "qwen2.5-7b" (ChatRequest.model chat_request)) ∧
  ∃ now, Session.title session = Some (default_title env now).
Proof.
  intros Hnone H. unfold chat_resolve in H.
  apply bind_inv in H as [(u & w2 & Hu & H)|(?&_&?)]; [|done].
  apply get_or_create_user_inv in Hu as [(u'&[= <-]&_&Huid&->)|(?&?&_)]; [|done].
  apply bind_inv in H as [(found & w3 & Hs & H)|(?&_&?)]; [|done].
  assert (found = None ∧ w3 = w) as [-> ->].
  { destruct (truthy_str (ChatRequest.session_id chat_request)) eqn:Htruthy;
      [|by injection Hs as <- <-].
    destruct (ChatRequest.session_id chat_request) as [sid|] eqn:Hsid; [|done].
    simpl in Hs, Htruthy.
    apply get_session_by_id_inv in Hs as [-> [([= ->]&_)|[(x&[= ->]&Hx&Hid&Hown)|(?&?&_)]]];
      [done| |done].
    exfalso. apply (Hnone x Hx); [by rewrite Hid| |congruence].
    rewrite Hid. intros ->. done. }
  apply bind_inv in H as [(s & w4 & Hc & H)|(?&_&?)]; [|done].
  injection H as <- <- <-.
  apply bind_inv in Hc as [(now & w5 & Hn & Hc)|(?&?&_)]; [|done].
  injection Hn as <- <-.
  apply create_new_session_inv in Hc as [(s'&[= <-]&Hg&Hfresh&Hown&Hmodel&Htitle)|(?&?&_)];
    [|done].
  split_and!; [| done | congruence | done |].
  - eapply grows_trans in Hg; [|apply (grows_ticks w)]. by rewrite d_app_empty_l in Hg.
  - simpl in Htitle. by eexists.
Qed.

(** X21: A session identifier that does not resolve for the caller (none
    given, an empty one, an unknown one, or one of another user's
    session) is no error: a request that returns has then started a
    new session for its user, under a fresh identifier, which the
    response carries, with the model of the request and the date label
    as its title. *)
Theorem chat_unresolved_session_starts_new
    user_agent chat_request client_ip w response_data w' :
  (∀ x, x ∈ sessions w →
        Some (Session.id x) = ChatRequest.session_id chat_request →
        Session.id x ≠ "" →
        Some (Session.user_id x) ≠ ChatRequest.user_id chat_request) →
  chat_completions env user_agent chat_request client_ip w = (Return response_data, w') →
  ∃ row,
    row ∈ sessions w' ∧
    ResponseData.session_id response_data = Some (Session.id row) ∧
    (Session.id row ∉ Session.id <$> sessions w) ∧
    Session.id <$> sessions w' = (Session.id <$> sessions w) ++ [Session.id row] ∧
    Some (Session.user_id row) = ChatRequest.user_id chat_request ∧
    Session.model_name row = Some (default "qwen2.5-7b" (ChatRequest.model chat_request)) ∧
    ∃ now, Session.title row = Some (default_title env now).
Proof.
  intros Hnone H. pose proof H as H'.
  apply chat_completions_after_exchange in H'
    as (r0 & w1 & Hex & _ & Hs' & _ & _ & _ & Hret).
  destruct (Hret _ eq_refl) as (u & ses & data & -> & Hrd).
  apply chat_exchange_writes in Hex
    as [(?&?&_&?&_)|(user & session & w0 & new & Hres & _ & _ & _ & Hrows & _ & Hsame & _ & _)];
    [done|].
  destruct (Hsame u ses data eq_refl) as [-> ->].
  apply chat_resolve_creates in Hres as (Hg & Hfresh & Hown & Hmodel & Htitle); [|done].
  assert (session ∈ sessions w0) as Hin.
  { destruct Hg as (_ & -> & _). apply elem_of_app. right. apply elem_of_cons. by left. }
  apply chat_completions_returns in H
    as (user2 & session2 & data2 & created & inbound & reply & l & Hrd2 & _ & _ & _ &
        Hcreated & _ & _ & _ & _ & Hids & _).
  assert (Session.id session2 = Session.id session) as Hid2.
  { rewrite Hrd2 in Hrd. apply (f_equal ResponseData.session_id) in Hrd. simpl in Hrd.
    by injection Hrd. }
  assert (Session.id <$> sessions w' = (Session.id <$> sessions w) ++ [Session.id session])
    as Hids'.
  { rewrite Hids, fmap_app. destruct Hcreated as [[-> Hold]|[-> _]]; simpl.
    - destruct Hfresh. rewrite <- Hid2. by apply list_elem_of_fmap_2.
    - by rewrite Hid2. }
  rewrite <- Hs' in Hrows.
  destruct (Hrows session Hin) as [Hrow|[now Hrow]].
  - exists session. rewrite Hrd. by split_and!.
  - exists (Session.touch now session). rewrite Hrd. by split_and!.
Qed.

(** ** When the backend cannot be used *)

(** X22: When the backend cannot be reached, or answers 200 with a body
    that is not JSON, the caller gets 500 "Internal error: " followed
    by the text of the failure; no request log row is written and no
    reply stored, and the user message stored before the call stays. *)
Theorem chat_backend_unusable user_agent chat_request client_ip e w r w' :
  (∀ n, forward_result (vllm_post env n (vllm_request_of chat_request)) = Raise e) →
  is_HTTPException e = false →
  chat_completions env user_agent chat_request client_ip w = (r, w') →
  vllm_calls w' = vllm_calls w ++ [vllm_request_of chat_request] →
  r = Raise (HTTPException 500 ("Internal error: " +:+ str e)) ∧
  request_logs w' = request_logs w ∧
  ∃ session created inbound,
    sessions w' = sessions w ++ created ∧
    messages w' = messages w ++ inbound ∧
    turn "user" (Session.id session) (inbound_content chat_request) inbound.
Proof.
  intros Hanswer Hne H Hcalled.
  apply chat_completions_inv in H as (r0 & w1 & Hex & H).
  apply chat_exchange_inv in Hex
    as (created & inbound & _ & _ & [(e' & -> & _ & Hg & _)|(n & facts & user & session & _ & _ &
          _ & _ & Hin & Hex)]).
  - destruct H as (_ & facts & Hg').
    exfalso. apply (app_singleton_neq (vllm_calls w) (vllm_request_of chat_request)).
    rewrite <- Hcalled. unfold grows in *; simpl in *; destruct_and?.
    rewrite ?app_nil_r in *. congruence.
  - rewrite Hanswer in Hex. destruct Hex as [-> Hg].
    destruct H as (-> & facts' & Hg'). rewrite Hne.
    split; [done|]. unfold grows in *; simpl in *; destruct_and?.
    rewrite ?app_nil_r in *. split; [congruence|].
    exists session, created, inbound. split_and!; [congruence..|done].
Qed.

(** ** The request log row *)

Lemma chat_completions_stages user_agent chat_request client_ip w response_data w' :
  chat_completions env user_agent chat_request client_ip w = (Return response_data, w') →
  ∃ user session data w1 w2,
    chat_exchange env chat_request client_ip (set_ticks S w) =
      (Return (user, session, data), w1) ∧
    chat_audit env user_agent chat_request client_ip (clock_at env (ticks w))
               user session w1 = (Return tt, w2) ∧
    chat_respond env client_ip (clock_at env (ticks w)) user session data w2 =
      (Return response_data, w').
Proof.
  intros H. change (try_except
    (chat_try env user_agent chat_request client_ip (clock_at env (ticks w)))
    (chat_except env client_ip (clock_at env (ticks w))) (set_ticks S w) =
      (Return response_data, w')) in H.
  set (start_time := clock_at env (ticks w)) in *.
  unfold try_except, chat_try in H. unfold bind at 1 in H.
  destruct (chat_exchange env chat_request client_ip (set_ticks S w))
    as [[e|[[user session] data]] w1] eqn:Hex.
  { destruct (chat_except_run env client_ip start_time e w1) as (facts & w2 & Hh & _).
    by rewrite Hh in H. }
  unfold bind at 1 in H.
  destruct (chat_audit env user_agent chat_request client_ip start_time user session w1)
    as [[e|[]] w2] eqn:Ha.
  { destruct (chat_except_run env client_ip start_time e w2) as (facts & w3 & Hh & _).
    by rewrite Hh in H. }
  exists user, session, data, w1, w2. split; [done|]. split; [done|].
  destruct (chat_respond_run env client_ip start_time user session data w2)
    as (facts & w3 & Hr & _).
  rewrite Hr in H. by rewrite Hr.
Qed.

Lemma chat_audit_row user_agent chat_request client_ip start_time user session w w' :
  chat_audit env user_agent chat_request client_ip start_time user session w =
    (Return tt, w') →
  ∃ l, request_logs w' = request_logs w ++ [l] ∧
       RequestLog.user_id l = Some (User.id user) ∧
       RequestLog.session_id l = Some (Session.id session) ∧
       RequestLog.endpoint l = "/v1/chat/completions" ∧
       RequestLog.method l = "POST" ∧
       RequestLog.ip_address l = Some client_ip ∧
       RequestLog.user_agent l = user_agent ∧
       RequestLog.request_data l = Some (vllm_request_of chat_request) ∧
       RequestLog.response_status l = Some 200 ∧
       RequestLog.response_time_ms l = Some (clock_at env (ticks w) - start_time).
Proof.
  unfold chat_audit, log_request_to_db, db_add_RequestLog, request_logs_violation.
  unfold_run. case_bool_decide; simpl; [done|].
  destruct (commit_fault env _); intros [= <-]; simpl. eexists. by split_and!.
Qed.

(** X23: A call that returns has written exactly one request log row, and
    the row records the call: the user and the session the response
    names, the endpoint and the method, the caller's address and user
    agent, the payload that went to the backend, status 200, and as
    response time the clock at the audit less the clock at the start
    of the handler. *)
Theorem chat_request_log_row user_agent chat_request client_ip w response_data w' :
  chat_completions env user_agent chat_request client_ip w = (Return response_data, w') →
  ∃ l, request_logs w' = request_logs w ++ [l] ∧
       RequestLog.user_id l = ResponseData.user_id response_data ∧
       RequestLog.session_id l = ResponseData.session_id response_data ∧
       RequestLog.endpoint l = "/v1/chat/completions" ∧
       RequestLog.method l = "POST" ∧
       RequestLog.ip_address l = Some client_ip ∧
       RequestLog.user_agent l = user_agent ∧
       RequestLog.request_data l = Some (vllm_request_of chat_request) ∧
       RequestLog.response_status l = Some 200 ∧
       ∃ audited, RequestLog.response_time_ms l =
                    Some (clock_at env audited - clock_at env (ticks w)).
Proof.
  intros H. pose proof H as H'.
  apply chat_completions_stages in H'
    as (user & session & data & w1 & w2 & Hex & Ha & Hr).
  apply chat_audit_row in Ha as (l & Hl & Hfields).
  destruct (chat_respond_run env client_ip (clock_at env (ticks w)) user session data w2)
    as (facts & w3 & Hr' & Hg).
  rewrite Hr in Hr'. injection Hr' as -> <-.
  apply chat_completions_returns in H
    as (_ & _ & _ & _ & _ & _ & l0 & _ & _ & _ & _ & _ & _ & _ & _ & _ & _ & _ & Hl0 & _).
  assert (request_logs w' = request_logs w2) as Hl'
    by (destruct Hg as (_ & _ & _ & Hlogs & _); simpl in Hlogs; by rewrite app_nil_r in Hlogs).
  rewrite Hl', Hl in Hl0. apply app_inj_tail in Hl0 as [Hsame <-].
  exists l. rewrite Hl', Hl, Hsame. destruct_and!. split_and!; try done. by eexists.
Qed.

(** ** Reading a conversation back *)

(** X24: Start a conversation, then read it back. With a clock that moves
    on between readings, after a call that returned and started a new
    session, the listing of that session's messages, asked for with
    the two identifiers of the response, returns the caller's last
    message (if its role is user) and then the reply (if the backend
    gave a choice), and nothing else. *)
Theorem chat_then_list_messages
    user_agent chat_request client_ip w response_data w' session_id user_id :
  consistent w →
  (∀ i j, (i < j)%nat → clock_at env i < clock_at env j) →
  chat_completions env user_agent chat_request client_ip w = (Return response_data, w') →
  ResponseData.session_id response_data = Some session_id →
  ResponseData.user_id response_data = Some user_id →
  session_id ∉ Session.id <$> sessions w →
  ∃ listed,
    get_session_messages env session_id user_id client_ip w' = (Return listed, w') ∧
    (λ m, (MessageResponse.role m, MessageResponse.content m)) <$> listed =
      match inbound_content chat_request with Some c => [("user", c)] | None => [] end ++
      match reply_content response_data with Some c => [("assistant", c)] | None => [] end.
Proof.
  intros [[Hnu Hns] Howned] Hclock H Hsid Huid Hfresh.
  pose proof H as H1. pose proof H as H2.
  apply chat_completions_after_exchange in H1
    as (r0 & w1 & Hex & Hu1 & Hs1 & Hm1 & _ & _ & Hret).
  destruct (Hret _ eq_refl) as (u & ses & data & -> & Hrd).
  apply chat_exchange_writes in Hex
    as [(?&?&_&?&_)|(user & session & w0 & new & Hres & Hnew & _ & _ & Hrows & Hsorted &
          Hsame & _)]; [done|].
  destruct (Hsame u ses data eq_refl) as [-> ->]. specialize (Hsorted Hclock).
  rewrite Hrd in Hsid, Huid. simpl in Hsid, Huid.
  injection Hsid as <-. injection Huid as <-.
  apply chat_resolve_inv in Hres
    as [(u' & s' & [= <- <-] & Huser & _ & Hown & Hcase)|(?&?&_)]; [|done].
  simpl in Huser, Hcase.
  assert (session ∈ sessions w0) as Hin0.
  { destruct Hcase as [[Hg Hold]|[Hg _]]; destruct Hg as (_ & Hsw & _); simpl in Hsw.
    - rewrite app_nil_r in Hsw. by rewrite Hsw.
    - rewrite Hsw. apply elem_of_app. right. apply elem_of_cons. by left. }
  apply chat_completions_returns in H2
    as (user2 & session2 & data2 & created & inbound & reply & l & Hrd2 & _ & _ & _ &
        Hcreated & Hturn_in & Hturn_re & _ & Husers & Hids & Hmsgs & _).
  assert (Session.id session2 = Session.id session) as Hid2.
  { rewrite Hrd2 in Hrd. apply (f_equal ResponseData.session_id) in Hrd. simpl in Hrd.
    by injection Hrd. }
  rewrite Hid2 in *.
  assert (created = [session2]) as ->.
  { destruct Hcreated as [[_ Hold]|[-> _]]; [|done].
    destruct Hfresh. rewrite <- Hid2. by apply list_elem_of_fmap_2. }
  assert (pk_unique w') as Hpk'.
  { split; [by rewrite Husers|]. rewrite Hids, fmap_app. simpl. rewrite Hid2.
    apply NoDup_app. split_and!; [done| |apply NoDup_singleton].
    intros x Hx Hx'%list_elem_of_singleton. by subst. }
  assert (messages_of (Session.id session) w' = inbound ++ reply) as Hof.
  { unfold messages_of. rewrite Hmsgs, !filter_app.
    fold (messages_of (Session.id session) w).
    rewrite (messages_of_fresh _ _ Howned Hfresh).
    apply turn_said in Hturn_in as [-> _]. by apply turn_said in Hturn_re as [-> _]. }
  assert (new = inbound ++ reply) as ->.
  { rewrite Hm1, Hnew in Hmsgs. simpl in Hmsgs. by apply app_inv_head in Hmsgs. }
  assert (∃ row, row ∈ sessions w' ∧ Session.id row = Session.id session ∧
                 Session.user_id row = User.id user) as (row & Hrow & Hrid & Hrown).
  { rewrite Hs1. destruct (Hrows session Hin0) as [?|[now ?]].
    - by exists session.
    - by exists (Session.touch now session). }
  destruct (get_session_messages_run env row user client_ip w')
    as (listed & Hrun & _ & _ & Horder); [done|by rewrite Husers|done..|].
  rewrite Hrid in Hrun, Horder. rewrite Hof in Horder.
  exists listed. split; [done|]. rewrite (Horder Hsorted), <- list_fmap_compose.
  rewrite fmap_app. rewrite Hrd2, reply_content_annotate.
  apply turn_said in Hturn_in as [_ Hin]. apply turn_said in Hturn_re as [_ Hre].
  unfold compose; simpl. by rewrite Hin, Hre.
Qed.

(** ** What a request can write at most *)

(** X25: Whatever comes of it, a chat request writes little and deletes
    nothing: the users are as they were; the sessions, messages,
    request log rows and payloads sent that were there are still
    there, in their order and before anything new; and the request
    adds at most one session, two messages, one request log row and
    one call to the backend. *)
Theorem chat_writes_are_bounded user_agent chat_request client_ip w :
  let w' := (chat_completions env user_agent chat_request client_ip w).2 in
  users w' = users w ∧
  ∃ created new logged sent,
    Session.id <$> sessions w' = (Session.id <$> sessions w) ++ created ∧
    messages w' = messages w ++ new ∧
    request_logs w' = request_logs w ++ logged ∧
    vllm_calls w' = vllm_calls w ++ sent ∧
    (length created ≤ 1)%nat ∧ (length new ≤ 2)%nat ∧
    (length logged ≤ 1)%nat ∧ (length sent ≤ 1)%nat.
Proof.
  intros w'. subst w'.
  destruct (chat_completions env user_agent chat_request client_ip w) as [r w'] eqn:H.
  simpl. pose proof H as H1. pose proof H as H2. pose proof H as H3.
  apply chat_completions_effect in H1 as (created & _ & Husers & Hids & Hcreated & _).
  apply chat_completions_calls in H2 as (sent & Hsent & Hsent').
  apply chat_completions_after_exchange in H3 as (r0 & w1 & Hex & _ & _ & Hm & _).
  split; [done|].
  assert (∃ new, messages w' = messages w ++ new ∧ (length new ≤ 2)%nat)
    as (new & Hnew & Hlen).
  { rewrite Hm. apply chat_exchange_writes in Hex
      as [(?&?&_&_&_&->)|(?&?&?&new&_&->&_&_&_&_&_&?&_)].
    - exists []. split; [by rewrite app_nil_r|simpl; lia].
    - by exists new. }
  assert (∃ logged, request_logs w' = request_logs w ++ logged ∧ (length logged ≤ 1)%nat)
    as (logged & Hlogged & Hlen').
  { apply chat_completions_inv in H as (r1 & w2 & Hex' & H).
    assert (request_logs w2 = request_logs w) as Hkept.
    { apply chat_exchange_inv in Hex'
        as (? & ? & _ & _ & [(? & _ & _ & Hg & _)|(? & ? & ? & ? & _ & _ & _ & _ & _ & Hex')]).
      - destruct Hg as (_ & _ & _ & Hl & _). simpl in Hl. by rewrite app_nil_r in Hl.
      - destruct (forward_result _).
        + destruct Hex' as [_ Hg]. destruct Hg as (_ & _ & _ & Hl & _). simpl in Hl.
          by rewrite app_nil_r in Hl.
        + destruct Hex' as (? & _ & [(? & _ & _ & Hg)|(? & _ & Hg & Ht & _)]).
          * destruct Hg as (_ & _ & _ & Hl & _). simpl in Hl. by rewrite app_nil_r in Hl.
          * destruct Hg as (_ & _ & _ & Hl & _). destruct Ht as (_ & _ & _ & Hl' & _).
            simpl in Hl. rewrite app_nil_r in Hl. congruence. }
    destruct r1 as [e|[[u s] d]].
    - destruct H as (_ & facts & Hg). destruct Hg as (_ & _ & _ & Hl & _). simpl in Hl.
      exists []. split; [congruence|simpl; lia].
    - destruct H as (facts & [(l & ? & _ & _ & _ & Hg)|(? & ? & _ & _ & Hg)]);
        destruct Hg as (_ & _ & _ & Hl & _); simpl in Hl.
      + exists [l]. split; [congruence|simpl; lia].
      + exists []. split; [congruence|simpl; lia]. }
  exists (Session.id <$> created), new, logged, sent.
  split_and!; try done.
  - by rewrite Hids, fmap_app.
  - rewrite length_fmap. destruct Hcreated as [->|(? & -> & _)]; simpl; lia.
  - destruct Hsent' as [->| ->]; simpl; lia.
Qed.

(** ** The store stays consistent *)

Lemma consistent_same_tables w w' : same_tables w w' → consistent w → consistent w'.
Proof.
  intros (Hu & Hs & Hm) [[Hnu Hns] Hown].
  split; [split|]; unfold messages_owned; by rewrite ?Hu, ?Hs, ?Hm.
Qed.

(** X26: Unique primary keys and messages that belong to sessions of the
    table are kept by the creation of the default user and by every
    handler, whatever the request and whatever its outcome: by the
    chat handler, which only adds, by the deletion, which removes a
    session together with its messages, and by the session endpoints
    that read. *)
Theorem store_stays_consistent w :
  consistent w →
  consistent (create_default_user env w).2 ∧
  (∀ user_agent chat_request client_ip,
     consistent (chat_completions env user_agent chat_request client_ip w).2) ∧
  (∀ session_id user_id client_ip,
     consistent (delete_session env session_id user_id client_ip w).2) ∧
  (∀ session_data session_id user_id client_ip,
     consistent (create_session env session_data client_ip w).2 ∧
     consistent (list_sessions env user_id client_ip w).2 ∧
     consistent (get_session env session_id user_id client_ip w).2 ∧
     consistent (get_session_messages env session_id user_id client_ip w).2).
Proof.
  intros Hc. split_and!.
  - by apply create_default_user_consistent.
  - intros. by apply chat_completions_consistent.
  - intros. by apply delete_session_consistent.
  - intros session_data session_id user_id client_ip.
    destruct (session_reads_keep_store env session_data session_id user_id client_ip w)
      as (? & ? & ? & ?).
    split_and!; by eapply consistent_same_tables.
Qed.

(** ** The response *)

Lemma forward_result_returns answer data :
  forward_result answer = Return data →
  ∃ response, answer = inr response ∧ HttpResponse.status_code response = 200 ∧
              HttpResponse.json response = Some data.
Proof.
  unfold forward_result. destruct answer as [e|response]; [done|].
  destruct (Z.eqb_spec (HttpResponse.status_code response) 200) as [H200|]; [|done].
  simpl. destruct (HttpResponse.json response) as [d|] eqn:Hjson; [|done].
  intros [= ->]. by exists response.
Qed.

(** X27: The gateway answers with the backend's completion and nothing of
    its own but two identifiers: a response is the JSON body of an
    answer the backend gave, with status 200, to the payload of this
    request, with [session_id] and [user_id] added; choices, usage and
    model are the backend's. *)
Theorem chat_response_is_backend_body
    user_agent chat_request client_ip w response_data w' :
  chat_completions env user_agent chat_request client_ip w = (Return response_data, w') →
  ∃ n response body session_id user_id,
    vllm_post env n (vllm_request_of chat_request) = inr response ∧
    HttpResponse.status_code response = 200 ∧
    HttpResponse.json response = Some body ∧
    response_data = ResponseData.annotate session_id user_id body ∧
    ResponseData.choices response_data = ResponseData.choices body ∧
    ResponseData.usage response_data = ResponseData.usage body ∧
    ResponseData.model response_data = ResponseData.model body.
Proof.
  intros H. apply chat_completions_after_exchange in H
    as (r0 & w1 & Hex & _ & _ & _ & _ & _ & Hret).
  destruct (Hret _ eq_refl) as (user & session & data & -> & ->).
  apply chat_exchange_inv in Hex
    as (created & inbound & _ & _ & [(?&?&_)|(n & facts & u & s & _ & _ & _ & _ & _ & Hex)]);
    [done|].
  destruct (forward_result (vllm_post env n (vllm_request_of chat_request)))
    as [e|body] eqn:Hfw; [by destruct Hex|].
  destruct Hex as (reply & _ & [(? & ? & _)|(w0 & [= <- <- <-] & _)]); [done|].
  apply forward_result_returns in Hfw as (response & Hanswer & H200 & Hjson).
  by exists n, response, data, (Session.id session), (User.id user).
Qed.

End Chat_requests.

(** * The gateway keeps serving *)

Section Serving.
Context (env : Env) (user : User.t).
Context (chat_request : ChatRequest.t) (response : HttpResponse.t)
        (response_data : ResponseData.t).
Hypothesis uuid_inj : ∀ i j, uuid_at env i = uuid_at env j → i = j.
Hypothesis never_faults : ∀ n, commit_fault env n = None.
Hypothesis answers : ∀ n, vllm_post env n (vllm_request_of chat_request) = inr response.
Hypothesis status_200 : HttpResponse.status_code response = 200.
Hypothesis json_body : HttpResponse.json response = Some response_data.
Hypothesis asks_as_user : ChatRequest.user_id chat_request = Some (User.id user).


End Serving.

(** * The audit trail of a chat request *)

Section Trail.
Context (env : Env).

Lemma logged_one status ip now details :
  LOG_REQUESTS env = true →
  logged env status ip [AuditFact.mk now ip completions_path status details].
Proof.
  intros Hlog. unfold logged. rewrite Hlog. split; [done|].
  by intros fact ->%list_elem_of_singleton.
Qed.

Lemma logged_none status ip : LOG_REQUESTS env = false → logged env status ip [].
Proof.
  intros Hlog. unfold logged. rewrite Hlog. split; [done|]. by intros fact ?%elem_of_nil.
Qed.

Lemma chat_forward_facts chat_request client_ip user session w r w' :
  chat_forward env chat_request client_ip user session w = (r, w') →
  ∃ facts,
    access_log w' = access_log w ++ facts ∧ logged env "START" client_ip facts ∧
    vllm_calls w' = vllm_calls w ++ [vllm_request_of chat_request].
Proof.
  unfold chat_forward, log_request, httpx_post, response_json. unfold_run.
  destruct (LOG_REQUESTS env) eqn:Hlog; simpl;
    (destruct (vllm_post env _ _) as [e|response]; simpl;
     [|destruct (negb _); [|destruct (HttpResponse.json response)]]);
    intros [= <- <-]; simpl;
    first [ eexists [_]; split; [reflexivity|]; split; [by apply logged_one|done]
          | exists []; split; [by rewrite app_nil_r|]; split; [by apply logged_none|done] ].
Qed.

(** The exchange writes no fact and calls no backend, or it writes the
    START fact (if logging is on) and calls the backend once. *)
Lemma chat_exchange_facts chat_request client_ip w r w' :
  chat_exchange env chat_request client_ip w = (r, w') →
  (access_log w' = access_log w ∧ vllm_calls w' = vllm_calls w) ∨
  (∃ facts,
     access_log w' = access_log w ++ facts ∧ logged env "START" client_ip facts ∧
     vllm_calls w' = vllm_calls w ++ [vllm_request_of chat_request]).
Proof.
  intros H. unfold chat_exchange in H.
  assert (∀ wa wb d, grows wa wb d → d_access_log d = [] → d_vllm_calls d = [] →
            access_log wb = access_log wa ∧ vllm_calls wb = vllm_calls wa) as Hquiet.
  { intros wa wb d (_ & _ & _ & _ & Ha & Hc) Hda Hdc.
    rewrite Hda, Hdc, !app_nil_r in *. done. }
  destruct (chat_resolve env chat_request w) as [rr w1] eqn:Hres.
  unfold bind at 1 in H. rewrite Hres in H.
  assert (access_log w1 = access_log w ∧ vllm_calls w1 = vllm_calls w) as [Ha1 Hc1].
  { apply chat_resolve_inv in Hres as [(?&?&_&_&_&_&[[Hg _]|[Hg _]])|(?&_&_&Hg)];
      by eapply Hquiet. }
  destruct rr as [e|[user session]]; [injection H as <- <-; by left|].
  cbv beta iota in H.
  destruct (chat_store_inbound env chat_request session w1) as [ri w2] eqn:Hin.
  unfold bind at 1 in H. rewrite Hin in H.
  assert (access_log w2 = access_log w1 ∧ vllm_calls w2 = vllm_calls w1) as [Ha2 Hc2].
  { apply chat_store_inbound_inv in Hin. destruct (inbound_content chat_request).
    - destruct Hin as [(?&_&Hg&_)|(?&_&_&Hg)]; by eapply Hquiet.
    - by destruct Hin as [_ ->]. }
  destruct ri as [e|stored]; [injection H as <- <-; left; split; congruence|].
  destruct (chat_forward env chat_request client_ip user session w2) as [rf w3] eqn:Hf.
  unfold bind at 1 in H. rewrite Hf in H.
  apply chat_forward_facts in Hf as (facts & Ha3 & Hlogged & Hc3).
  right. exists facts. rewrite <- Ha1, <- Ha2, <- Hc1, <- Hc2, <- Ha3, <- Hc3.
  split; [|split; [done|]].
  all: destruct rf as [e|data]; [by injection H as <- <-|].
  all: destruct (chat_store_reply env session data w3) as [rp w4] eqn:Hrep.
  all: unfold bind at 1 in H; rewrite Hrep in H.
  all: assert (access_log w4 = access_log w3 ∧ vllm_calls w4 = vllm_calls w3) as [Ha4 Hc4]
    by (apply chat_store_reply_inv in Hrep; destruct (reply_content data);
        [destruct Hrep as [(?&_&Hg&_)|(?&_&_&Hg)]; by eapply Hquiet
        |by destruct Hrep as [_ ->]]).
  all: destruct rp as [e|stored']; [injection H as <- <-; congruence|].
  all: destruct (update_session_timestamp env (Session.id session) w4) as [rt w5] eqn:Ht.
  all: unfold bind in H; rewrite Ht in H.
  all: assert (access_log w5 = access_log w4 ∧ vllm_calls w5 = vllm_calls w4) as [Ha5 Hc5]
    by (apply update_session_timestamp_inv in Ht as [[_ Ht]|(?&_&_&Hg)];
        [by destruct Ht as (_ & _ & _ & _ & ? & ?)|by eapply Hquiet]).
  all: destruct rt as [e|[]]; injection H as <- <-; congruence.
Qed.

Lemma chat_except_facts client_ip start_time e w :
  ∃ facts w',
    chat_except env client_ip start_time e w =
      (Raise (if is_HTTPException e then e
              else HTTPException 500 ("Internal error: " +:+ str e)), w') ∧
    access_log w' = access_log w ++ facts ∧
    (if is_HTTPException e then facts = [] else logged env "ERROR" client_ip facts) ∧
    vllm_calls w' = vllm_calls w.
Proof.
  unfold chat_except, log_request. destruct (is_HTTPException e).
  - exists [], w. by rewrite app_nil_r.
  - unfold_run. destruct (LOG_REQUESTS env) eqn:Hlog.
    + eexists [_], _. split; [reflexivity|]. split; [reflexivity|].
      split; [by apply logged_one|done].
    + exists []. eexists. split; [reflexivity|]. split; [by rewrite app_nil_r|].
      split; [by apply logged_none|done].
Qed.

Lemma chat_respond_facts client_ip start_time user session data w :
  ∃ facts w',
    chat_respond env client_ip start_time user session data w =
      (Return (ResponseData.annotate (Session.id session) (User.id user) data), w') ∧
    access_log w' = access_log w ++ facts ∧ logged env "SUCCESS" client_ip facts ∧
    vllm_calls w' = vllm_calls w.
Proof.
  unfold chat_respond, log_request. unfold_run. destruct (LOG_REQUESTS env) eqn:Hlog.
  - eexists [_], _. split; [reflexivity|]. split; [reflexivity|].
    split; [by apply logged_one|done].
  - exists []. eexists. split; [reflexivity|]. split; [by rewrite app_nil_r|].
    split; [by apply logged_none|done].
Qed.

(** X29: The audit facts a chat request leaves, by its outcome. With
    logging on: a call that returns leaves START and then SUCCESS; a
    call that fails before the backend is asked leaves ERROR alone; a
    call that fails after the backend was asked leaves START and then
    ERROR, unless what failed is the backend answering with an error
    status, which leaves START alone, with no ERROR after it. Every
    fact names the caller's address and the endpoint. With logging
    off there is no fact. *)
Theorem chat_audit_trail user_agent chat_request client_ip w :
  let run := chat_completions env user_agent chat_request client_ip w in
  let asked := vllm_calls run.2 = vllm_calls w ++ [vllm_request_of chat_request] in
  ∃ facts,
    access_log run.2 = access_log w ++ facts ∧
    (∀ fact, fact ∈ facts →
       AuditFact.ip fact = client_ip ∧ AuditFact.endpoint fact = "/v1/chat/completions") ∧
    if LOG_REQUESTS env then
      match run.1 with
      | Return _ => AuditFact.status <$> facts = ["START"; "SUCCESS"] ∧ asked
      | Raise e =>
          (AuditFact.status <$> facts = ["ERROR"] ∧ vllm_calls run.2 = vllm_calls w ∧
           ∃ detail, e = HTTPException 500 ("Internal error: " +:+ detail)) ∨
          (AuditFact.status <$> facts = ["START"; "ERROR"] ∧ asked ∧
           ∃ detail, e = HTTPException 500 ("Internal error: " +:+ detail)) ∨
          (AuditFact.status <$> facts = ["START"] ∧ asked ∧
           is_HTTPException e = true ∧
           ∃ n, forward_result (vllm_post env n (vllm_request_of chat_request)) = Raise e)
      end
    else facts = [].
Proof.
  intros run asked. subst run asked.
  destruct (chat_completions env user_agent chat_request client_ip w) as [r w'] eqn:Hrun.
  simpl.
  change (try_except
    (chat_try env user_agent chat_request client_ip (clock_at env (ticks w)))
    (chat_except env client_ip (clock_at env (ticks w))) (set_ticks S w) = (r, w')) in Hrun.
  set (start_time := clock_at env (ticks w)) in *.
  unfold try_except, chat_try in Hrun. unfold bind at 1 in Hrun.
  destruct (chat_exchange env chat_request client_ip (set_ticks S w)) as [r0 w1] eqn:Hex.
  pose proof (chat_exchange_facts _ _ _ _ _ Hex) as Hfacts.
  assert (access_log (set_ticks S w) = access_log w ∧
          vllm_calls (set_ticks S w) = vllm_calls w) as [Ha0 Hc0] by done.
  rewrite Ha0, Hc0 in Hfacts. clear Ha0 Hc0.
  assert (∀ (l : list AuditFact.t) a b, l ++ a ++ b = (l ++ a) ++ b) as Hassoc
    by (intros; by rewrite app_assoc).
  assert (∀ ip started ended status,
            logged env "START" ip started → logged env status ip ended →
            (∀ fact, fact ∈ started ++ ended →
               AuditFact.ip fact = ip ∧ AuditFact.endpoint fact = "/v1/chat/completions") ∧
            AuditFact.status <$> started ++ ended =
              (if LOG_REQUESTS env then ["START"; status] else []) ∧
            (LOG_REQUESTS env = false → started ++ ended = [])) as Htwo.
  { intros ip started ended status [Hs1 Hf1] [Hs2 Hf2]. split_and!.
    - intros fact [?|?]%elem_of_app; [by apply Hf1|by apply Hf2].
    - rewrite fmap_app, Hs1, Hs2. by destruct (LOG_REQUESTS env).
    - intros Hlog. rewrite Hlog in Hs1, Hs2.
      apply fmap_nil_inv in Hs1 as ->. by apply fmap_nil_inv in Hs2 as ->. }
  assert (∀ ip status facts,
            logged env status ip facts → LOG_REQUESTS env = false → facts = []) as Hoff.
  { intros ip status facts [Hs _] Hlog. rewrite Hlog in Hs. by apply fmap_nil_inv in Hs. }
  destruct r0 as [e|[[user session] data]].
  - (* the exchange raised *)
    destruct (chat_except_facts client_ip start_time e w1)
      as (ended & w2 & Heq & Ha2 & Hended & Hc2).
    rewrite Heq in Hrun. injection Hrun as <- <-.
    apply chat_exchange_inv in Hex
      as (created & inbound & _ & _ & [(e' & [= <-] & Hne & Hg & _)|(n & facts & u & s & _ &
            _ & _ & _ & _ & Hex)]).
    + (* before the backend *)
      destruct Hfacts as [[Ha1 Hc1]|(started & _ & _ & Hc1)].
      2: { destruct Hg as (_ & _ & _ & _ & _ & Hc). simpl in Hc. rewrite app_nil_r in Hc.
           rewrite Hc in Hc1. by apply app_singleton_neq in Hc1. }
      rewrite Hne in *. exists ended. split; [by rewrite Ha2, Ha1|].
      split; [apply Hended|].
      destruct (LOG_REQUESTS env) eqn:Hlog; simpl; [|by eapply Hoff].
      left. destruct Hended as [Hst _]. rewrite Hlog in Hst.
      split_and!; [done|congruence|by eexists].
    + (* after the backend was asked *)
      destruct Hfacts as [[_ Hc1]|(started & Ha1 & Hstarted & Hc1)].
      { exfalso. destruct (forward_result _).
        - destruct Hex as [_ Hg]. destruct Hg as (_ & _ & _ & _ & _ & Hc). simpl in Hc.
          rewrite Hc1 in Hc. by apply app_singleton_neq in Hc.
        - destruct Hex as (? & _ & [(? & _ & _ & Hg)|(? & ? & _)]); [|done].
          destruct Hg as (_ & _ & _ & _ & _ & Hc). simpl in Hc.
          rewrite Hc1 in Hc. by apply app_singleton_neq in Hc. }
      exists (started ++ ended). split; [rewrite Ha2, Ha1; symmetry; apply Hassoc|].
      destruct (is_HTTPException e) eqn:Hhttp.
      * subst ended. rewrite app_nil_r. split; [apply Hstarted|].
        destruct (LOG_REQUESTS env) eqn:Hlog; simpl; [|by eapply Hoff].
        right; right. destruct Hstarted as [Hst _]. rewrite Hlog in Hst.
        split_and!; [done|congruence|done|].
        destruct (forward_result (vllm_post env n (vllm_request_of chat_request)))
          as [e1|d1] eqn:Hfw.
        -- destruct Hex as [[= <-] _]. by exists n.
        -- destruct Hex as (? & _ & [(e1 & [= <-] & Hne1 & _)|(? & ? & _)]); [|done].
           congruence.
      * destruct (Htwo _ _ _ _ Hstarted Hended) as (Hfs & Hst & Hnone).
        split; [done|]. rewrite Hst.
        destruct (LOG_REQUESTS env) eqn:Hlog; simpl; [|by apply Hnone].
        right; left. split_and!; [done|congruence|by eexists].
  - (* the exchange returned *)
    destruct Hfacts as [[_ Hc1]|(started & Ha1 & Hstarted & Hc1)].
    { exfalso. apply chat_exchange_inv in Hex
        as (created & inbound & _ & _ & [(?&?&_)|(n & facts & u & s & _ &
              _ & _ & _ & _ & Hex)]); [done|].
      destruct (forward_result _); [by destruct Hex|].
      destruct Hex as (? & _ & [(? & ? & _)|(? & _ & Hg & Ht & _)]); [done|].
      destruct Hg as (_ & _ & _ & _ & _ & Hc). destruct Ht as (_ & _ & _ & _ & _ & Hc').
      simpl in Hc. rewrite Hc' in Hc1. rewrite Hc1 in Hc.
      by apply app_singleton_neq in Hc. }
    unfold bind at 1 in Hrun.
    destruct (chat_audit env user_agent chat_request client_ip start_time user session w1)
      as [ra w2] eqn:Haudit.
    assert (access_log w2 = access_log w1 ∧ vllm_calls w2 = vllm_calls w1) as [Ha2 Hc2].
    { apply chat_audit_inv in Haudit as [(?&_&Hg&_)|(?&_&_&Hg)];
        destruct Hg as (_ & _ & _ & _ & Ha & Hc); simpl in *;
        by rewrite app_nil_r in *. }
    destruct ra as [e|[]].
    + (* the audit write raised *)
      destruct (chat_except_facts client_ip start_time e w2)
        as (ended & w4 & Heq & Ha4 & Hended & Hc4).
      rewrite Heq in Hrun. injection Hrun as <- <-.
      assert (is_HTTPException e = false) as Hne
        by (by apply chat_audit_inv in Haudit as [(?&?&_)|(?&[= <-]&?&_)]).
      rewrite Hne in *.
      destruct (Htwo _ _ _ _ Hstarted Hended) as (Hfs & Hst & Hnone).
      exists (started ++ ended). split; [rewrite Ha4, Ha2, Ha1; symmetry; apply Hassoc|].
      split; [done|]. rewrite Hst.
      destruct (LOG_REQUESTS env) eqn:Hlog; simpl; [|by apply Hnone].
      right; left. split_and!; [done|congruence|by eexists].
    + (* the response *)
      destruct (chat_respond_facts client_ip start_time user session data w2)
        as (ended & w4 & Hr & Ha4 & Hended & Hc4).
      unfold bind in Hrun. rewrite Hr in Hrun. injection Hrun as <- <-.
      destruct (Htwo _ _ _ _ Hstarted Hended) as (Hfs & Hst & Hnone).
      exists (started ++ ended). split; [rewrite Ha4, Ha2, Ha1; symmetry; apply Hassoc|].
      split; [done|]. rewrite Hst.
      destruct (LOG_REQUESTS env) eqn:Hlog; simpl; [|by apply Hnone].
      split; [done|congruence].
Qed.

End Trail.

(** * Worked runs *)

(** The conditions of [chat_completions_returns_when_ready] hold of
    the concrete environment on the store as the startup leaves it. *)
Example chat_returns_at_startup messages max_tokens :
  let env := demo_env (inr hello) no_fault in
  ∃ session w',
    chat_completions env (Some "curl") (demo_request messages max_tokens) "10.0.0.7"
                     (startup_world env) =
      (Return (ResponseData.annotate (Session.id session) "uuid-0"
                 (ResponseData.mk (Some ["hello"]) (Some (Usage.mk (Some 1) (Some 5)))
                                  (Some "qwen2.5-7b") None None)), w').
Proof.
  intros env.
  assert (∀ i j, uuid_at env i = uuid_at env j → i = j) as Hinj.
  { intros i j H. simpl in H. simplify_eq. by apply (inj pretty). }
  apply (chat_completions_returns_when_ready env
           (User.mk "uuid-0" (Some "default") (Some "default@example.com")
                    (Some "default-api-key") true 1000 2000)
           Hinj (λ _, eq_refl) (demo_request messages max_tokens) hello);
    [done..|].
  split; [|split].
  - apply elem_of_cons. by left.
  - split; simpl; [apply NoDup_singleton|constructor].
  - intros k _. simpl. split_and!; apply not_elem_of_nil.
Qed.

(** The scenario of the specification: the default user says "hi", the
    backend answers "hello". The store then holds one user, one
    session, two messages and one RequestLog row, of status 200. *)
Example chat_scenario :
  let env := demo_env (inr hello) no_fault in
  let run := chat_completions env (Some "curl") (demo_request hi None) "10.0.0.7"
                              (startup_world env) in
  (∃ response_data,
     run.1 = Return response_data ∧
     ResponseData.session_id response_data = Some "uuid-6" ∧
     ResponseData.user_id response_data = Some "uuid-0" ∧
     ResponseData.choices response_data = Some ["hello"]) ∧
  length (users run.2) = 1%nat ∧ length (sessions run.2) = 1%nat ∧
  length (messages run.2) = 2%nat ∧
  (RequestLog.response_status <$> request_logs run.2) = [Some 200].
Proof.
  intros env run. split; [|by vm_compute].
  eexists. split; [vm_compute; reflexivity|]. by vm_compute.
Qed.

(** C1: a backend that answers 500. The caller gets the 500 and the
    body, the user message stays, and the request log is empty. *)
Lemma chat_backend_failure_surfaces_witness :
  let env := demo_env (inr boom) no_fault in
  let w := startup_world env in
  let run := chat_completions env (Some "curl") (demo_request hi None) "10.0.0.7" w in
  run.1 = Raise (HTTPException 500 "vLLM error: boom") ∧
  request_logs run.2 = [] ∧
  ∃ session created inbound,
    sessions run.2 = created ∧ messages run.2 = inbound ∧
    turn "user" (Session.id session) (Some "hi") inbound.
Proof.
  intros env w run.
  apply (chat_backend_failure_surfaces env (Some "curl") (demo_request hi None)
           "10.0.0.7" boom w run.1 run.2).
  - intros n. reflexivity.
  - vm_compute. discriminate.
  - apply surjective_pairing.
  - vm_compute. reflexivity.
Defined.

(** C1 as stated fails here: the backend was called and answered 500,
    and no RequestLog row records it. *)
Lemma chat_backend_failure_writes_no_row :
  let env := demo_env (inr boom) no_fault in
  let w := startup_world env in
  let request := demo_request hi None in
  let run := chat_completions env (Some "curl") request "10.0.0.7" w in
  vllm_calls run.2 = [vllm_request_of request] ∧
  run.1 = Raise (HTTPException 500 "vLLM error: boom") ∧
  ¬ ∃ l, l ∈ request_logs run.2 ∧ RequestLog.response_status l = Some 500.
Proof.
  intros env w request run. split_and!.
  - vm_compute. reflexivity.
  - vm_compute. reflexivity.
  - assert (request_logs run.2 = []) as -> by (vm_compute; reflexivity).
    intros (l & Hl & _). by apply elem_of_nil in Hl.
Qed.

(** C2: the backend answers, the commit of the RequestLog row is
    refused. *)
Lemma chat_audit_failure_surfaces_witness :
  let env := demo_env (inr hello) locked_at_audit in
  let w := startup_world env in
  let run := chat_completions env (Some "curl") (demo_request hi None) "10.0.0.7" w in
  run.1 = Raise (HTTPException 500 "Internal error: database is locked") ∧
  request_logs run.2 = [].
Proof.
  intros env w run.
  eassert (chat_exchange env (demo_request hi None) "10.0.0.7" (set_ticks S w) =
             (Return (_, _, _), _)) as Hex by (vm_compute; reflexivity).
  match type of Hex with
  | _ = (Return (?user, ?session, _), ?w1) =>
      eassert (chat_audit env (Some "curl") (demo_request hi None) "10.0.0.7"
                 (clock_at env (ticks w)) user session w1 = (Raise _, _)) as Haudit
        by (vm_compute; reflexivity)
  end.
  destruct (chat_audit_failure_surfaces env _ _ _ _ _ _ _ _ _ _ Hex Haudit)
    as (w' & Hrun & _ & _ & _ & Hlogs).
  subst run. rewrite Hrun. simpl. split; [reflexivity|]. rewrite Hlogs. reflexivity.
Defined.

(** C2 as stated fails here: the exchange with the backend returned,
    the audit write failed, and the caller gets an error, not the
    completion. *)
Lemma chat_audit_failure_is_not_swallowed :
  let env := demo_env (inr hello) locked_at_audit in
  let w := startup_world env in
  let request := demo_request hi None in
  (∃ user session response_data w1 w2,
     chat_exchange env request "10.0.0.7" (set_ticks S w) =
       (Return (user, session, response_data), w1) ∧
     chat_audit env (Some "curl") request "10.0.0.7" (clock_at env (ticks w))
                user session w1 =
       (Raise (OperationalError "database is locked"), w2)) ∧
  (chat_completions env (Some "curl") request "10.0.0.7" w).1 =
    Raise (HTTPException 500 "Internal error: database is locked").
Proof.
  intros env w request. split.
  - eexists _, _, _, _, _. split; vm_compute; reflexivity.
  - vm_compute. reflexivity.
Qed.

(** C3: the scenario of the specification, on the store as the
    startup leaves it. *)
Lemma chat_completions_records_the_turn_witness :
  let env := demo_env (inr hello) no_fault in
  let w := startup_world env in
  let run := chat_completions env (Some "curl") (demo_request hi None) "10.0.0.7" w in
  (λ m, (Message.role m, Message.content m)) <$> messages_of "uuid-6" run.2 =
    [("user", "hi"); ("assistant", "hello")].
Proof.
  intros env w run.
  eassert (chat_completions env (Some "curl") (demo_request hi None) "10.0.0.7" w =
             (Return _, _)) as Hrun by (vm_compute; reflexivity).
  destruct (chat_completions_records_the_turn env _ _ _ w _ _ "uuid-6" Hrun)
    as (Hturn & _ & _).
  - reflexivity.
  - vm_compute. intros H. by apply elem_of_nil in H.
  - intros m Hm. vm_compute in Hm. by apply elem_of_nil in Hm.
  - subst run. rewrite Hrun.
    apply (Hturn (ChatMessage.mk "user" "hi") "hello" []); reflexivity.
Defined.

(** C5: bob asks for the session of alice. *)
Lemma session_lookup_scoped_to_owner_witness :
  let env := demo_env (inr hello) no_fault in
  let not_found {A} : Res A * World :=
    (Raise (HTTPException 404 "Session not found"), two_users_world) in
  get_session_by_id "s-1" "bob" two_users_world = (Return None, two_users_world) ∧
  get_session env "s-1" "bob" "10.0.0.7" two_users_world = not_found ∧
  delete_session env "s-1" "bob" "10.0.0.7" two_users_world = not_found ∧
  get_session_messages env "s-1" "bob" "10.0.0.7" two_users_world = not_found.
Proof.
  intros env.
  apply (session_lookup_scoped_to_owner env alice_session bob "10.0.0.7" two_users_world).
  - split; simpl; [|apply NoDup_singleton].
    apply NoDup_cons. split; [|apply NoDup_singleton].
    intros H%list_elem_of_singleton. discriminate.
  - apply elem_of_cons. by left.
  - apply elem_of_cons. right. apply elem_of_cons. by left.
  - simpl. discriminate.
Defined.

(** C6 as stated fails here: logging is on, the check passes, and no
    audit fact is written. *)
Lemma verify_token_pass_writes_no_fact :
  let env := demo_env (inr hello) no_fault in
  let run := verify_token env "10.0.0.7" "/v1/models" "secret" empty_world in
  LOG_REQUESTS env = true ∧
  run.1 = Return "10.0.0.7" ∧
  access_log run.2 = [].
Proof. done. Qed.

(** C7 as stated fails here: max_tokens is set, to 0, and the payload
    sent to the backend has no such key. *)
Lemma chat_payload_drops_zero_max_tokens :
  let env := demo_env (inr hello) no_fault in
  let request := demo_request hi (Some 0) in
  let run := chat_completions env (Some "curl") request "10.0.0.7" (startup_world env) in
  ChatRequest.max_tokens request = Some 0 ∧
  vllm_calls run.2 = [vllm_request_of request] ∧
  vllm_request_of request !! "max_tokens" = None.
Proof.
  intros env request run. split_and!; [done| |done]. vm_compute. reflexivity.
Qed.

(** C9: an identifier never seen, on the empty store. *)
Lemma session_endpoints_unseen_user_witness :
  let env := demo_env (inr hello) no_fault in
  let refused := "NOT NULL constraint failed: users.username" in
  ∃ w', get_session env "s-1" "u1" "10.0.0.7" empty_world =
          (Raise (HTTPException 500 ("Failed to get session: " +:+ refused)), w') ∧
        users w' = [].
Proof.
  intros env refused.
  destruct (session_endpoints_unseen_user env
              (SessionCreate.mk None (Some "qwen2.5-7b") None (Some "u1"))
              "s-1" "u1" "10.0.0.7" empty_world) as (_ & _ & Hget & _).
  - intros u Hu. by apply elem_of_nil in Hu.
  - reflexivity.
  - exact Hget.
Defined.

(** C10: no messages at all; the default user asks. *)
Lemma chat_empty_messages_witness :
  let env := demo_env (inr hello) no_fault in
  let w := startup_world env in
  let request := demo_request [] None in
  let run := chat_completions env (Some "curl") request "10.0.0.7" w in
  vllm_calls run.2 = [vllm_request_of request] ∧
  vllm_request_of request !! "messages" = Some (VMsgs []) ∧
  ∃ reply, messages run.2 = reply ∧ ∀ m, m ∈ reply → Message.role m = "assistant".
Proof.
  intros env w request run.
  destruct (chat_empty_messages env (Some "curl") request "10.0.0.7" w eq_refl)
    as [_ Hgoes].
  eapply Hgoes. vm_compute. reflexivity.
Defined.

(** ** Further worked runs *)

Ltac concrete_NoDup :=
  simpl;
  repeat first
    [ apply NoDup_nil_2
    | apply NoDup_cons_2;
      [rewrite ?elem_of_cons, ?elem_of_nil; intuition discriminate|] ].

Ltac concrete_elem := rewrite ?elem_of_cons; by eauto.

Lemma two_users_world_unique : pk_unique two_users_world.
Proof. split; concrete_NoDup. Qed.

Lemma talk_world_consistent : consistent talk_world.
Proof.
  split; [split; concrete_NoDup|].
  intros m Hm. simpl in Hm. rewrite !elem_of_cons, elem_of_nil in Hm.
  destruct Hm as [->|[->|[->|[]]]]; simpl; concrete_elem.
Qed.

(** The statistics of [sample_log]: of its seven lines three count,
    one for each counter; the line of the day before, the START and
    IP_BLOCKED lines and the line that is no REQUEST do not. *)
Example get_stats_sample :
  let env := demo_env (inr hello) no_fault in
  ∃ stats,
    (get_stats env demo_outside "10.0.0.7" empty_world).1 =
      Return (Stats "2026-11-04" stats 3) ∧
    stats !! "successful_requests" = Some 1 ∧
    stats !! "failed_requests" = Some 1 ∧
    stats !! "auth_failures" = Some 1.
Proof. intros env. eexists. split; [vm_compute; reflexivity|]. by vm_compute. Qed.

(** The backend is down: the gateway is healthy, the backend is not. *)
Example health_check_backend_down :
  let env := demo_env (inr hello) no_fault in
  (health_check env demo_outside empty_world).1 =
    Return (Health.mk "healthy" "unhealthy" (isoformat env (clock_at env 1))).
Proof. reflexivity. Qed.

(** The startup, run a second time. *)
Lemma create_default_user_idempotent_witness :
  let env := demo_env (inr hello) no_fault in
  create_default_user env (startup_world env) = (Return tt, startup_world env).
Proof.
  intros env.
  destruct (create_default_user_idempotent env empty_world (startup_world env))
    as [_ Hagain].
  - vm_compute. reflexivity.
  - exact Hagain.
Defined.

(** The startup on the empty store. *)
Lemma create_default_user_inserts_witness :
  let env := demo_env (inr hello) no_fault in
  ∃ default_user w',
    create_default_user env empty_world = (Return tt, w') ∧
    users w' = [default_user] ∧
    User.id default_user = "uuid-0" ∧
    User.username default_user = Some "default".
Proof.
  intros env.
  destruct (create_default_user_inserts env empty_world)
    as (u & w' & Hrun & Hg & Hid & Hname & _).
  - intros u Hu. by apply elem_of_nil in Hu.
  - reflexivity.
  - exists u, w'. destruct Hg as (Hu & _). by split_and!.
Defined.

(** bob opens a session; bob finds it, alice does not. *)
Lemma create_new_session_then_lookup_witness :
  let env := demo_env (inr hello) no_fault in
  let run := create_new_session env "bob" None (Some "plans") two_users_world in
  ∃ s, run.1 = Return s ∧
       get_session_by_id (Session.id s) "bob" run.2 = (Return (Some s), run.2) ∧
       get_session_by_id (Session.id s) "alice" run.2 = (Return None, run.2).
Proof.
  intros env run.
  eassert (create_new_session env "bob" None (Some "plans") two_users_world =
             (Return _, _)) as Hrun by (vm_compute; reflexivity).
  destruct (create_new_session_then_lookup env _ _ _ _ _ _
              (proj2 two_users_world_unique) Hrun) as [Hfound Hother].
  subst run. rewrite Hrun. eexists. split; [reflexivity|]. split; [exact Hfound|].
  apply Hother. discriminate.
Defined.

(** alice deletes her conversation: its two messages go, bob's
    message and the request log row stay. *)
Lemma delete_session_removes_witness :
  let env := demo_env (inr hello) no_fault in
  let run := delete_session env "s-1" "alice" "10.0.0.7" talk_world in
  run.1 = Return "Session deleted successfully" ∧
  messages_of "s-1" run.2 = [] ∧
  messages_of "s-2" run.2 = messages_of "s-2" talk_world ∧
  request_logs run.2 = request_logs talk_world.
Proof.
  intros env run.
  destruct (delete_session_removes env alice_session alice "10.0.0.7" talk_world)
    as (_ & Hlogs & Hrun & _ & Hgone & _ & Hothers).
  - apply talk_world_consistent.
  - simpl. concrete_elem.
  - simpl. concrete_elem.
  - reflexivity.
  - split_and!; [exact Hrun|exact Hgone| |exact Hlogs].
    apply (Hothers "s-2"). discriminate.
Defined.

(** ... and asks for it again. *)
Lemma delete_session_then_not_found_witness :
  let env := demo_env (inr hello) no_fault in
  let w' := (delete_session env "s-1" "alice" "10.0.0.7" talk_world).2 in
  delete_session env "s-1" "alice" "10.0.0.7" w' =
    (Raise (HTTPException 404 "Session not found"), w').
Proof.
  intros env w'.
  destruct (delete_session_then_not_found env alice_session alice "10.0.0.7" talk_world)
    as (Hagain & _).
  - apply talk_world_consistent.
  - simpl. concrete_elem.
  - simpl. concrete_elem.
  - reflexivity.
  - reflexivity.
  - exact Hagain.
Defined.

(** alice reads her conversation. *)
Lemma get_session_messages_lists_witness :
  let env := demo_env (inr hello) no_fault in
  ∃ listed,
    get_session_messages env "s-1" "alice" "10.0.0.7" talk_world =
      (Return listed, talk_world) ∧
    MessageResponse.content <$> listed = ["hi"; "hello"].
Proof.
  intros env.
  destruct (get_session_messages_lists env alice_session alice "10.0.0.7" talk_world)
    as (listed & Hrun & _ & _ & Horder).
  - apply talk_world_consistent.
  - simpl. concrete_elem.
  - simpl. concrete_elem.
  - reflexivity.
  - exists listed. split; [exact Hrun|]. rewrite Horder; [reflexivity|].
    vm_compute. repeat constructor.
Defined.

(** alice asks for her session. *)
Lemma get_session_of_owner_fails_witness :
  let env := demo_env (inr hello) no_fault in
  ∃ detail,
    get_session env "s-1" "alice" "10.0.0.7" two_users_world =
      (Raise (HTTPException 500 ("Failed to get session: " +:+ detail)), two_users_world).
Proof.
  intros env.
  apply (get_session_of_owner_fails env alice_session alice "10.0.0.7" two_users_world).
  - apply two_users_world_unique.
  - simpl. concrete_elem.
  - simpl. concrete_elem.
  - reflexivity.
Defined.

(** alice, who has a session, lists her sessions. *)
Lemma list_sessions_lists_nothing_witness :
  let env := demo_env (inr hello) no_fault in
  ∃ detail,
    list_sessions env "alice" "10.0.0.7" two_users_world =
      (Raise (HTTPException 500 ("Failed to list sessions: " +:+ detail)), two_users_world).
Proof.
  intros env.
  destruct (list_sessions_lists_nothing env alice "10.0.0.7" two_users_world)
    as (r & Hrun & Hr).
  - apply two_users_world_unique.
  - simpl. concrete_elem.
  - simpl in Hr. destruct Hr as [detail ->]. by exists detail.
Defined.

(** After the startup, a request that leaves [user_id] to its default
    asks as "default", an identifier no row has. *)
Lemma chat_unseen_user_refused_witness :
  let env := demo_env (inr hello) no_fault in
  let run := chat_completions env (Some "curl") (named_request "default" None)
                              "10.0.0.7" (startup_world env) in
  ∃ detail,
    run.1 = Raise (HTTPException 500 ("Internal error: " +:+ detail)) ∧
    vllm_calls run.2 = [] ∧ sessions run.2 = [] ∧ messages run.2 = [].
Proof.
  intros env run.
  destruct (chat_unseen_user_refused env (Some "curl") (named_request "default" None)
              "10.0.0.7" (startup_world env))
    as (detail & w' & Hrun & (_ & Hs & Hm) & _ & Hc).
  - intros u Hu. vm_compute in Hu. apply list_elem_of_singleton in Hu as ->. discriminate.
  - exists detail. subst run. rewrite Hrun. simpl. by split_and!.
Defined.

(** bob names the session of alice. *)
Lemma chat_leaves_foreign_session_alone_witness :
  let env := demo_env (inr hello) no_fault in
  let w' := (chat_completions env (Some "curl") (named_request "bob" (Some "s-1"))
                              "10.0.0.7" talk_world).2 in
  alice_session ∈ sessions w' ∧ messages_of "s-1" w' = messages_of "s-1" talk_world.
Proof.
  intros env w'.
  apply (chat_leaves_foreign_session_alone env (Some "curl")
           (named_request "bob" (Some "s-1")) "10.0.0.7" alice_session talk_world).
  - concrete_NoDup.
  - simpl. concrete_elem.
  - discriminate.
Defined.

(** alice goes on with her conversation. *)
Lemma chat_continues_named_session_witness :
  let env := demo_env (inr hello) no_fault in
  ∃ response_data w',
    chat_completions env (Some "curl") (named_request "alice" (Some "s-1"))
                     "10.0.0.7" talk_world = (Return response_data, w') ∧
    ResponseData.session_id response_data = Some "s-1" ∧
    Session.id <$> sessions w' = ["s-1"; "s-2"].
Proof.
  intros env.
  eassert (chat_completions env (Some "curl") (named_request "alice" (Some "s-1"))
             "10.0.0.7" talk_world = (Return _, _)) as Hrun by (vm_compute; reflexivity).
  edestruct (chat_continues_named_session env (Some "curl")
               (named_request "alice" (Some "s-1")) "10.0.0.7" alice alice_session
               talk_world) as (Hsid & Hids & _).
  - apply talk_world_consistent.
  - simpl. concrete_elem.
  - simpl. concrete_elem.
  - reflexivity.
  - reflexivity.
  - reflexivity.
  - discriminate.
  - exact Hrun.
  - eexists _, _. split; [exact Hrun|]. split; [exact Hsid|exact Hids].
Defined.

(** bob names the session of alice, and gets one of his own. *)
Lemma chat_unresolved_session_starts_new_witness :
  let env := demo_env (inr hello) no_fault in
  let run := chat_completions env (Some "curl") (named_request "bob" (Some "s-1"))
                              "10.0.0.7" talk_world in
  ∃ row, row ∈ sessions run.2 ∧ Session.user_id row = "bob" ∧
         Session.id <$> sessions run.2 = ["s-1"; "s-2"; Session.id row].
Proof.
  intros env run.
  eassert (chat_completions env (Some "curl") (named_request "bob" (Some "s-1"))
             "10.0.0.7" talk_world = (Return _, _)) as Hrun by (vm_compute; reflexivity).
  edestruct (chat_unresolved_session_starts_new env (Some "curl")
               (named_request "bob" (Some "s-1")) "10.0.0.7" talk_world)
    as (row & Hrow & _ & _ & Hids & Hown & _); [|exact Hrun|].
  - intros x Hx Hid _. simpl in Hx. rewrite !elem_of_cons, elem_of_nil in Hx.
    destruct Hx as [->|[->|[]]]; simpl in *; discriminate.
  - subst run. rewrite Hrun. simpl. exists row. split_and!; [done| |done].
    simpl in Hown. by injection Hown.
Defined.

(** The backend is down. *)
Lemma chat_backend_unusable_witness :
  let env := demo_env (inl (RequestError "connection refused")) no_fault in
  let run := chat_completions env (Some "curl") (demo_request hi None) "10.0.0.7"
                              (startup_world env) in
  run.1 = Raise (HTTPException 500 "Internal error: connection refused") ∧
  request_logs run.2 = [] ∧
  (λ m, (Message.role m, Message.content m)) <$> messages run.2 = [("user", "hi")].
Proof.
  intros env run.
  destruct (chat_backend_unusable env (Some "curl") (demo_request hi None) "10.0.0.7"
              (RequestError "connection refused") (startup_world env) run.1 run.2)
    as (Hr & Hlogs & session & created & inbound & _ & Hm & Hturn).
  - intros n. reflexivity.
  - reflexivity.
  - apply surjective_pairing.
  - vm_compute. reflexivity.
  - split_and!; [exact Hr|exact Hlogs|]. rewrite Hm.
    apply turn_said in Hturn as [_ Hsaid]. simpl. exact Hsaid.
Defined.

(** The scenario of the specification, and its request log row. *)
Lemma chat_request_log_row_witness :
  let env := demo_env (inr hello) no_fault in
  let run := chat_completions env (Some "curl") (demo_request hi None) "10.0.0.7"
                              (startup_world env) in
  ∃ l, request_logs run.2 = [l] ∧
       RequestLog.user_id l = Some "uuid-0" ∧
       RequestLog.session_id l = Some "uuid-6" ∧
       RequestLog.response_status l = Some 200.
Proof.
  intros env run.
  eassert (chat_completions env (Some "curl") (demo_request hi None) "10.0.0.7"
             (startup_world env) = (Return _, _)) as Hrun by (vm_compute; reflexivity).
  destruct (chat_request_log_row env _ _ _ _ _ _ Hrun)
    as (l & Hl & Hu & Hs & _ & _ & _ & _ & _ & Hst & _).
  subst run. rewrite Hrun. simpl. exists l. by split_and!.
Defined.

(** ... and its response. *)
Lemma chat_response_is_backend_body_witness :
  let env := demo_env (inr hello) no_fault in
  ∃ response_data w',
    chat_completions env (Some "curl") (demo_request hi None) "10.0.0.7"
                     (startup_world env) = (Return response_data, w') ∧
    ResponseData.choices response_data = Some ["hello"] ∧
    ResponseData.model response_data = Some "qwen2.5-7b".
Proof.
  intros env.
  eassert (chat_completions env (Some "curl") (demo_request hi None) "10.0.0.7"
             (startup_world env) = (Return _, _)) as Hrun by (vm_compute; reflexivity).
  destruct (chat_response_is_backend_body env _ _ _ _ _ _ Hrun)
    as (n & response & body & sid & uid & Hanswer & _ & Hjson & _ & Hchoices & _ & Hmodel).
  injection Hanswer as <-. injection Hjson as <-.
  eexists _, _. split; [exact Hrun|]. split; [exact Hchoices|exact Hmodel].
Defined.

(** A request with a wrong key does not reach the chat handler. *)
Example POST_chat_completions_wrong_key :
  let env := demo_env (inr hello) no_fault in
  let run := POST_chat_completions env "10.0.0.7" "/v1/chat/completions" "guess"
               (Some "curl") (demo_request hi None) (startup_world env) in
  run.1 = Raise (HTTPException 401 "Invalid API key") ∧
  vllm_calls run.2 = [] ∧ messages run.2 = [] ∧
  AuditFact.status <$> access_log run.2 = ["AUTH_FAILED"].
Proof. by vm_compute. Qed.

(** ... and the conversation, read back. *)
Lemma chat_then_list_messages_witness :
  let env := demo_env (inr hello) no_fault in
  let w' := (chat_completions env (Some "curl") (demo_request hi None) "10.0.0.7"
                              (startup_world env)).2 in
  ∃ listed,
    get_session_messages env "uuid-6" "uuid-0" "10.0.0.7" w' = (Return listed, w') ∧
    (λ m, (MessageResponse.role m, MessageResponse.content m)) <$> listed =
      [("user", "hi"); ("assistant", "hello")].
Proof.
  intros env w'.
  eassert (chat_completions env (Some "curl") (demo_request hi None) "10.0.0.7"
             (startup_world env) = (Return _, _)) as Hrun by (vm_compute; reflexivity).
  edestruct (chat_then_list_messages env (Some "curl") (demo_request hi None) "10.0.0.7"
               (startup_world env)) as (listed & Hlist & Hsaid).
  - apply (create_default_user_consistent env empty_world consistent_empty).
  - intros i j Hij. simpl. lia.
  - exact Hrun.
  - reflexivity.
  - reflexivity.
  - vm_compute. intros H. by apply elem_of_nil in H.
  - subst w'. rewrite Hrun. simpl. by exists listed.
Defined.

(** The bounds, on the scenario's world after the call. *)
Lemma store_stays_consistent_witness :
  let env := demo_env (inr hello) no_fault in
  consistent (delete_session env "s-1" "alice" "10.0.0.7" talk_world).2 ∧
  consistent (chat_completions env (Some "curl") (named_request "bob" (Some "s-1"))
                               "10.0.0.7" talk_world).2.
Proof.
  intros env.
  destruct (store_stays_consistent env talk_world talk_world_consistent)
    as (_ & Hchat & Hdelete & _).
  split; [apply Hdelete|apply Hchat].
Defined.


(** carol, who has no row, asks for the session of alice. *)
Lemma session_endpoints_refuse_other_user_witness :
  let env := demo_env (inr hello) no_fault in
  ∃ e w', delete_session env "s-1" "carol" "10.0.0.7" talk_world = (Raise e, w') ∧
          same_tables talk_world w'.
Proof.
  intros env.
  destruct (session_endpoints_refuse_other_user env alice_session "carol" "10.0.0.7"
              talk_world) as (_ & Hdelete & _).
  - concrete_NoDup.
  - simpl. concrete_elem.
  - discriminate.
  - exact Hdelete.
Defined.
